(** * The chaos-game simulation worker ([src/worker_v3.js])

    A shallow embedding of the worker's engine: colour parsing, geometry
    set-up, the restriction table, the restricted random walk, density
    accumulation, colour normalisation, the stability detector and the
    [updateSetting] message handler, followed by the properties the
    specification states about them.

    Conventions of the embedding:
    - JavaScript numbers that the code only ever uses as integers (indices,
      hit counts, [canvasSize], [sides], packed pixels) are [Z]; the 32-bit
      wrap-around of the bit operators and of [Uint32Array] stores, and the
      rounding of [Float32Array] stores, are written out.
    - Continuous quantities (coordinates, angles, [jumpDistance],
      [gammaExponent], the EMA) are real numbers: double rounding is
      idealised away, which none of the properties below depends on.
    - [Math.random()] is an explicit stream of numbers in [0, 1).
    - A thrown [TypeError] is an explicit outcome that keeps the state
      reached when it was thrown (JavaScript does not roll back).
    - Drawing on the canvas surface and [postMessage] are outside the
      embedding; the pixel buffer the drawing reads is inside. *)

From Stdlib Require Import ZArith List String Ascii Bool Lia Reals Lra.
From stdpp Require Import base list.
Import ListNotations.
Local Open Scope string_scope.
Local Open Scope list_scope.
Local Open Scope Z_scope.

(** ** JavaScript values and operators used by the worker *)

(** A number-valued property that may be missing: [undefined] and [NaN]
    both coerce to 0 under the bit operators and poison arithmetic. *)
Inductive jsval : Type :=
| Undefined
| NaN
| Num (z : Z).

Definition ToInt32 (z : Z) : Z := (z + 2 ^ 31) mod 2 ^ 32 - 2 ^ 31.
Definition ToUint32 (z : Z) : Z := z mod 2 ^ 32.

Definition jsToInt32 (v : jsval) : Z :=
  match v with
  | Num z => ToInt32 z
  | Undefined | NaN => 0
  end.

(** [a << k], [a >> k], [a & b], [a | b] on 32-bit signed integers. *)
Definition shl (a : jsval) (k : Z) : Z := ToInt32 (Z.shiftl (jsToInt32 a) (k mod 32)).
Definition sar (a : jsval) (k : Z) : Z := Z.shiftr (jsToInt32 a) (k mod 32).
Definition band (a b : Z) : Z := Z.land (ToInt32 a) (ToInt32 b).
Definition bor (a b : Z) : Z := Z.lor (ToInt32 a) (ToInt32 b).

(** [Math.floor] and [Math.round] (round half up) on reals. *)
Definition Math_floor (x : R) : Z := Int_part x.
Definition Math_round (x : R) : Z := Int_part (x + / 2).

(** [Math.random()]: a stream of numbers in the half-open unit interval. *)
Record unit01 : Type := { uval : R; uval_range : (0 <= uval < 1)%R }.
Definition rng : Type := nat -> unit01.
Definition rng_tail (g : rng) : rng := fun n => g (S n).

(** [Math.floor(Math.random() * n)] for an array length [n]. *)
Definition randomBelow (u : unit01) (n : nat) : nat :=
  Z.to_nat (Math_floor (uval u * INR n)).

(** ** Colours *)

Module RGB.
Record t : Type := { r : jsval; g : jsval; b : jsval }.
End RGB.

Definition code (c : ascii) : Z := Z.of_nat (nat_of_ascii c).

Definition decDigit (c : ascii) : option Z :=
  let n := code c in
  if (48 <=? n) && (n <=? 57) then Some (n - 48) else None.

Definition hexDigit (c : ascii) : option Z :=
  let n := code c in
  if (48 <=? n) && (n <=? 57) then Some (n - 48)
  else if (65 <=? n) && (n <=? 70) then Some (n - 55)
  else if (97 <=? n) && (n <=? 102) then Some (n - 87)
  else None.

(** White space skipped by [parseInt] (code units below 256). *)
Definition isWhiteSpace (c : ascii) : bool :=
  let n := code c in
  ((9 <=? n) && (n <=? 13)) || (n =? 32) || (n =? 160).

Fixpoint skipWhiteSpace (l : list ascii) : list ascii :=
  match l with
  | c :: l' => if isWhiteSpace c then skipWhiteSpace l' else l
  | [] => []
  end.

(** The longest prefix of hexadecimal digits, as a number; [None] when the
    prefix is empty. *)
Fixpoint hexPrefix (acc : option Z) (l : list ascii) : option Z :=
  match l with
  | c :: l' =>
      match hexDigit c with
      | Some d => hexPrefix (Some (16 * default 0 acc + d)) l'
      | None => acc
      end
  | [] => acc
  end.

Definition stripHexPrefix (l : list ascii) : list ascii :=
  match l with
  | "0"%char :: "x"%char :: l' => l'
  | "0"%char :: "X"%char :: l' => l'
  | _ => l
  end.

(** [parseInt(s, 16)]. *)
Definition parseInt16 (s : list ascii) : jsval :=
  let s := skipWhiteSpace s in
  let '(sign, s) :=
    match s with
    | "-"%char :: s' => (-1, s')
    | "+"%char :: s' => (1, s')
    | _ => (1, s)
    end in
  match hexPrefix None (stripHexPrefix s) with
  | Some n => Num (sign * n)
  | None => NaN
  end.

(** [color.match(/\d+/g)] followed by [.map(Number)]: the maximal runs of
    decimal digits, as numbers, in order.  The numbers are exact integers;
    [Number] rounds a run above 2^53 to the nearest double. *)
Fixpoint digitRuns (cur : option Z) (l : list ascii) : list Z :=
  match l with
  | c :: l' =>
      match decDigit c with
      | Some d => digitRuns (Some (10 * default 0 cur + d)) l'
      | None =>
          match cur with
          | Some n => n :: digitRuns None l'
          | None => digitRuns None l'
          end
      end
  | [] => match cur with Some n => [n] | None => [] end
  end.

(** [rgb[i]] on the array of matches: [undefined] past the end. *)
Definition matchAt (rgb : list Z) (i : nat) : jsval :=
  match rgb !! i with
  | Some n => Num n
  | None => Undefined
  end.

Definition black : RGB.t := {| RGB.r := Num 0; RGB.g := Num 0; RGB.b := Num 0 |}.

Definition colorToRGB (color : string) : RGB.t :=
  match list_ascii_of_string color with
  | "#"%char :: hex =>
      let hex :=
        if (length hex =? 3)%nat || (length hex =? 4)%nat
        then flat_map (fun ch => [ch; ch]) hex
        else hex in
      let num := parseInt16 (firstn 6 hex) in
      {| RGB.r := Num (band (sar num 16) 255);
         RGB.g := Num (band (sar num 8) 255);
         RGB.b := Num (band (jsToInt32 num) 255) |}
  | cs =>
      match digitRuns None cs with
      | [] => black (* Fallback *)
      | rgb =>
          {| RGB.r := matchAt rgb 0; RGB.g := matchAt rgb 1; RGB.b := matchAt rgb 2 |}
      end
  end.

(** ** The engine state *)

(** A number-valued setting that may be missing or not a number. *)
Inductive jsnumber : Type :=
| RUndefined
| RNaN
| RNum (x : R).

Module Point.
Record t : Type := { x : R; y : R }.
End Point.

Module Settings.
Record t : Type := {
  canvasSize : Z;
  sides : Z;
  padding : R;
  jumpDistance : R;
  midpointVertex : bool;
  centerVertex : bool;
  symmetrical : bool;
  restriction : string;
  solidBg : bool;
  gammaExponent : R;
  fgColor : string;
  bgColor : string;
  drawCircle : bool;
  drawPolygon : bool;
  autoStop : bool;
  liveRendering : bool;
  stabilityNewPixelsThreshold : jsnumber
}.
End Settings.

(** The worker's [state] object.  [imageMatrix] is the [Float32Array] of hit
    counts and [pixelData] the [Uint32Array] view of [imageDataBuffer]; both
    are [null] until the first [setup] allocates them, and are lists here
    from the start: on a worker that has not been set up the code throws
    where it reads them (the refill and the render of [updateSetting],
    [stop] on a running engine, [getBlob]), and the embedding is faithful
    there only from the first [setup] on.  The scheduler's clock
    fields ([runTime], [animationFrameId], [lastUpdateTime]) are left out.
    An entry of [prevIndex] is [None] when the code pushed [undefined]. *)
Record State : Type := {
  settings : Settings.t;
  vertices : list Point.t;
  mainVertices : list Point.t;
  currentPoint : Point.t;
  center : Point.t;
  radius : R;
  imageMatrix : list Z;
  allowedMoves : list (list nat);
  pixelData : list Z;
  maxValue : Z;
  prevIndex : list (option nat);
  bgColor : RGB.t;
  fgColor : RGB.t;
  cosAngles : list R;
  sinAngles : list R;
  iterations : Z;
  stabilityCounter : Z;
  newPixelsSinceLastCheck : Z;
  newPixelsEma : R;
  filledPixels : Z;
  isRunning : bool
}.

Definition set_settings (v : Settings.t) (s : State) : State :=
  {| settings := v; vertices := vertices s; mainVertices := mainVertices s; currentPoint :=
  currentPoint s; center := center s; radius := radius s; imageMatrix := imageMatrix s;
  allowedMoves := allowedMoves s; pixelData := pixelData s; maxValue := maxValue s; prevIndex :=
  prevIndex s; bgColor := bgColor s; fgColor := fgColor s; cosAngles := cosAngles s; sinAngles :=
  sinAngles s; iterations := iterations s; stabilityCounter := stabilityCounter s;
  newPixelsSinceLastCheck := newPixelsSinceLastCheck s; newPixelsEma := newPixelsEma s;
  filledPixels := filledPixels s; isRunning := isRunning s |}.
Definition set_vertices (v : list Point.t) (s : State) : State :=
  {| settings := settings s; vertices := v; mainVertices := mainVertices s; currentPoint :=
  currentPoint s; center := center s; radius := radius s; imageMatrix := imageMatrix s;
  allowedMoves := allowedMoves s; pixelData := pixelData s; maxValue := maxValue s; prevIndex :=
  prevIndex s; bgColor := bgColor s; fgColor := fgColor s; cosAngles := cosAngles s; sinAngles :=
  sinAngles s; iterations := iterations s; stabilityCounter := stabilityCounter s;
  newPixelsSinceLastCheck := newPixelsSinceLastCheck s; newPixelsEma := newPixelsEma s;
  filledPixels := filledPixels s; isRunning := isRunning s |}.
Definition set_mainVertices (v : list Point.t) (s : State) : State :=
  {| settings := settings s; vertices := vertices s; mainVertices := v; currentPoint :=
  currentPoint s; center := center s; radius := radius s; imageMatrix := imageMatrix s;
  allowedMoves := allowedMoves s; pixelData := pixelData s; maxValue := maxValue s; prevIndex :=
  prevIndex s; bgColor := bgColor s; fgColor := fgColor s; cosAngles := cosAngles s; sinAngles :=
  sinAngles s; iterations := iterations s; stabilityCounter := stabilityCounter s;
  newPixelsSinceLastCheck := newPixelsSinceLastCheck s; newPixelsEma := newPixelsEma s;
  filledPixels := filledPixels s; isRunning := isRunning s |}.
Definition set_currentPoint (v : Point.t) (s : State) : State :=
  {| settings := settings s; vertices := vertices s; mainVertices := mainVertices s; currentPoint
  := v; center := center s; radius := radius s; imageMatrix := imageMatrix s; allowedMoves :=
  allowedMoves s; pixelData := pixelData s; maxValue := maxValue s; prevIndex := prevIndex s;
  bgColor := bgColor s; fgColor := fgColor s; cosAngles := cosAngles s; sinAngles := sinAngles s;
  iterations := iterations s; stabilityCounter := stabilityCounter s; newPixelsSinceLastCheck :=
  newPixelsSinceLastCheck s; newPixelsEma := newPixelsEma s; filledPixels := filledPixels s;
  isRunning := isRunning s |}.
Definition set_center (v : Point.t) (s : State) : State :=
  {| settings := settings s; vertices := vertices s; mainVertices := mainVertices s; currentPoint
  := currentPoint s; center := v; radius := radius s; imageMatrix := imageMatrix s; allowedMoves
  := allowedMoves s; pixelData := pixelData s; maxValue := maxValue s; prevIndex := prevIndex s;
  bgColor := bgColor s; fgColor := fgColor s; cosAngles := cosAngles s; sinAngles := sinAngles s;
  iterations := iterations s; stabilityCounter := stabilityCounter s; newPixelsSinceLastCheck :=
  newPixelsSinceLastCheck s; newPixelsEma := newPixelsEma s; filledPixels := filledPixels s;
  isRunning := isRunning s |}.
Definition set_radius (v : R) (s : State) : State :=
  {| settings := settings s; vertices := vertices s; mainVertices := mainVertices s; currentPoint
  := currentPoint s; center := center s; radius := v; imageMatrix := imageMatrix s; allowedMoves
  := allowedMoves s; pixelData := pixelData s; maxValue := maxValue s; prevIndex := prevIndex s;
  bgColor := bgColor s; fgColor := fgColor s; cosAngles := cosAngles s; sinAngles := sinAngles s;
  iterations := iterations s; stabilityCounter := stabilityCounter s; newPixelsSinceLastCheck :=
  newPixelsSinceLastCheck s; newPixelsEma := newPixelsEma s; filledPixels := filledPixels s;
  isRunning := isRunning s |}.
Definition set_imageMatrix (v : list Z) (s : State) : State :=
  {| settings := settings s; vertices := vertices s; mainVertices := mainVertices s; currentPoint
  := currentPoint s; center := center s; radius := radius s; imageMatrix := v; allowedMoves :=
  allowedMoves s; pixelData := pixelData s; maxValue := maxValue s; prevIndex := prevIndex s;
  bgColor := bgColor s; fgColor := fgColor s; cosAngles := cosAngles s; sinAngles := sinAngles s;
  iterations := iterations s; stabilityCounter := stabilityCounter s; newPixelsSinceLastCheck :=
  newPixelsSinceLastCheck s; newPixelsEma := newPixelsEma s; filledPixels := filledPixels s;
  isRunning := isRunning s |}.
Definition set_allowedMoves (v : list (list nat)) (s : State) : State :=
  {| settings := settings s; vertices := vertices s; mainVertices := mainVertices s; currentPoint
  := currentPoint s; center := center s; radius := radius s; imageMatrix := imageMatrix s;
  allowedMoves := v; pixelData := pixelData s; maxValue := maxValue s; prevIndex := prevIndex s;
  bgColor := bgColor s; fgColor := fgColor s; cosAngles := cosAngles s; sinAngles := sinAngles s;
  iterations := iterations s; stabilityCounter := stabilityCounter s; newPixelsSinceLastCheck :=
  newPixelsSinceLastCheck s; newPixelsEma := newPixelsEma s; filledPixels := filledPixels s;
  isRunning := isRunning s |}.
Definition set_pixelData (v : list Z) (s : State) : State :=
  {| settings := settings s; vertices := vertices s; mainVertices := mainVertices s; currentPoint
  := currentPoint s; center := center s; radius := radius s; imageMatrix := imageMatrix s;
  allowedMoves := allowedMoves s; pixelData := v; maxValue := maxValue s; prevIndex := prevIndex
  s; bgColor := bgColor s; fgColor := fgColor s; cosAngles := cosAngles s; sinAngles := sinAngles
  s; iterations := iterations s; stabilityCounter := stabilityCounter s; newPixelsSinceLastCheck
  := newPixelsSinceLastCheck s; newPixelsEma := newPixelsEma s; filledPixels := filledPixels s;
  isRunning := isRunning s |}.
Definition set_maxValue (v : Z) (s : State) : State :=
  {| settings := settings s; vertices := vertices s; mainVertices := mainVertices s; currentPoint
  := currentPoint s; center := center s; radius := radius s; imageMatrix := imageMatrix s;
  allowedMoves := allowedMoves s; pixelData := pixelData s; maxValue := v; prevIndex := prevIndex
  s; bgColor := bgColor s; fgColor := fgColor s; cosAngles := cosAngles s; sinAngles := sinAngles
  s; iterations := iterations s; stabilityCounter := stabilityCounter s; newPixelsSinceLastCheck
  := newPixelsSinceLastCheck s; newPixelsEma := newPixelsEma s; filledPixels := filledPixels s;
  isRunning := isRunning s |}.
Definition set_prevIndex (v : list (option nat)) (s : State) : State :=
  {| settings := settings s; vertices := vertices s; mainVertices := mainVertices s; currentPoint
  := currentPoint s; center := center s; radius := radius s; imageMatrix := imageMatrix s;
  allowedMoves := allowedMoves s; pixelData := pixelData s; maxValue := maxValue s; prevIndex :=
  v; bgColor := bgColor s; fgColor := fgColor s; cosAngles := cosAngles s; sinAngles := sinAngles
  s; iterations := iterations s; stabilityCounter := stabilityCounter s; newPixelsSinceLastCheck
  := newPixelsSinceLastCheck s; newPixelsEma := newPixelsEma s; filledPixels := filledPixels s;
  isRunning := isRunning s |}.
Definition set_bgColor (v : RGB.t) (s : State) : State :=
  {| settings := settings s; vertices := vertices s; mainVertices := mainVertices s; currentPoint
  := currentPoint s; center := center s; radius := radius s; imageMatrix := imageMatrix s;
  allowedMoves := allowedMoves s; pixelData := pixelData s; maxValue := maxValue s; prevIndex :=
  prevIndex s; bgColor := v; fgColor := fgColor s; cosAngles := cosAngles s; sinAngles :=
  sinAngles s; iterations := iterations s; stabilityCounter := stabilityCounter s;
  newPixelsSinceLastCheck := newPixelsSinceLastCheck s; newPixelsEma := newPixelsEma s;
  filledPixels := filledPixels s; isRunning := isRunning s |}.
Definition set_fgColor (v : RGB.t) (s : State) : State :=
  {| settings := settings s; vertices := vertices s; mainVertices := mainVertices s; currentPoint
  := currentPoint s; center := center s; radius := radius s; imageMatrix := imageMatrix s;
  allowedMoves := allowedMoves s; pixelData := pixelData s; maxValue := maxValue s; prevIndex :=
  prevIndex s; bgColor := bgColor s; fgColor := v; cosAngles := cosAngles s; sinAngles :=
  sinAngles s; iterations := iterations s; stabilityCounter := stabilityCounter s;
  newPixelsSinceLastCheck := newPixelsSinceLastCheck s; newPixelsEma := newPixelsEma s;
  filledPixels := filledPixels s; isRunning := isRunning s |}.
Definition set_cosAngles (v : list R) (s : State) : State :=
  {| settings := settings s; vertices := vertices s; mainVertices := mainVertices s; currentPoint
  := currentPoint s; center := center s; radius := radius s; imageMatrix := imageMatrix s;
  allowedMoves := allowedMoves s; pixelData := pixelData s; maxValue := maxValue s; prevIndex :=
  prevIndex s; bgColor := bgColor s; fgColor := fgColor s; cosAngles := v; sinAngles := sinAngles
  s; iterations := iterations s; stabilityCounter := stabilityCounter s; newPixelsSinceLastCheck
  := newPixelsSinceLastCheck s; newPixelsEma := newPixelsEma s; filledPixels := filledPixels s;
  isRunning := isRunning s |}.
Definition set_sinAngles (v : list R) (s : State) : State :=
  {| settings := settings s; vertices := vertices s; mainVertices := mainVertices s; currentPoint
  := currentPoint s; center := center s; radius := radius s; imageMatrix := imageMatrix s;
  allowedMoves := allowedMoves s; pixelData := pixelData s; maxValue := maxValue s; prevIndex :=
  prevIndex s; bgColor := bgColor s; fgColor := fgColor s; cosAngles := cosAngles s; sinAngles :=
  v; iterations := iterations s; stabilityCounter := stabilityCounter s; newPixelsSinceLastCheck
  := newPixelsSinceLastCheck s; newPixelsEma := newPixelsEma s; filledPixels := filledPixels s;
  isRunning := isRunning s |}.
Definition set_iterations (v : Z) (s : State) : State :=
  {| settings := settings s; vertices := vertices s; mainVertices := mainVertices s; currentPoint
  := currentPoint s; center := center s; radius := radius s; imageMatrix := imageMatrix s;
  allowedMoves := allowedMoves s; pixelData := pixelData s; maxValue := maxValue s; prevIndex :=
  prevIndex s; bgColor := bgColor s; fgColor := fgColor s; cosAngles := cosAngles s; sinAngles :=
  sinAngles s; iterations := v; stabilityCounter := stabilityCounter s; newPixelsSinceLastCheck :=
  newPixelsSinceLastCheck s; newPixelsEma := newPixelsEma s; filledPixels := filledPixels s;
  isRunning := isRunning s |}.
Definition set_stabilityCounter (v : Z) (s : State) : State :=
  {| settings := settings s; vertices := vertices s; mainVertices := mainVertices s; currentPoint
  := currentPoint s; center := center s; radius := radius s; imageMatrix := imageMatrix s;
  allowedMoves := allowedMoves s; pixelData := pixelData s; maxValue := maxValue s; prevIndex :=
  prevIndex s; bgColor := bgColor s; fgColor := fgColor s; cosAngles := cosAngles s; sinAngles :=
  sinAngles s; iterations := iterations s; stabilityCounter := v; newPixelsSinceLastCheck :=
  newPixelsSinceLastCheck s; newPixelsEma := newPixelsEma s; filledPixels := filledPixels s;
  isRunning := isRunning s |}.
Definition set_newPixelsSinceLastCheck (v : Z) (s : State) : State :=
  {| settings := settings s; vertices := vertices s; mainVertices := mainVertices s; currentPoint
  := currentPoint s; center := center s; radius := radius s; imageMatrix := imageMatrix s;
  allowedMoves := allowedMoves s; pixelData := pixelData s; maxValue := maxValue s; prevIndex :=
  prevIndex s; bgColor := bgColor s; fgColor := fgColor s; cosAngles := cosAngles s; sinAngles :=
  sinAngles s; iterations := iterations s; stabilityCounter := stabilityCounter s;
  newPixelsSinceLastCheck := v; newPixelsEma := newPixelsEma s; filledPixels := filledPixels s;
  isRunning := isRunning s |}.
Definition set_newPixelsEma (v : R) (s : State) : State :=
  {| settings := settings s; vertices := vertices s; mainVertices := mainVertices s; currentPoint
  := currentPoint s; center := center s; radius := radius s; imageMatrix := imageMatrix s;
  allowedMoves := allowedMoves s; pixelData := pixelData s; maxValue := maxValue s; prevIndex :=
  prevIndex s; bgColor := bgColor s; fgColor := fgColor s; cosAngles := cosAngles s; sinAngles :=
  sinAngles s; iterations := iterations s; stabilityCounter := stabilityCounter s;
  newPixelsSinceLastCheck := newPixelsSinceLastCheck s; newPixelsEma := v; filledPixels :=
  filledPixels s; isRunning := isRunning s |}.
Definition set_filledPixels (v : Z) (s : State) : State :=
  {| settings := settings s; vertices := vertices s; mainVertices := mainVertices s; currentPoint
  := currentPoint s; center := center s; radius := radius s; imageMatrix := imageMatrix s;
  allowedMoves := allowedMoves s; pixelData := pixelData s; maxValue := maxValue s; prevIndex :=
  prevIndex s; bgColor := bgColor s; fgColor := fgColor s; cosAngles := cosAngles s; sinAngles :=
  sinAngles s; iterations := iterations s; stabilityCounter := stabilityCounter s;
  newPixelsSinceLastCheck := newPixelsSinceLastCheck s; newPixelsEma := newPixelsEma s;
  filledPixels := v; isRunning := isRunning s |}.
Definition set_isRunning (v : bool) (s : State) : State :=
  {| settings := settings s; vertices := vertices s; mainVertices := mainVertices s; currentPoint
  := currentPoint s; center := center s; radius := radius s; imageMatrix := imageMatrix s;
  allowedMoves := allowedMoves s; pixelData := pixelData s; maxValue := maxValue s; prevIndex :=
  prevIndex s; bgColor := bgColor s; fgColor := fgColor s; cosAngles := cosAngles s; sinAngles :=
  sinAngles s; iterations := iterations s; stabilityCounter := stabilityCounter s;
  newPixelsSinceLastCheck := newPixelsSinceLastCheck s; newPixelsEma := newPixelsEma s;
  filledPixels := filledPixels s; isRunning := v |}.

(** ** Worker globals and effects *)

Record Canvas : Type := { width : Z; height : Z }.

(** Everything the worker's functions can read or change: the [state]
    object, the module variables [offscreenCanvas] and [ctx] (is a 2d
    context held?), and the ambient random source. *)
Record World : Type := {
  state : State;
  offscreenCanvas : option Canvas;
  ctx : bool;
  random : rng
}.

Definition set_state (v : State) (w : World) : World :=
  {| state := v; offscreenCanvas := offscreenCanvas w; ctx := ctx w; random := random w |}.
Definition set_offscreenCanvas (v : option Canvas) (w : World) : World :=
  {| state := state w; offscreenCanvas := v; ctx := ctx w; random := random w |}.
Definition set_ctx (v : bool) (w : World) : World :=
  {| state := state w; offscreenCanvas := offscreenCanvas w; ctx := v; random := random w |}.
Definition set_random (v : rng) (w : World) : World :=
  {| state := state w; offscreenCanvas := offscreenCanvas w; ctx := ctx w; random := v |}.

(** How a call ends: normally with a value, or by a thrown [TypeError]. *)
Inductive outcome (A : Type) : Type :=
| Normal (a : A)
| TypeError.
Arguments Normal {A} a.
Arguments TypeError {A}.

Definition JS (A : Type) : Type := World -> outcome A * World.

Definition ret {A : Type} (a : A) : JS A := fun w => (Normal a, w).
Definition throw {A : Type} : JS A := fun w => (TypeError, w).
Definition bind {A B : Type} (m : JS A) (k : A -> JS B) : JS B :=
  fun w =>
    match m w with
    | (Normal a, w') => k a w'
    | (TypeError, w') => (TypeError, w')
    end.

Declare Scope js_scope.
Delimit Scope js_scope with js.
Notation "x <- m ;; k" := (bind m (fun x => k))
  (at level 100, m at next level, k at level 200, right associativity) : js_scope.
Notation "m ;; k" := (bind m (fun _ => k))
  (at level 100, k at level 200, right associativity) : js_scope.
Local Open Scope js_scope.

Definition getState : JS State := fun w => (Normal (state w), w).
Definition modify (f : State -> State) : JS unit :=
  fun w => (Normal tt, set_state (f (state w)) w).
Definition Math_random : JS unit01 :=
  fun w => (Normal (random w O), set_random (rng_tail (random w)) w).
(** Reading a property of [undefined] throws. *)
Definition defined {A : Type} (o : option A) : JS A :=
  match o with
  | Some a => ret a
  | None => throw
  end.

(** [for (let i = 0; i < n; i++) body(i)], counting from [start]. *)
Fixpoint forRange (start : nat) (n : nat) (body : nat -> JS unit) : JS unit :=
  match n with
  | O => ret tt
  | S n' => body start ;; forRange (S start) n' body
  end.

(** The remainder operator on integers: [NaN] ([None]) for a zero divisor,
    otherwise the sign follows the dividend. *)
Definition jsrem (a b : Z) : option Z :=
  if b =? 0 then None else Some (Z.rem a b).

(** [arr[i]] for a computed index: [undefined] for [NaN], a negative index
    or one past the end. *)
Definition at_index {A : Type} (l : list A) (i : option Z) : option A :=
  match i with
  | Some z => if z <? 0 then None else l !! Z.to_nat z
  | None => None
  end.

(** [arr.at(-k)] for [k >= 1]. *)
Definition at_back {A : Type} (l : list A) (k : nat) : option A :=
  if (length l <? k)%nat then None else l !! (length l - k)%nat.

(** [list.includes(s)] on string literals. *)
Definition includes (l : list string) (s : string) : bool :=
  existsb (String.eqb s) l.

(** ** Core logic *)

Definition pack32 (hi : Z) (c : RGB.t) : Z :=
  bor (bor (bor hi (shl (RGB.b c) 16)) (shl (RGB.g c) 8)) (jsToInt32 (RGB.r c)).

(** [(0xFF << 24) | (b << 16) | (g << 8) | r]. *)
Definition bg32 (c : RGB.t) : Z := pack32 (shl (Num 255) 24) c.

Definition lerp (a b : jsval) (t : R) : jsval :=
  match a, b with
  | Num a, Num b => Num (Math_round (IZR a + t * (IZR b - IZR a)))
  | _, _ => NaN
  end.

Definition calculatePixelValue (s : State) (val : R) : Z :=
  if negb (Settings.solidBg (settings s)) then
    let alpha := lerp (Num 0) (Num 255) val in
    pack32 (shl alpha 24) (fgColor s)
  else
    let r := lerp (RGB.r (bgColor s)) (RGB.r (fgColor s)) val in
    let g := lerp (RGB.g (bgColor s)) (RGB.g (fgColor s)) val in
    let b := lerp (RGB.b (bgColor s)) (RGB.b (fgColor s)) val in
    pack32 (shl (Num 255) 24) {| RGB.r := r; RGB.g := g; RGB.b := b |}.

(** [x ** y] for a base that is not negative (the base here is a quotient
    of logarithms of numbers from 1 up).  [0 ** y] for a negative [y] is
    [Infinity] in JavaScript, which the reals do not have: it is 1 here, as
    for [y = 0]. *)
Definition pow (x y : R) : R :=
  if Req_dec_T x 0 then (if Rlt_dec 0 y then 0%R else 1%R) else Rpower x y.

Definition normalizeValue (s : State) (rawValue : Z) (logMax : R) : R :=
  if Rle_dec logMax 0 then 0%R
  else
    let logValue := (ln (1 + IZR rawValue) / logMax)%R in
    pow logValue (Settings.gammaExponent (settings s)).

Definition updateColors (s : State) : State :=
  let s := set_fgColor (colorToRGB (Settings.fgColor (settings s))) s in
  set_bgColor (colorToRGB (Settings.bgColor (settings s))) s.

(** The legal next vertices from vertex [i] among [n] vertices. *)
Definition allowedFrom (st : Settings.t) (n i : nat) : list nat :=
  let sides := if Settings.midpointVertex st then Settings.sides st * 2 else Settings.sides st in
  if includes ["no-repeat"; "no-double-repeat"; "no-return"] (Settings.restriction st) then
    List.filter (fun j => negb (j =? i)%nat) (seq 0 n)
  else if includes ["no-neighbor"; "no-neighbor-after-repeat"] (Settings.restriction st) then
    let left := jsrem (Z.of_nat i - 1 + sides) sides in
    let right := jsrem (Z.of_nat i + 1) sides in
    (* The center vertex (i >= sides) has no neighbors, so all moves are allowed. *)
    List.filter
      (fun j => (sides <=? Z.of_nat i)
                || (negb (bool_decide (Some (Z.of_nat j) = left))
                    && negb (bool_decide (Some (Z.of_nat j) = right))))
      (seq 0 n)
  else seq 0 n.

Definition buildRestrictions (s : State) : State :=
  let n := length (vertices s) in
  set_allowedMoves (map (allowedFrom (settings s) n) (seq 0 n)) s.

Definition DEFAULT_BURN_IN_COUNT : nat := 300.
Definition STABILITY_WINDOW : Z := 10.
Definition EMA_ALPHA : R := (2 / 10)%R.

Definition getRandomPointInShape : JS Point.t :=
  s <- getState ;;
  let numberOfSides := length (mainVertices s) in
  u <- Math_random ;;
  let triangleIndex := randomBelow u numberOfSides in
  let v1 := center s in
  let v2 := mainVertices s !! triangleIndex in
  let v3 := at_index (mainVertices s)
              (jsrem (Z.of_nat triangleIndex + 1) (Z.of_nat numberOfSides)) in
  u1 <- Math_random ;;
  u2 <- Math_random ;;
  let r1 := uval u1 in
  let r2 := uval u2 in
  v2 <- defined v2 ;;
  v3 <- defined v3 ;;
  ret {| Point.x := ((1 - sqrt r1) * Point.x v1 + sqrt r1 * (1 - r2) * Point.x v2
                     + sqrt r1 * r2 * Point.x v3)%R;
         Point.y := ((1 - sqrt r1) * Point.y v1 + sqrt r1 * (1 - r2) * Point.y v2
                     + sqrt r1 * r2 * Point.y v3)%R |}.

(** The condition under which the next vertex is drawn among all vertices:
    the first disjunction of [updateCurrentPoint]. *)
Definition movesFreely (s : State) : bool :=
  let st := settings s in
  let prevIndex := prevIndex s in
  (length prevIndex =? 0)%nat
  || (String.eqb (Settings.restriction st) "no-return" && (length prevIndex <? 2)%nat)
  || (includes ["no-neighbor-after-repeat"; "no-double-repeat"] (Settings.restriction st)
      && ((length prevIndex <? 2)%nat
          || negb (bool_decide (at_back prevIndex 1 = at_back prevIndex 2)))).

(** The position in the history the table is consulted at: [-2] or [-1]. *)
Definition lookback (s : State) : nat :=
  if String.eqb (Settings.restriction (settings s)) "no-return" then 2%nat else 1%nat.

(** The index the walk moves to next ([undefined] is [None]), by the rule
    in force and the move history. *)
Definition chooseIndex (s : State) : JS (option nat) :=
  if movesFreely s then
    u <- Math_random ;;
    ret (Some (randomBelow u (length (vertices s))))
  else
    let allowed := mjoin (at_back (prevIndex s) (lookback s))
                     ≫= (fun k => allowedMoves s !! k) in
    u <- Math_random ;;
    allowed <- defined allowed ;;
    ret (allowed !! randomBelow u (length allowed)).

Definition updateCurrentPoint : JS unit :=
  s <- getState ;;
  currentIndex <- chooseIndex s ;;
  modify (fun s => set_prevIndex (prevIndex s ++ [currentIndex]) s) ;;
  modify (fun s => if (10 <? length (prevIndex s))%nat
                   then set_prevIndex (tail (prevIndex s)) s else s) ;;
  randomVertex <- defined (currentIndex ≫= (fun k => vertices s !! k)) ;;
  modify (fun s =>
    let jump := Settings.jumpDistance (settings s) in
    let p := currentPoint s in
    set_currentPoint
      {| Point.x := (Point.x p + (Point.x randomVertex - Point.x p) * jump)%R;
         Point.y := (Point.y p + (Point.y randomVertex - Point.y p) * jump)%R |} s).

Definition burnIn : JS unit :=
  forRange 0 DEFAULT_BURN_IN_COUNT (fun _ => updateCurrentPoint).

(** The first loop of [preDraw]: main vertices and rotation tables. *)
Fixpoint polygonLoop (st : Settings.t) (radius : R) (center : Point.t)
    (n : nat) (i : Z) (angle : R) (s : State) : State :=
  match n with
  | O => s
  | S n' =>
      let s := set_vertices
                 (vertices s ++ [{| Point.x := (cos angle * radius + Point.x center)%R;
                                    Point.y := (sin angle * radius + Point.y center)%R |}]) s in
      let rotationAngle := (2 * PI / IZR (Settings.sides st) * IZR i)%R in
      let s := set_cosAngles (cosAngles s ++ [cos rotationAngle]) s in
      let s := set_sinAngles (sinAngles s ++ [sin rotationAngle]) s in
      polygonLoop st radius center n' (i + 1) (angle + 2 * PI / IZR (Settings.sides st))%R s
  end.

Fixpoint midpointLoop (st : Settings.t) (vs : list Point.t) (n i : nat)
    (midpoints : list Point.t) : JS (list Point.t) :=
  match n with
  | O => ret midpoints
  | S n' =>
      let i2 := jsrem (Z.of_nat i + 1) (Settings.sides st) in
      vi <- defined (vs !! i) ;;
      vi2 <- defined (at_index vs i2) ;;
      midpointLoop st vs n' (S i)
        (midpoints ++ [{| Point.x := ((Point.x vi + Point.x vi2) / 2)%R;
                          Point.y := ((Point.y vi + Point.y vi2) / 2)%R |}])
  end.

(** [arr.splice(pos, 0, a)]. *)
Definition splice_insert {A : Type} (l : list A) (pos : nat) (a : A) : list A :=
  take pos l ++ a :: drop pos l.

Fixpoint spliceLoop (midpoints : list Point.t) (i : nat) (vs : list Point.t) : list Point.t :=
  match midpoints with
  | [] => vs
  | m :: ms => spliceLoop ms (S i) (splice_insert vs (2 * i + 1) m)
  end.

(** [preDraw] up to and including [buildRestrictions]: the vertex set, the
    rotation tables and the restriction table. *)
Definition preDrawGeometry : JS unit :=
  s0 <- getState ;;
  let st := settings s0 in
  let radius := radius s0 in
  let center := center s0 in
  modify (fun s => set_sinAngles [] (set_cosAngles [] (set_vertices [] s))) ;;
  modify (polygonLoop st radius center (Z.to_nat (Settings.sides st)) 0 (- PI / 2)%R) ;;
  modify (fun s => set_mainVertices (vertices s) s) ;;
  (if Settings.midpointVertex st then
     s <- getState ;;
     midpoints <- midpointLoop st (vertices s) (length (vertices s)) 0 [] ;;
     modify (fun s => set_vertices (spliceLoop midpoints 0 (vertices s)) s)
   else ret tt) ;;
  (if Settings.centerVertex st
   then modify (fun s => set_vertices (vertices s ++ [center]) s)
   else ret tt) ;;
  modify buildRestrictions.

Definition preDraw : JS unit :=
  preDrawGeometry ;;
  p <- getRandomPointInShape ;;
  modify (set_currentPoint p) ;;
  burnIn.

(** ** Density accumulation *)

(** The value a [Float32Array] cell holds after storing the integer [v]
    (round to nearest, ties to even, 24-bit significand). *)
Definition fround (v : Z) : Z :=
  let a := Z.abs v in
  if a <? 2 ^ 24 then v
  else
    let ulp := 2 ^ (Z.log2 a - 23) in
    let q := a / ulp in
    let rm := a mod ulp in
    let q' := if 2 * rm <? ulp then q
              else if 2 * rm =? ulp then (if Z.even q then q else q + 1)
              else q + 1 in
    Z.sgn v * (q' * ulp).

Definition rotatePoint (center : Point.t) (x y cos sin : R) : Point.t :=
  {| Point.x := ((x - Point.x center) * cos - (y - Point.y center) * sin + Point.x center)%R;
     Point.y := ((x - Point.x center) * sin + (y - Point.y center) * cos + Point.y center)%R |}.

(** The points one step plots.  A rotation-table entry that is missing
    ([undefined]) makes both coordinates [NaN]: such a point is [None]. *)
Definition plottedPoints (s : State) : list (option Point.t) :=
  let p := currentPoint s in
  let c := center s in
  if Settings.symmetrical (settings s) then
    flat_map
      (fun i =>
         match cosAngles s !! i, sinAngles s !! i with
         | Some cs, Some sn =>
             [Some (rotatePoint c (Point.x p) (Point.y p) cs sn);
              Some (rotatePoint c (2 * Point.x c - Point.x p)%R (Point.y p) cs sn)]
         | _, _ => [None; None]
         end)
      (seq 0 (Z.to_nat (Settings.sides (settings s))))
  else [Some p].

Definition roundPoint (p : option Point.t) : option (Z * Z) :=
  match p with
  | Some p => Some (Math_round (Point.x p), Math_round (Point.y p))
  | None => None
  end.

(** The body of the plotting loop, from the rounded coordinates on.  A
    read past either end of the typed array gives [undefined], which is not
    [=== 0]; incrementing it gives [NaN], whose store is dropped and which
    is not greater than [maxValue]. *)
Definition plotPixel (p : option (Z * Z)) (s : State) : State :=
  match p with
  | None => s
  | Some (x, y) =>
      let index := y * Settings.canvasSize (settings s) + x in
      match at_index (imageMatrix s) (Some index) with
      | None => s
      | Some old =>
          let s := if old =? 0
                   then set_newPixelsSinceLastCheck (newPixelsSinceLastCheck s + 1) s
                   else s in
          let val := old + 1 in
          let s := set_imageMatrix (<[Z.to_nat index := fround val]> (imageMatrix s)) s in
          if maxValue s <? val then set_maxValue val s else s
      end
  end.

Definition plotAll (points : list (option (Z * Z))) (s : State) : State :=
  fold_left (fun s p => plotPixel p s) points s.

Definition updateMatrix : JS unit :=
  updateCurrentPoint ;;
  modify (fun s => plotAll (map roundPoint (plottedPoints s)) s).

(** ** Colour normalisation and erasing *)

Definition updatePixelDataFromMatrix (s : State) : State :=
  let logMax := ln (1 + IZR (maxValue s)) in
  set_pixelData
    (fold_left
       (fun pixelData i =>
          match imageMatrix s !! i with
          | Some v =>
              if 0 <? v
              then <[i := ToUint32 (calculatePixelValue s (normalizeValue s v logMax))]> pixelData
              else pixelData
          | None => pixelData
          end)
       (seq 0 (length (imageMatrix s))) (pixelData s))
    s.

(** [arr.fill(v)]. *)
Definition fill {A : Type} (l : list A) (v : A) : list A := replicate (length l) v.

Definition erase : JS unit :=
  fun w =>
    if negb (ctx w) then ret tt w
    else
      modify (fun s =>
        let s := set_imageMatrix (fill (imageMatrix s) 0) s in
        let s := set_maxValue 1 s in
        let s := set_prevIndex [] s in
        let s := set_iterations 0 s in
        let s := set_stabilityCounter 0 s in
        let s := set_newPixelsSinceLastCheck 0 s in
        let s := set_newPixelsEma 0%R s in
        let s := set_filledPixels 0 s in
        if negb (Settings.solidBg (settings s))
        then set_pixelData (fill (pixelData s) 0) s
        else set_pixelData (fill (pixelData s) (ToUint32 (bg32 (bgColor s)))) s) w.

(** [renderCanvas] and the bitmap transfer only read the pixel buffer; they
    are the host's, and what they throw (on a missing canvas, or on buffers
    that are still [null]) is outside the embedding. *)
Definition prepareCanvasForOutput : JS unit := modify updatePixelDataFromMatrix.
Definition renderFrame : JS unit := prepareCanvasForOutput.

(** ** Set-up *)

Definition resizeCanvas (size : Z) : JS unit :=
  fun w =>
    match offscreenCanvas w with
    | None => throw w
    | Some c =>
        if bool_decide (width c = size) then ret tt w
        else ret tt (set_offscreenCanvas (Some {| width := size; height := size |}) w)
    end.

(** Initializes or resets the simulation state based on settings. *)
Definition setup (newSettings : Settings.t) : JS unit :=
  modify (set_settings newSettings) ;;
  modify (fun s =>
    let half := (IZR (Settings.canvasSize (settings s)) / 2)%R in
    set_center {| Point.x := half; Point.y := half |} s) ;;
  modify (fun s =>
    set_radius (IZR (Settings.canvasSize (settings s)) / 2
                - Settings.padding (settings s))%R s) ;;
  s <- getState ;;
  resizeCanvas (Settings.canvasSize (settings s)) ;;
  modify (fun s =>
    let size := Z.to_nat (Settings.canvasSize (settings s) ^ 2) in
    set_pixelData (replicate size 0) (set_imageMatrix (replicate size 0) s)) ;;
  modify updateColors ;;
  preDraw ;;
  erase.

(** ** Stability detection *)

(** [x || 1.0] on a number or [undefined]. *)
Definition orDefault (x : jsnumber) (d : R) : R :=
  match x with
  | RNum r => if Req_dec_T r 0 then d else r
  | RUndefined | RNaN => d
  end.

Definition checkStability (s : State) : bool * State :=
  let s := set_iterations 0 s in
  let s := set_newPixelsEma
             (EMA_ALPHA * IZR (newPixelsSinceLastCheck s)
              + (1 - EMA_ALPHA) * newPixelsEma s)%R s in
  let s := set_filledPixels (filledPixels s + newPixelsSinceLastCheck s) s in
  let s := set_newPixelsSinceLastCheck 0 s in
  if Rlt_dec (newPixelsEma s)
       (orDefault (Settings.stabilityNewPixelsThreshold (settings s)) 1)
  then
    let s := set_stabilityCounter (stabilityCounter s + 1) s in
    if STABILITY_WINDOW <=? stabilityCounter s then (true, s) else (false, s)
  else (false, set_stabilityCounter 0 s).

(** ** Control functions and the message handler *)

Definition play : JS unit :=
  s <- getState ;;
  if isRunning s then ret tt else modify (set_isRunning true).

Definition stop : JS unit :=
  s <- getState ;;
  if negb (isRunning s) then ret tt
  else modify (set_isRunning false) ;; renderFrame.

(** ** The main loop

    [drawLoop] runs batches of steps until the time budget of the frame is
    used up, checking for stability on the way.  The clock is outside the
    embedding: [budget] is the number of times the loop condition
    [performance.now() - startTime < TIME_BUDGET] holds before it fails, and
    [renderDue] says whether [timestamp - state.lastUpdateTime] exceeds
    [DEFAULT_UPDATE_DELAY].  Scheduling the next frame is the host's. *)

Definition DEFAULT_BATCH_SIZE : nat := (10 * 1000)%nat.
Definition DEFAULT_STABILITY_INTERVAL : Z := 1000000.

(** [checkStability()] as a call on the worker's state. *)
Definition callCheckStability : JS bool :=
  fun w => (Normal (fst (checkStability (state w))),
            set_state (snd (checkStability (state w))) w).

(** The [while] loop of [drawLoop]; the result says whether the loop
    returned from [drawLoop] (the run has finished). *)
Fixpoint drawBatches (budget : nat) : JS bool :=
  match budget with
  | O => ret false
  | S budget' =>
      forRange 0 DEFAULT_BATCH_SIZE (fun _ => updateMatrix) ;;
      modify (fun s =>
        let pointsPerBatch :=
          if Settings.symmetrical (settings s) then Settings.sides (settings s) * 2 else 1 in
        set_iterations (iterations s + Z.of_nat DEFAULT_BATCH_SIZE * pointsPerBatch) s) ;;
      s <- getState ;;
      if Settings.autoStop (settings s) && (DEFAULT_STABILITY_INTERVAL <=? iterations s)
      then
        stable <- callCheckStability ;;
        if stable then stop ;; ret true else drawBatches budget'
      else drawBatches budget'
  end.

Definition drawLoop (budget : nat) (renderDue : bool) : JS unit :=
  s <- getState ;;
  if negb (isRunning s) then ret tt
  else
    finished <- drawBatches budget ;;
    if finished then ret tt
    else
      s <- getState ;;
      if renderDue && Settings.liveRendering (settings s) then renderFrame else ret tt.

(** The keys of the settings object that the engine reads. *)
Definition knownKey (key : string) : bool :=
  includes
    ["canvasSize"; "sides"; "padding"; "jumpDistance"; "midpointVertex"; "centerVertex";
     "symmetrical"; "restriction"; "solidBg"; "gammaExponent"; "fgColor"; "bgColor";
     "drawCircle"; "drawPolygon"; "autoStop"; "liveRendering";
     "stabilityNewPixelsThreshold"]
    key.

(** One [updateSetting] message: a key of the settings object with a value of
    the key's type, or some other key, which the engine never reads. *)
Inductive setting : Type :=
| Set_canvasSize (v : Z)
| Set_sides (v : Z)
| Set_padding (v : R)
| Set_jumpDistance (v : R)
| Set_midpointVertex (v : bool)
| Set_centerVertex (v : bool)
| Set_symmetrical (v : bool)
| Set_restriction (v : string)
| Set_solidBg (v : bool)
| Set_gammaExponent (v : R)
| Set_fgColor (v : string)
| Set_bgColor (v : string)
| Set_drawCircle (v : bool)
| Set_drawPolygon (v : bool)
| Set_autoStop (v : bool)
| Set_liveRendering (v : bool)
| Set_stabilityNewPixelsThreshold (v : jsnumber)
| Set_other (key : string) (other : knownKey key = false).

Definition keyOf (kv : setting) : string :=
  match kv with
  | Set_canvasSize _ => "canvasSize"
  | Set_sides _ => "sides"
  | Set_padding _ => "padding"
  | Set_jumpDistance _ => "jumpDistance"
  | Set_midpointVertex _ => "midpointVertex"
  | Set_centerVertex _ => "centerVertex"
  | Set_symmetrical _ => "symmetrical"
  | Set_restriction _ => "restriction"
  | Set_solidBg _ => "solidBg"
  | Set_gammaExponent _ => "gammaExponent"
  | Set_fgColor _ => "fgColor"
  | Set_bgColor _ => "bgColor"
  | Set_drawCircle _ => "drawCircle"
  | Set_drawPolygon _ => "drawPolygon"
  | Set_autoStop _ => "autoStop"
  | Set_liveRendering _ => "liveRendering"
  | Set_stabilityNewPixelsThreshold _ => "stabilityNewPixelsThreshold"
  | Set_other key _ => key
  end.

(** [state.settings[key] = value]. *)
Definition assign (kv : setting) (st : Settings.t) : Settings.t :=
  match kv with
  | Set_canvasSize v =>
      {| Settings.canvasSize := v; Settings.sides := Settings.sides st; Settings.padding :=
      Settings.padding st; Settings.jumpDistance := Settings.jumpDistance st;
      Settings.midpointVertex := Settings.midpointVertex st; Settings.centerVertex :=
      Settings.centerVertex st; Settings.symmetrical := Settings.symmetrical st;
      Settings.restriction := Settings.restriction st; Settings.solidBg := Settings.solidBg st;
      Settings.gammaExponent := Settings.gammaExponent st; Settings.fgColor := Settings.fgColor
      st; Settings.bgColor := Settings.bgColor st; Settings.drawCircle := Settings.drawCircle st;
      Settings.drawPolygon := Settings.drawPolygon st; Settings.autoStop := Settings.autoStop st;
      Settings.liveRendering := Settings.liveRendering st; Settings.stabilityNewPixelsThreshold :=
      Settings.stabilityNewPixelsThreshold st |}
  | Set_sides v =>
      {| Settings.canvasSize := Settings.canvasSize st; Settings.sides := v; Settings.padding :=
      Settings.padding st; Settings.jumpDistance := Settings.jumpDistance st;
      Settings.midpointVertex := Settings.midpointVertex st; Settings.centerVertex :=
      Settings.centerVertex st; Settings.symmetrical := Settings.symmetrical st;
      Settings.restriction := Settings.restriction st; Settings.solidBg := Settings.solidBg st;
      Settings.gammaExponent := Settings.gammaExponent st; Settings.fgColor := Settings.fgColor
      st; Settings.bgColor := Settings.bgColor st; Settings.drawCircle := Settings.drawCircle st;
      Settings.drawPolygon := Settings.drawPolygon st; Settings.autoStop := Settings.autoStop st;
      Settings.liveRendering := Settings.liveRendering st; Settings.stabilityNewPixelsThreshold :=
      Settings.stabilityNewPixelsThreshold st |}
  | Set_padding v =>
      {| Settings.canvasSize := Settings.canvasSize st; Settings.sides := Settings.sides st;
      Settings.padding := v; Settings.jumpDistance := Settings.jumpDistance st;
      Settings.midpointVertex := Settings.midpointVertex st; Settings.centerVertex :=
      Settings.centerVertex st; Settings.symmetrical := Settings.symmetrical st;
      Settings.restriction := Settings.restriction st; Settings.solidBg := Settings.solidBg st;
      Settings.gammaExponent := Settings.gammaExponent st; Settings.fgColor := Settings.fgColor
      st; Settings.bgColor := Settings.bgColor st; Settings.drawCircle := Settings.drawCircle st;
      Settings.drawPolygon := Settings.drawPolygon st; Settings.autoStop := Settings.autoStop st;
      Settings.liveRendering := Settings.liveRendering st; Settings.stabilityNewPixelsThreshold :=
      Settings.stabilityNewPixelsThreshold st |}
  | Set_jumpDistance v =>
      {| Settings.canvasSize := Settings.canvasSize st; Settings.sides := Settings.sides st;
      Settings.padding := Settings.padding st; Settings.jumpDistance := v; Settings.midpointVertex
      := Settings.midpointVertex st; Settings.centerVertex := Settings.centerVertex st;
      Settings.symmetrical := Settings.symmetrical st; Settings.restriction :=
      Settings.restriction st; Settings.solidBg := Settings.solidBg st; Settings.gammaExponent :=
      Settings.gammaExponent st; Settings.fgColor := Settings.fgColor st; Settings.bgColor :=
      Settings.bgColor st; Settings.drawCircle := Settings.drawCircle st; Settings.drawPolygon :=
      Settings.drawPolygon st; Settings.autoStop := Settings.autoStop st; Settings.liveRendering
      := Settings.liveRendering st; Settings.stabilityNewPixelsThreshold :=
      Settings.stabilityNewPixelsThreshold st |}
  | Set_midpointVertex v =>
      {| Settings.canvasSize := Settings.canvasSize st; Settings.sides := Settings.sides st;
      Settings.padding := Settings.padding st; Settings.jumpDistance := Settings.jumpDistance st;
      Settings.midpointVertex := v; Settings.centerVertex := Settings.centerVertex st;
      Settings.symmetrical := Settings.symmetrical st; Settings.restriction :=
      Settings.restriction st; Settings.solidBg := Settings.solidBg st; Settings.gammaExponent :=
      Settings.gammaExponent st; Settings.fgColor := Settings.fgColor st; Settings.bgColor :=
      Settings.bgColor st; Settings.drawCircle := Settings.drawCircle st; Settings.drawPolygon :=
      Settings.drawPolygon st; Settings.autoStop := Settings.autoStop st; Settings.liveRendering
      := Settings.liveRendering st; Settings.stabilityNewPixelsThreshold :=
      Settings.stabilityNewPixelsThreshold st |}
  | Set_centerVertex v =>
      {| Settings.canvasSize := Settings.canvasSize st; Settings.sides := Settings.sides st;
      Settings.padding := Settings.padding st; Settings.jumpDistance := Settings.jumpDistance st;
      Settings.midpointVertex := Settings.midpointVertex st; Settings.centerVertex := v;
      Settings.symmetrical := Settings.symmetrical st; Settings.restriction :=
      Settings.restriction st; Settings.solidBg := Settings.solidBg st; Settings.gammaExponent :=
      Settings.gammaExponent st; Settings.fgColor := Settings.fgColor st; Settings.bgColor :=
      Settings.bgColor st; Settings.drawCircle := Settings.drawCircle st; Settings.drawPolygon :=
      Settings.drawPolygon st; Settings.autoStop := Settings.autoStop st; Settings.liveRendering
      := Settings.liveRendering st; Settings.stabilityNewPixelsThreshold :=
      Settings.stabilityNewPixelsThreshold st |}
  | Set_symmetrical v =>
      {| Settings.canvasSize := Settings.canvasSize st; Settings.sides := Settings.sides st;
      Settings.padding := Settings.padding st; Settings.jumpDistance := Settings.jumpDistance st;
      Settings.midpointVertex := Settings.midpointVertex st; Settings.centerVertex :=
      Settings.centerVertex st; Settings.symmetrical := v; Settings.restriction :=
      Settings.restriction st; Settings.solidBg := Settings.solidBg st; Settings.gammaExponent :=
      Settings.gammaExponent st; Settings.fgColor := Settings.fgColor st; Settings.bgColor :=
      Settings.bgColor st; Settings.drawCircle := Settings.drawCircle st; Settings.drawPolygon :=
      Settings.drawPolygon st; Settings.autoStop := Settings.autoStop st; Settings.liveRendering
      := Settings.liveRendering st; Settings.stabilityNewPixelsThreshold :=
      Settings.stabilityNewPixelsThreshold st |}
  | Set_restriction v =>
      {| Settings.canvasSize := Settings.canvasSize st; Settings.sides := Settings.sides st;
      Settings.padding := Settings.padding st; Settings.jumpDistance := Settings.jumpDistance st;
      Settings.midpointVertex := Settings.midpointVertex st; Settings.centerVertex :=
      Settings.centerVertex st; Settings.symmetrical := Settings.symmetrical st;
      Settings.restriction := v; Settings.solidBg := Settings.solidBg st; Settings.gammaExponent
      := Settings.gammaExponent st; Settings.fgColor := Settings.fgColor st; Settings.bgColor :=
      Settings.bgColor st; Settings.drawCircle := Settings.drawCircle st; Settings.drawPolygon :=
      Settings.drawPolygon st; Settings.autoStop := Settings.autoStop st; Settings.liveRendering
      := Settings.liveRendering st; Settings.stabilityNewPixelsThreshold :=
      Settings.stabilityNewPixelsThreshold st |}
  | Set_solidBg v =>
      {| Settings.canvasSize := Settings.canvasSize st; Settings.sides := Settings.sides st;
      Settings.padding := Settings.padding st; Settings.jumpDistance := Settings.jumpDistance st;
      Settings.midpointVertex := Settings.midpointVertex st; Settings.centerVertex :=
      Settings.centerVertex st; Settings.symmetrical := Settings.symmetrical st;
      Settings.restriction := Settings.restriction st; Settings.solidBg := v;
      Settings.gammaExponent := Settings.gammaExponent st; Settings.fgColor := Settings.fgColor
      st; Settings.bgColor := Settings.bgColor st; Settings.drawCircle := Settings.drawCircle st;
      Settings.drawPolygon := Settings.drawPolygon st; Settings.autoStop := Settings.autoStop st;
      Settings.liveRendering := Settings.liveRendering st; Settings.stabilityNewPixelsThreshold :=
      Settings.stabilityNewPixelsThreshold st |}
  | Set_gammaExponent v =>
      {| Settings.canvasSize := Settings.canvasSize st; Settings.sides := Settings.sides st;
      Settings.padding := Settings.padding st; Settings.jumpDistance := Settings.jumpDistance st;
      Settings.midpointVertex := Settings.midpointVertex st; Settings.centerVertex :=
      Settings.centerVertex st; Settings.symmetrical := Settings.symmetrical st;
      Settings.restriction := Settings.restriction st; Settings.solidBg := Settings.solidBg st;
      Settings.gammaExponent := v; Settings.fgColor := Settings.fgColor st; Settings.bgColor :=
      Settings.bgColor st; Settings.drawCircle := Settings.drawCircle st; Settings.drawPolygon :=
      Settings.drawPolygon st; Settings.autoStop := Settings.autoStop st; Settings.liveRendering
      := Settings.liveRendering st; Settings.stabilityNewPixelsThreshold :=
      Settings.stabilityNewPixelsThreshold st |}
  | Set_fgColor v =>
      {| Settings.canvasSize := Settings.canvasSize st; Settings.sides := Settings.sides st;
      Settings.padding := Settings.padding st; Settings.jumpDistance := Settings.jumpDistance st;
      Settings.midpointVertex := Settings.midpointVertex st; Settings.centerVertex :=
      Settings.centerVertex st; Settings.symmetrical := Settings.symmetrical st;
      Settings.restriction := Settings.restriction st; Settings.solidBg := Settings.solidBg st;
      Settings.gammaExponent := Settings.gammaExponent st; Settings.fgColor := v; Settings.bgColor
      := Settings.bgColor st; Settings.drawCircle := Settings.drawCircle st; Settings.drawPolygon
      := Settings.drawPolygon st; Settings.autoStop := Settings.autoStop st;
      Settings.liveRendering := Settings.liveRendering st; Settings.stabilityNewPixelsThreshold :=
      Settings.stabilityNewPixelsThreshold st |}
  | Set_bgColor v =>
      {| Settings.canvasSize := Settings.canvasSize st; Settings.sides := Settings.sides st;
      Settings.padding := Settings.padding st; Settings.jumpDistance := Settings.jumpDistance st;
      Settings.midpointVertex := Settings.midpointVertex st; Settings.centerVertex :=
      Settings.centerVertex st; Settings.symmetrical := Settings.symmetrical st;
      Settings.restriction := Settings.restriction st; Settings.solidBg := Settings.solidBg st;
      Settings.gammaExponent := Settings.gammaExponent st; Settings.fgColor := Settings.fgColor
      st; Settings.bgColor := v; Settings.drawCircle := Settings.drawCircle st;
      Settings.drawPolygon := Settings.drawPolygon st; Settings.autoStop := Settings.autoStop st;
      Settings.liveRendering := Settings.liveRendering st; Settings.stabilityNewPixelsThreshold :=
      Settings.stabilityNewPixelsThreshold st |}
  | Set_drawCircle v =>
      {| Settings.canvasSize := Settings.canvasSize st; Settings.sides := Settings.sides st;
      Settings.padding := Settings.padding st; Settings.jumpDistance := Settings.jumpDistance st;
      Settings.midpointVertex := Settings.midpointVertex st; Settings.centerVertex :=
      Settings.centerVertex st; Settings.symmetrical := Settings.symmetrical st;
      Settings.restriction := Settings.restriction st; Settings.solidBg := Settings.solidBg st;
      Settings.gammaExponent := Settings.gammaExponent st; Settings.fgColor := Settings.fgColor
      st; Settings.bgColor := Settings.bgColor st; Settings.drawCircle := v; Settings.drawPolygon
      := Settings.drawPolygon st; Settings.autoStop := Settings.autoStop st;
      Settings.liveRendering := Settings.liveRendering st; Settings.stabilityNewPixelsThreshold :=
      Settings.stabilityNewPixelsThreshold st |}
  | Set_drawPolygon v =>
      {| Settings.canvasSize := Settings.canvasSize st; Settings.sides := Settings.sides st;
      Settings.padding := Settings.padding st; Settings.jumpDistance := Settings.jumpDistance st;
      Settings.midpointVertex := Settings.midpointVertex st; Settings.centerVertex :=
      Settings.centerVertex st; Settings.symmetrical := Settings.symmetrical st;
      Settings.restriction := Settings.restriction st; Settings.solidBg := Settings.solidBg st;
      Settings.gammaExponent := Settings.gammaExponent st; Settings.fgColor := Settings.fgColor
      st; Settings.bgColor := Settings.bgColor st; Settings.drawCircle := Settings.drawCircle st;
      Settings.drawPolygon := v; Settings.autoStop := Settings.autoStop st; Settings.liveRendering
      := Settings.liveRendering st; Settings.stabilityNewPixelsThreshold :=
      Settings.stabilityNewPixelsThreshold st |}
  | Set_autoStop v =>
      {| Settings.canvasSize := Settings.canvasSize st; Settings.sides := Settings.sides st;
      Settings.padding := Settings.padding st; Settings.jumpDistance := Settings.jumpDistance st;
      Settings.midpointVertex := Settings.midpointVertex st; Settings.centerVertex :=
      Settings.centerVertex st; Settings.symmetrical := Settings.symmetrical st;
      Settings.restriction := Settings.restriction st; Settings.solidBg := Settings.solidBg st;
      Settings.gammaExponent := Settings.gammaExponent st; Settings.fgColor := Settings.fgColor
      st; Settings.bgColor := Settings.bgColor st; Settings.drawCircle := Settings.drawCircle st;
      Settings.drawPolygon := Settings.drawPolygon st; Settings.autoStop := v;
      Settings.liveRendering := Settings.liveRendering st; Settings.stabilityNewPixelsThreshold :=
      Settings.stabilityNewPixelsThreshold st |}
  | Set_liveRendering v =>
      {| Settings.canvasSize := Settings.canvasSize st; Settings.sides := Settings.sides st;
      Settings.padding := Settings.padding st; Settings.jumpDistance := Settings.jumpDistance st;
      Settings.midpointVertex := Settings.midpointVertex st; Settings.centerVertex :=
      Settings.centerVertex st; Settings.symmetrical := Settings.symmetrical st;
      Settings.restriction := Settings.restriction st; Settings.solidBg := Settings.solidBg st;
      Settings.gammaExponent := Settings.gammaExponent st; Settings.fgColor := Settings.fgColor
      st; Settings.bgColor := Settings.bgColor st; Settings.drawCircle := Settings.drawCircle st;
      Settings.drawPolygon := Settings.drawPolygon st; Settings.autoStop := Settings.autoStop st;
      Settings.liveRendering := v; Settings.stabilityNewPixelsThreshold :=
      Settings.stabilityNewPixelsThreshold st |}
  | Set_stabilityNewPixelsThreshold v =>
      {| Settings.canvasSize := Settings.canvasSize st; Settings.sides := Settings.sides st;
      Settings.padding := Settings.padding st; Settings.jumpDistance := Settings.jumpDistance st;
      Settings.midpointVertex := Settings.midpointVertex st; Settings.centerVertex :=
      Settings.centerVertex st; Settings.symmetrical := Settings.symmetrical st;
      Settings.restriction := Settings.restriction st; Settings.solidBg := Settings.solidBg st;
      Settings.gammaExponent := Settings.gammaExponent st; Settings.fgColor := Settings.fgColor
      st; Settings.bgColor := Settings.bgColor st; Settings.drawCircle := Settings.drawCircle st;
      Settings.drawPolygon := Settings.drawPolygon st; Settings.autoStop := Settings.autoStop st;
      Settings.liveRendering := Settings.liveRendering st; Settings.stabilityNewPixelsThreshold :=
      v |}
  | Set_other _ _ => st
  end.

(** The [updateSetting] case of [self.onmessage]. *)
Definition updateSetting (kv : setting) : JS unit :=
  let key := keyOf kv in
  modify (fun s => set_settings (assign kv (settings s)) s) ;;
  needsRender <-
    (if includes ["bgColor"; "fgColor"; "solidBg"] key then
       modify updateColors ;;
       modify (fun s =>
         if Settings.solidBg (settings s)
         then set_pixelData (fill (pixelData s) (ToUint32 (bg32 (bgColor s)))) s
         else set_pixelData (fill (pixelData s) 0) s) ;;
       ret true
     else if includes ["gammaExponent"; "drawCircle"; "drawPolygon"] key then ret true
     else
       match kv with
       | Set_liveRendering true => ret true
       | _ => ret false
       end) ;;
  s <- getState ;;
  if needsRender && (negb (isRunning s) || Settings.liveRendering (settings s))
  then renderFrame
  else ret tt.

Inductive message : Type :=
| initCanvas (canvas : Canvas) (has2d : bool)
| init (newSettings : Settings.t)
| reset (newSettings : Settings.t)
| playMsg
| stopMsg
| updateSettingMsg (kv : setting)
| getBlob.

Definition onmessage (m : message) : JS unit :=
  match m with
  | initCanvas canvas has2d =>
      fun w => ret tt (set_ctx has2d (set_offscreenCanvas (Some canvas) w))
  | init newSettings => setup newSettings ;; renderFrame
  | reset newSettings => stop ;; setup newSettings ;; renderFrame
  | playMsg => play
  | stopMsg => stop
  | updateSettingMsg kv => updateSetting kv
  | getBlob => prepareCanvasForOutput
  end.

(** The worker before any message: the initial [state] literal, with the
    buffers ([null] in the source) empty and the settings object ([{}] in
    the source) with empty strings and zeros.  It stands for the state a
    first [setup] starts from, which overwrites both before reading them. *)
Definition noSettings : Settings.t :=
  {| Settings.canvasSize := 0; Settings.sides := 0; Settings.padding := 0%R;
     Settings.jumpDistance := 0%R; Settings.midpointVertex := false;
     Settings.centerVertex := false; Settings.symmetrical := false;
     Settings.restriction := ""; Settings.solidBg := false;
     Settings.gammaExponent := 0%R; Settings.fgColor := ""; Settings.bgColor := "";
     Settings.drawCircle := false; Settings.drawPolygon := false;
     Settings.autoStop := false; Settings.liveRendering := false;
     Settings.stabilityNewPixelsThreshold := RUndefined |}.

Definition initialState : State :=
  {| settings := noSettings; vertices := []; mainVertices := [];
     currentPoint := {| Point.x := 0%R; Point.y := 0%R |};
     center := {| Point.x := 0%R; Point.y := 0%R |}; radius := 0%R;
     imageMatrix := []; allowedMoves := []; pixelData := []; maxValue := 1;
     prevIndex := [];
     bgColor := {| RGB.r := Num 0; RGB.g := Num 0; RGB.b := Num 0 |};
     fgColor := {| RGB.r := Num 255; RGB.g := Num 255; RGB.b := Num 255 |};
     cosAngles := []; sinAngles := []; iterations := 0; stabilityCounter := 0;
     newPixelsSinceLastCheck := 0; newPixelsEma := 0%R; filledPixels := 0;
     isRunning := false |}.

(** * Vocabulary of the statements *)

(** [keeps f m]: whatever way [m] ends, it leaves the observation [f] of
    the world as it was. *)
Definition keeps {A X : Type} (f : World -> X) (m : JS A) : Prop :=
  forall w, f (snd (m w)) = f w.

Definition ringSize (st : Settings.t) : Z :=
  if Settings.midpointVertex st then Settings.sides st * 2 else Settings.sides st.

Definition selfExcluding (rule : string) : Prop :=
  rule = "no-repeat" \/ rule = "no-double-repeat" \/ rule = "no-return".

Definition neighborExcluding (rule : string) : Prop :=
  rule = "no-neighbor" \/ rule = "no-neighbor-after-repeat".

(** The number of vertices [preDraw] builds: the main vertices, doubled by
    the midpoints, plus the centre. *)
Definition vertexCount (st : Settings.t) : nat :=
  (Z.to_nat (Settings.sides st) * (if Settings.midpointVertex st then 2 else 1)
   + (if Settings.centerVertex st then 1 else 0))%nat.

(** The world [setup] has made when it reaches [preDraw]. *)
Definition beforePreDraw (st : Settings.t) (w : World) : World :=
  let half := (IZR (Settings.canvasSize st) / 2)%R in
  let size := Z.to_nat (Settings.canvasSize st ^ 2) in
  let s := set_settings st (state w) in
  let s := set_center {| Point.x := half; Point.y := half |} s in
  let s := set_radius (half - Settings.padding st)%R s in
  let s := set_pixelData (replicate size 0) (set_imageMatrix (replicate size 0) s) in
  let s := updateColors s in
  let w := match offscreenCanvas w with
           | Some c =>
               if bool_decide (width c = Settings.canvasSize st) then w
               else set_offscreenCanvas
                      (Some {| width := Settings.canvasSize st;
                               height := Settings.canvasSize st |}) w
           | None => w
           end in
  set_state s w.

(** The move history after [push] and the conditional [shift]. *)
Definition pushHistory (prev : list (option nat)) (ci : option nat) : list (option nat) :=
  let l := prev ++ [ci] in
  if (10 <? length l)%nat then tail l else l.

(** A state in which the walk can step without reading past an array: at
    least one vertex, one table row per vertex, rows that are non-empty and
    hold vertex indices, and a history of vertex indices. *)
Definition walkReady (s : State) : Prop :=
  (0 < length (vertices s))%nat
  /\ length (allowedMoves s) = length (vertices s)
  /\ (forall i allowed, allowedMoves s !! i = Some allowed ->
        allowed <> [] /\ forall j, In j allowed -> (j < length (vertices s))%nat)
  /\ (forall e, In e (prevIndex s) ->
        exists k, e = Some k /\ (k < length (vertices s))%nat).

(** Every row of the table [preDraw] builds for [st] is non-empty. *)
Definition rowsNonEmpty (st : Settings.t) : Prop :=
  forall i, (i < vertexCount st)%nat -> allowedFrom st (vertexCount st) i <> [].

(** The history left in [s] only names vertices that [st] will have. *)
Definition historyFits (st : Settings.t) (s : State) : Prop :=
  forall e, In e (prevIndex s) -> exists k, e = Some k /\ (k < vertexCount st)%nat.

(** *** Sample inputs *)

Definition zero01 : unit01 := {| uval := 0%R; uval_range := conj (Rle_refl 0%R) Rlt_0_1 |}.

(** A triangle on an 8 by 8 canvas, no restriction. *)
Definition triangleSettings : Settings.t :=
  {| Settings.canvasSize := 8; Settings.sides := 3; Settings.padding := 1%R;
     Settings.jumpDistance := (1 / 2)%R; Settings.midpointVertex := false;
     Settings.centerVertex := false; Settings.symmetrical := false;
     Settings.restriction := "none"; Settings.solidBg := true;
     Settings.gammaExponent := 1%R; Settings.fgColor := "#ffffff";
     Settings.bgColor := "#000000"; Settings.drawCircle := false;
     Settings.drawPolygon := false; Settings.autoStop := true;
     Settings.liveRendering := true;
     Settings.stabilityNewPixelsThreshold := RNum 1%R |}.

(** The worker after [initCanvas], before [init]; every random draw is 0. *)
Definition world0 : World :=
  {| state := initialState;
     offscreenCanvas := Some {| width := 300; height := 150 |};
     ctx := true;
     random := fun _ => zero01 |}.

(** *** Configuration errors as the specification lists them (section 7) *)





(** *** Live settings changes (section 6, [reconfigure]) *)




(** *** Runs *)

(** The vertex indices chosen by the first [m] steps of a run from [w], read
    off the end of the move history after each step; the run ends at a step
    that throws. *)
Fixpoint chosenIndices (m : nat) (w : World) : list (option nat) :=
  match m with
  | O => []
  | S m' =>
      match updateMatrix w with
      | (Normal _, w') =>
          mjoin (at_back (prevIndex (state w')) 1) :: chosenIndices m' w'
      | (TypeError, _) => []
      end
  end.

(** The world after [m] steps. *)
Fixpoint afterSteps (m : nat) (w : World) : World :=
  match m with
  | O => w
  | S m' => afterSteps m' (snd (updateMatrix w))
  end.

(** The triangle under the [no-return] rule. *)
Definition noReturnTriangle : Settings.t :=
  assign (Set_restriction "no-return") triangleSettings.

(** *** Density *)

(** Every hit count is one a [Float32Array] cell reaches by increments from
    0: an integer from 0 to 2^24, where the increments stop taking effect. *)
Definition cellsInRange (s : State) : Prop :=
  Forall (fun c => 0 <= c <= 2 ^ 24) (imageMatrix s).

(** A 4 by 4 canvas with nothing plotted. *)
Definition blank4 : State :=
  set_pixelData (replicate 16 0)
    (set_imageMatrix (replicate 16 0)
       (set_settings (assign (Set_canvasSize 4) triangleSettings) initialState)).

(** Where a point with rounded coordinates [(x, y)] belongs on a canvas of
    side [size]: its cell when it is on the canvas, nowhere when it is
    not (the policy of the bounds check that is commented out in
    [updateMatrix]). *)
Definition cellOf (size x y : Z) : option nat :=
  if (x <? 0) || (size <=? x) || (y <? 0) || (size <=? y) then None
  else Some (Z.to_nat (y * size + x)).

(** A square that touches the border of a 4 by 4 canvas; each step jumps
    onto the chosen vertex. *)
Definition squareSettings : Settings.t :=
  {| Settings.canvasSize := 4; Settings.sides := 4; Settings.padding := 0%R;
     Settings.jumpDistance := 1%R; Settings.midpointVertex := false;
     Settings.centerVertex := false; Settings.symmetrical := false;
     Settings.restriction := "none"; Settings.solidBg := true;
     Settings.gammaExponent := 1%R; Settings.fgColor := "#ffffff";
     Settings.bgColor := "#000000"; Settings.drawCircle := false;
     Settings.drawPolygon := false; Settings.autoStop := true;
     Settings.liveRendering := true;
     Settings.stabilityNewPixelsThreshold := RNum 1%R |}.

(** The worker after [init] with the square. *)
Definition squareWorld : World := snd (setup squareSettings world0).

(** Random draws 0.3 and 0.6. *)
Definition u03 : unit01 :=
  {| uval := (3 / 10)%R; uval_range := ltac:(split; lra) |}.
Definition u06 : unit01 :=
  {| uval := (6 / 10)%R; uval_range := ltac:(split; lra) |}.

(** The [i]-th main vertex [preDraw] places: on the circle, a turn of
    [2 * PI / sides] further for each [i], starting from the top. *)
Definition mainVertex (st : Settings.t) (rad : R) (c : Point.t) (angle : R) (i : nat)
    : Point.t :=
  let a := (angle + INR i * (2 * PI / IZR (Settings.sides st)))%R in
  {| Point.x := (cos a * rad + Point.x c)%R; Point.y := (sin a * rad + Point.y c)%R |}.

(** *** A reset onto fewer vertices *)

Definition hexagonSettings : Settings.t := assign (Set_sides 6) triangleSettings.

(** A random draw of 0.9. *)
Definition u09 : unit01 :=
  {| uval := (9 / 10)%R; uval_range := ltac:(split; lra) |}.

(** The worker after [initCanvas], [init] with the hexagon and [play]. *)
Definition hexagonWorld : World :=
  snd (onmessage playMsg (snd (onmessage (init hexagonSettings) world0))).

(** One step of the run, on a draw of 0.9. *)
Definition hexagonStepped : World :=
  snd (updateMatrix (set_random (fun _ => u09) hexagonWorld)).

(** Then the host asks for a triangle. *)
Definition resetToTriangle : outcome unit * World :=
  onmessage (reset triangleSettings) hexagonStepped.

(** *** Normalisation and stability *)

(** The claim of section 7 on degenerate normalisation: with [maxValue] at
    most 1 the normaliser returns 0 for every hit count. *)
Definition degenerateIsZero : Prop :=
  forall (s : State) (rawValue : Z),
    maxValue s <= 1 ->
    normalizeValue s rawValue (ln (1 + IZR (maxValue s))) = 0%R.

(** A value of [stabilityNewPixelsThreshold] that is falsy in JavaScript. *)
Definition falsy (x : jsnumber) : Prop :=
  x = RUndefined \/ x = RNaN \/ x = RNum 0%R.

(** A state whose configured threshold is 0. *)
Definition zeroThreshold : State :=
  set_settings (assign (Set_stabilityNewPixelsThreshold (RNum 0%R)) triangleSettings)
    initialState.

(** *** Colours and pixels *)

(** A colour whose three channels are numbers from 0 to 255. *)
Definition byteColor (c : RGB.t) : Prop :=
  exists r g b,
    c = {| RGB.r := Num r; RGB.g := Num g; RGB.b := Num b |}
    /\ 0 <= r <= 255 /\ 0 <= g <= 255 /\ 0 <= b <= 255.

(** The text [#] followed by the given characters. *)
Definition hashed (cs : list ascii) : string := String "#" (string_of_list_ascii cs).
(** A colour whose three channels are numbers. *)
Definition numericColor (c : RGB.t) : Prop :=
  exists r g b, c = {| RGB.r := Num r; RGB.g := Num g; RGB.b := Num b |}.

(** The pixel [updatePixelDataFromMatrix] computes for a cell that holds the
    hit count [v]. *)
Definition pixelOf (s : State) (v : Z) : Z :=
  ToUint32 (calculatePixelValue s (normalizeValue s v (ln (1 + IZR (maxValue s))))).

(** The triangle's settings with a transparent background. *)
Definition transparentState : State :=
  set_settings (assign (Set_solidBg false) triangleSettings) initialState.

(** The 4 by 4 canvas with one hit in cell 5. *)
Definition oneHit4 : State := set_imageMatrix (<[5%nat := 1]> (replicate 16 0)) blank4.
(** *** Geometry *)

Definition midpointOf (a b : Point.t) : Point.t :=
  {| Point.x := ((Point.x a + Point.x b) / 2)%R;
     Point.y := ((Point.y a + Point.y b) / 2)%R |}.

(** The two lists merged one by one, starting with the first. *)
Fixpoint interleave (a b : list Point.t) : list Point.t :=
  match a, b with
  | x :: a', y :: b' => x :: y :: interleave a' b'
  | _, _ => a
  end.

(** The [k]-th rotation angle of the symmetric mode. *)
Definition rotationAngle (st : Settings.t) (k : nat) : R :=
  (2 * PI / IZR (Settings.sides st) * INR k)%R.

(** The centre and the radius [setup] computes from the settings. *)
Definition centerOf (st : Settings.t) : Point.t :=
  {| Point.x := (IZR (Settings.canvasSize st) / 2)%R;
     Point.y := (IZR (Settings.canvasSize st) / 2)%R |}.
Definition radiusOf (st : Settings.t) : R :=
  (IZR (Settings.canvasSize st) / 2 - Settings.padding st)%R.

(** The main vertices [preDraw] places for [st]: a regular polygon on the
    circle around the centre, the first vertex at the top. *)
Definition polygonOf (st : Settings.t) : list Point.t :=
  map (mainVertex st (radiusOf st) (centerOf st) (- PI / 2))
    (seq 0 (Z.to_nat (Settings.sides st))).

(** The squared distance of [p] from [c]. *)
Definition dist2 (c p : Point.t) : R :=
  ((Point.x p - Point.x c) * (Point.x p - Point.x c)
   + (Point.y p - Point.y c) * (Point.y p - Point.y c))%R.
(** The midpoints [preDraw] inserts: of each main vertex and the next one
    around the polygon. *)
Definition midpointsOf (st : Settings.t) : list Point.t :=
  let n := Z.to_nat (Settings.sides st) in
  let f := mainVertex st (radiusOf st) (centerOf st) (- PI / 2) in
  map (fun j => midpointOf (f j) (f (S j mod n)%nat)) (seq 0 n).

(** The vertex set [preDraw] builds for [st]: the polygon, with the midpoints
    in between when asked for, then the centre when asked for. *)
Definition verticesOf (st : Settings.t) : list Point.t :=
  (if Settings.midpointVertex st then interleave (polygonOf st) (midpointsOf st)
   else polygonOf st)
  ++ (if Settings.centerVertex st then [centerOf st] else []).

(** The point [getRandomPointInShape] computes from its triangle and the two
    draws [r1] and [r2]. *)
Definition pointInTriangle (v1 v2 v3 : Point.t) (r1 r2 : R) : Point.t :=
  {| Point.x := ((1 - sqrt r1) * Point.x v1 + sqrt r1 * (1 - r2) * Point.x v2
                 + sqrt r1 * r2 * Point.x v3)%R;
     Point.y := ((1 - sqrt r1) * Point.y v1 + sqrt r1 * (1 - r2) * Point.y v2
                 + sqrt r1 * r2 * Point.y v3)%R |}.
(** A world with three main vertices around the centre (1, 1). *)
Definition cornerWorld : World :=
  set_state
    (set_center {| Point.x := 1%R; Point.y := 1%R |}
       (set_mainVertices
          [{| Point.x := 0%R; Point.y := 0%R |}; {| Point.x := 4%R; Point.y := 0%R |};
           {| Point.x := 0%R; Point.y := 4%R |}]
          initialState))
    world0.

(** The triangle's settings with no sides at all. *)
Definition noSides : Settings.t := assign (Set_sides 0) triangleSettings.

(** The worker before [initCanvas]. *)
Definition noCanvasWorld : World := set_ctx false (set_offscreenCanvas None world0).
(** *** The walk stays inside the circle *)




(** *** Counting hits *)


(** The number of cells hit at least once. *)
Definition countNonZero (l : list Z) : Z :=
  Z.of_nat (length (List.filter (fun c => negb (c =? 0)) l)).

(** The two counters of newly and formerly filled pixels together count the
    cells that are not empty. *)
Definition accounted (s : State) : Prop :=
  filledPixels s + newPixelsSinceLastCheck s = countNonZero (imageMatrix s).

(** The number of points one step plots. *)
Definition pointsPerStep (st : Settings.t) : Z :=
  if Settings.symmetrical st then 2 * Settings.sides st else 1.
(** A world with a single vertex, from which every step returns to it. *)
Definition loneVertexWorld : World :=
  set_state
    (set_allowedMoves [[0%nat]]
       (set_vertices [{| Point.x := 0%R; Point.y := 0%R |}] initialState))
    world0.

(** The worker holding a canvas but no 2d context. *)
Definition noContextWorld : World := set_ctx false world0.
(** *** The main loop *)

(** From a world that satisfies [P], [m] returns normally, with a result and
    a world that satisfy [Q]. *)
Definition hoare {A : Type} (P : World -> Prop) (m : JS A) (Q : A -> World -> Prop) : Prop :=
  forall w, P w -> exists a w', m w = (Normal a, w') /\ Q a w'.

(** What a run keeps true between frames, for settings [st]: the walk can
    step, the hit counts are as a run makes them, and the filled pixels are
    accounted for. *)
Definition engineInv (st : Settings.t) (w : World) : Prop :=
  walkReady (state w)
  /\ cellsInRange (state w)
  /\ accounted (state w)
  /\ settings (state w) = st.

(** The plotted points counted since the quiet counter was last zero. *)
Definition quietProgress (s : State) : Z :=
  stabilityCounter s * DEFAULT_STABILITY_INTERVAL + iterations s.

(** What the stability check reads and writes, besides the iteration count. *)
Definition stabilityView (s : State) :=
  (stabilityCounter s, newPixelsEma s, filledPixels s).
(** The lone-vertex world with the engine running. *)
Definition runningWorld : World :=
  set_state (set_isRunning true (state loneVertexWorld)) loneVertexWorld.

(** The engine has been initialised: a [setup] has run with the canvas in
    place, which installs a settings object and allocates the buffers
    before anything in it can throw, and messages, frames of the main loop
    and random draws have followed.  On the worker before that the settings
    object is empty and the buffers are [null], and the handlers that read
    them throw. *)
Inductive initialised : World -> Prop :=
| initialised_setup (st : Settings.t) (w : World) :
    offscreenCanvas w <> None -> initialised (snd (setup st w))
| initialised_message (m : message) (w : World) :
    initialised w -> initialised (snd (onmessage m w))
| initialised_frame (budget : nat) (renderDue : bool) (w : World) :
    initialised w -> initialised (snd (drawLoop budget renderDue w))
| initialised_random (g : rng) (w : World) :
    initialised w -> initialised (set_random g w).

(** The claim of section 6 for [no-return], for every state a run can be
    in: under the rule, from a state the walk can step from, the vertex
    chosen at a step differs from the one chosen two steps before. *)
Definition noReturnInEveryRun : Prop :=
  forall (w : World) (m : nat),
    initialised w ->
    Settings.restriction (settings (state w)) = "no-return" ->
    walkReady (state w) ->
    forall k a b,
      chosenIndices m w !! k = Some (Some a) ->
      chosenIndices m w !! (k + 2)%nat = Some (Some b) -> b <> a.

(** * Properties *)

(** ** Colour parsing on sample inputs *)

Example colorToRGB_hex6 :
  colorToRGB "#ff8000" = {| RGB.r := Num 255; RGB.g := Num 128; RGB.b := Num 0 |}.
Proof. reflexivity. Qed.

Example colorToRGB_hex3 :
  colorToRGB "#abc" = {| RGB.r := Num 170; RGB.g := Num 187; RGB.b := Num 204 |}.
Proof. reflexivity. Qed.

Example colorToRGB_rgb :
  colorToRGB "rgb(12, 34, 56)" = {| RGB.r := Num 12; RGB.g := Num 34; RGB.b := Num 56 |}.
Proof. reflexivity. Qed.

Example colorToRGB_short :
  colorToRGB "rgb(300)" = {| RGB.r := Num 300; RGB.g := Undefined; RGB.b := Undefined |}.
Proof. reflexivity. Qed.

Example colorToRGB_fallback : colorToRGB "banana" = black.
Proof. reflexivity. Qed.

Example colorToRGB_bad_hex : colorToRGB "#zzz" = black.
Proof. reflexivity. Qed.

(** ** Reasoning about effects *)

Lemma keeps_ret {A X : Type} (f : World -> X) (a : A) : keeps f (ret a).
Proof. intros w. reflexivity. Qed.

Lemma keeps_throw {A X : Type} (f : World -> X) : keeps f (@throw A).
Proof. intros w. reflexivity. Qed.

Lemma keeps_defined {A X : Type} (f : World -> X) (o : option A) : keeps f (defined o).
Proof. destruct o; [apply keeps_ret | apply keeps_throw]. Qed.

Lemma keeps_getState {X : Type} (f : World -> X) : keeps f getState.
Proof. intros w. reflexivity. Qed.

Lemma keeps_bind {A B X : Type} (f : World -> X) (m : JS A) (k : A -> JS B) :
  keeps f m -> (forall a, keeps f (k a)) -> keeps f (bind m k).
Proof.
  intros Hm Hk w. unfold bind. specialize (Hm w).
  destruct (m w) as [[a|] w']; simpl in *.
  - rewrite Hk. exact Hm.
  - exact Hm.
Qed.

Lemma keeps_modify {X : Type} (f : State -> X) (g : State -> State) :
  (forall s, f (g s) = f s) -> keeps (fun w => f (state w)) (modify g).
Proof. intros H w. simpl. apply H. Qed.

Lemma keeps_random_state {X : Type} (f : State -> X) :
  keeps (fun w => f (state w)) Math_random.
Proof. intros w. reflexivity. Qed.

Lemma keeps_forRange {X : Type} (f : World -> X) (body : nat -> JS unit) (n start : nat) :
  (forall i, keeps f (body i)) -> keeps f (forRange start n body).
Proof.
  intros Hb. revert start. induction n as [|n IH]; intros start; simpl.
  - apply keeps_ret.
  - apply keeps_bind; [apply Hb | intros _; apply IH].
Qed.

Lemma keeps_if {A X : Type} (f : World -> X) (c : bool) (m1 m2 : JS A) :
  keeps f m1 -> keeps f m2 -> keeps f (if c then m1 else m2).
Proof. destruct c; auto. Qed.

Create HintDb keeps discriminated.
#[local] Hint Resolve keeps_ret keeps_throw keeps_defined keeps_getState
  keeps_random_state keeps_if : keeps.

Ltac keeps_step :=
  cbv zeta;
  first
    [ apply keeps_bind; [| intros ?]
    | apply keeps_if
    | apply keeps_modify; intros ?; try reflexivity
    | apply keeps_forRange; intros ?
    | solve [auto with keeps] ].

Ltac keeps_auto := repeat keeps_step.

(** ** The restriction table (section 4.2) *)

Lemma buildRestrictions_lookup (s : State) (i : nat) :
  (i < length (vertices s))%nat ->
  allowedMoves (buildRestrictions s) !! i
  = Some (allowedFrom (settings s) (length (vertices s)) i).
Proof.
  intros Hi. unfold buildRestrictions. simpl.
  rewrite list_lookup_fmap, lookup_seq_lt by exact Hi. reflexivity.
Qed.

Lemma buildRestrictions_length (s : State) :
  length (allowedMoves (buildRestrictions s)) = length (vertices s).
Proof. unfold buildRestrictions. simpl. rewrite length_map, length_seq. reflexivity. Qed.

Lemma allowedFrom_none (st : Settings.t) (n i : nat) :
  Settings.restriction st = "none" -> allowedFrom st n i = seq 0 n.
Proof. intros H. unfold allowedFrom. rewrite H. reflexivity. Qed.

Lemma allowedFrom_self (st : Settings.t) (n i j : nat) :
  selfExcluding (Settings.restriction st) ->
  In j (allowedFrom st n i) <-> (j < n)%nat /\ j <> i.
Proof.
  intros H. unfold allowedFrom.
  assert (includes ["no-repeat"; "no-double-repeat"; "no-return"]
            (Settings.restriction st) = true) as ->
    by (destruct H as [-> | [-> | ->]]; reflexivity).
  rewrite filter_In, in_seq, negb_true_iff, Nat.eqb_neq. lia.
Qed.

Lemma allowedFrom_neighbor_ring (st : Settings.t) (n i j : nat) :
  neighborExcluding (Settings.restriction st) ->
  Z.of_nat i < ringSize st ->
  In j (allowedFrom st n i) <->
  (j < n)%nat
  /\ Z.of_nat j <> (Z.of_nat i - 1 + ringSize st) mod ringSize st
  /\ Z.of_nat j <> (Z.of_nat i + 1) mod ringSize st.
Proof.
  intros H Hi. unfold allowedFrom. fold (ringSize st).
  assert (includes ["no-repeat"; "no-double-repeat"; "no-return"]
            (Settings.restriction st) = false) as ->
    by (destruct H as [-> | ->]; reflexivity).
  assert (includes ["no-neighbor"; "no-neighbor-after-repeat"]
            (Settings.restriction st) = true) as ->
    by (destruct H as [-> | ->]; reflexivity).
  rewrite filter_In, in_seq.
  assert (0 < ringSize st) as Hpos by lia.
  unfold jsrem. destruct (Z.eqb_spec (ringSize st) 0) as [|_]; [lia|].
  rewrite !Z.rem_mod_nonneg by lia.
  destruct (Z.leb_spec (ringSize st) (Z.of_nat i)) as [|_]; [lia|]. simpl.
  rewrite andb_true_iff, !negb_true_iff, !bool_decide_eq_false.
  split.
  - intros [Hj [Hl Hr]]. repeat split; [lia | congruence | congruence].
  - intros [Hj [Hl Hr]]. repeat split; [lia | lia | congruence | congruence].
Qed.

Lemma allowedFrom_neighbor_center (st : Settings.t) (n i : nat) :
  neighborExcluding (Settings.restriction st) ->
  ringSize st <= Z.of_nat i ->
  allowedFrom st n i = seq 0 n.
Proof.
  intros H Hi. unfold allowedFrom. fold (ringSize st).
  assert (includes ["no-repeat"; "no-double-repeat"; "no-return"]
            (Settings.restriction st) = false) as ->
    by (destruct H as [-> | ->]; reflexivity).
  assert (includes ["no-neighbor"; "no-neighbor-after-repeat"]
            (Settings.restriction st) = true) as ->
    by (destruct H as [-> | ->]; reflexivity).
  destruct (Z.leb_spec (ringSize st) (Z.of_nat i)) as [_|]; [|lia]. simpl.
  induction (seq 0 n) as [|a l IH]; simpl; [reflexivity | now rewrite IH].
Qed.

Lemma filter_nonempty {A : Type} (f : A -> bool) (l : list A) (a : A) :
  In a l -> f a = true -> List.filter f l <> [].
Proof.
  intros Hin Hf Hnil.
  assert (In a (List.filter f l)) as H by (apply filter_In; auto).
  rewrite Hnil in H. exact H.
Qed.

Lemma allowedFrom_nonempty (st : Settings.t) (n i : nat) :
  (3 <= n)%nat -> allowedFrom st n i <> [].
Proof.
  intros Hn. unfold allowedFrom.
  destruct (includes _ _).
  - destruct i as [|i].
    + apply (filter_nonempty _ _ 1%nat); [apply in_seq; lia | reflexivity].
    + apply (filter_nonempty _ _ 0%nat); [apply in_seq; lia | reflexivity].
  - destruct (includes _ _).
    + set (rs := if Settings.midpointVertex st then _ else _).
      set (left := jsrem _ rs). set (right := jsrem _ rs).
      clearbody left right.
      destruct (decide (Some 0 = left \/ Some 0 = right)) as [H0|H0].
      * destruct (decide (Some 1 = left \/ Some 1 = right)) as [H1|H1].
        -- apply (filter_nonempty _ _ 2%nat); [apply in_seq; lia|].
           apply orb_true_iff. right.
           rewrite andb_true_iff, !negb_true_iff, !bool_decide_eq_false.
           change (Z.of_nat 2) with 2.
           split; intros E; destruct H0 as [H0|H0], H1 as [H1|H1]; congruence.
        -- apply (filter_nonempty _ _ 1%nat); [apply in_seq; lia|].
           apply orb_true_iff. right.
           rewrite andb_true_iff, !negb_true_iff, !bool_decide_eq_false.
           simpl. tauto.
      * apply (filter_nonempty _ _ 0%nat); [apply in_seq; lia|].
        apply orb_true_iff. right.
        rewrite andb_true_iff, !negb_true_iff, !bool_decide_eq_false.
        simpl. tauto.
    + intros E. apply (f_equal (@length nat)) in E. rewrite length_seq in E.
      simpl in E. lia.
Qed.

(** *** The geometry [preDraw] builds *)

Lemma polygonLoop_spec (st : Settings.t) (rad : R) (c : Point.t) (n : nat) :
  forall (i : Z) (angle : R) (s : State),
    let s' := polygonLoop st rad c n i angle s in
    length (vertices s') = (length (vertices s) + n)%nat
    /\ length (cosAngles s') = (length (cosAngles s) + n)%nat
    /\ length (sinAngles s') = (length (sinAngles s) + n)%nat
    /\ settings s' = settings s /\ prevIndex s' = prevIndex s
    /\ center s' = center s /\ radius s' = radius s
    /\ imageMatrix s' = imageMatrix s /\ pixelData s' = pixelData s
    /\ maxValue s' = maxValue s /\ bgColor s' = bgColor s /\ fgColor s' = fgColor s.
Proof.
  induction n as [|n IH]; intros i angle s; simpl.
  - repeat split; lia.
  - match goal with |- context [polygonLoop st rad c n ?i' ?a' ?s'] =>
      destruct (IH i' a' s') as (Hv & Hc & Hs & Hrest) end.
    rewrite Hv, Hc, Hs. simpl. rewrite !length_app. simpl.
    repeat split; try lia; apply Hrest.
Qed.

Lemma midpointLoop_ok (st : Settings.t) (vs : list Point.t) (n : nat) :
  length vs = Z.to_nat (Settings.sides st) ->
  forall (i : nat) (acc : list Point.t) (w : World),
    (i + n = length vs)%nat ->
    exists mids,
      midpointLoop st vs n i acc w = (Normal mids, w)
      /\ length mids = (length acc + n)%nat.
Proof.
  intros Hlen. induction n as [|n IH]; intros i acc w Hi; simpl.
  - exists acc. split; [reflexivity | lia].
  - assert (i < length vs)%nat as Hlt by lia.
    destruct (lookup_lt_is_Some_2 vs i Hlt) as [vi Hvi].
    assert (Settings.sides st = Z.of_nat (length vs)) as Hsides by lia.
    unfold jsrem. rewrite Hsides.
    destruct (Z.eqb_spec (Z.of_nat (length vs)) 0) as [|_]; [lia|].
    assert (0 <= Z.rem (Z.of_nat i + 1) (Z.of_nat (length vs)) < Z.of_nat (length vs))
      as Hrem by (apply Z.rem_bound_pos; lia).
    assert (Z.to_nat (Z.rem (Z.of_nat i + 1) (Z.of_nat (length vs))) < length vs)%nat
      as Hlt2 by lia.
    destruct (lookup_lt_is_Some_2 vs _ Hlt2) as [vi2 Hvi2].
    unfold bind at 1. rewrite Hvi. simpl.
    unfold bind at 1. simpl.
    destruct (Z.ltb_spec (Z.rem (Z.of_nat i + 1) (Z.of_nat (length vs))) 0) as [|_]; [lia|].
    rewrite Hvi2. simpl.
    match goal with |- context [midpointLoop st vs n (S i) ?acc'] =>
      destruct (IH (S i) acc' w ltac:(lia)) as (mids & Hm & Hl) end.
    exists mids. split; [exact Hm|]. rewrite Hl, length_app. simpl. lia.
Qed.

Lemma spliceLoop_length (mids : list Point.t) :
  forall (i : nat) (vs : list Point.t),
    length (spliceLoop mids i vs) = (length vs + length mids)%nat.
Proof.
  induction mids as [|m ms IH]; intros i vs; simpl; [lia|].
  rewrite IH. unfold splice_insert.
  rewrite length_app. simpl. rewrite length_take, length_drop. lia.
Qed.

Lemma set_state_twice (a b : State) (w : World) :
  set_state a (set_state b w) = set_state a w.
Proof. reflexivity. Qed.

Ltac geometry_finish :=
  repeat split; try lia;
  match goal with
  | |- map (allowedFrom _ ?a) (seq 0 ?a) = map (allowedFrom _ ?b) (seq 0 ?b) =>
      let E := fresh "E" in
      assert (b = a) as E by lia; rewrite E; reflexivity
  end.

Lemma preDrawGeometry_spec (w : World) :
  let st := settings (state w) in
  exists s',
    preDrawGeometry w = (Normal tt, set_state s' w)
    /\ settings s' = st
    /\ length (vertices s') = vertexCount st
    /\ length (mainVertices s') = Z.to_nat (Settings.sides st)
    /\ allowedMoves s'
       = map (allowedFrom st (vertexCount st)) (seq 0 (vertexCount st)).
Proof.
  intros st. unfold preDrawGeometry.
  unfold bind at 1. unfold getState at 1. cbv beta iota.
  fold st.
  unfold bind at 1. unfold modify at 1. cbv beta iota.
  unfold bind at 1. unfold modify at 1. cbv beta iota.
  unfold bind at 1. unfold modify at 1. cbv beta iota.
  set (s3 := set_mainVertices _ _).
  assert (length (vertices s3) = Z.to_nat (Settings.sides st)
          /\ length (mainVertices s3) = Z.to_nat (Settings.sides st)
          /\ settings s3 = st) as (Hv3 & Hm3 & Hst3).
  { subst s3. simpl.
    match goal with |- context [polygonLoop ?a ?b ?c ?n ?i ?ang ?s] =>
      destruct (polygonLoop_spec a b c n i ang s) as (Hv & _ & _ & Hs & _) end.
    rewrite Hv, Hs. simpl. auto. }
  clearbody s3. rewrite !set_state_twice.
  unfold vertexCount. fold st.
  destruct (Settings.midpointVertex st) eqn:Hmid.
  - unfold bind at 1. unfold bind at 1. unfold getState at 1. cbv beta iota.
    simpl state.
    assert (length (vertices s3) = Z.to_nat (Settings.sides st)) as Hlen by exact Hv3.
    destruct (midpointLoop_ok st (vertices s3) (length (vertices s3)) Hlen
                0%nat [] (set_state s3 w) ltac:(lia)) as (mids & Hmids & Hl).
    unfold bind at 1. rewrite Hmids. cbv beta iota.
    unfold modify at 1. cbv beta iota.
    destruct (Settings.centerVertex st) eqn:Hcen.
    + unfold bind, modify. simpl. rewrite !set_state_twice.
      eexists. split; [reflexivity|]. simpl.
      rewrite length_app, spliceLoop_length, Hl, Hv3, Hst3, Hm3. simpl.
      geometry_finish.
    + unfold bind, modify, ret. simpl. rewrite ?set_state_twice.
      eexists. split; [reflexivity|]. simpl.
      rewrite spliceLoop_length, Hl, Hv3, Hst3, Hm3. simpl.
      geometry_finish.
  - destruct (Settings.centerVertex st) eqn:Hcen.
    + unfold bind, modify, ret. simpl. rewrite ?set_state_twice.
      eexists. split; [reflexivity|]. simpl.
      rewrite length_app, Hv3, Hst3, Hm3. simpl.
      geometry_finish.
    + unfold bind, modify, ret. simpl. rewrite ?set_state_twice.
      eexists. split; [reflexivity|]. simpl.
      rewrite Hv3, Hst3, Hm3.
      geometry_finish.
Qed.

(** *** [setup] up to [preDraw] *)

Lemma setup_with_canvas (st : Settings.t) (w : World) :
  offscreenCanvas w <> None ->
  setup st w = (preDraw ;; erase) (beforePreDraw st w).
Proof.
  intros Hc. unfold setup, beforePreDraw.
  destruct (offscreenCanvas w) as [c|] eqn:Hcanvas; [|contradiction].
  unfold bind at 1. unfold modify at 1. cbv beta iota.
  unfold bind at 1. unfold modify at 1. cbv beta iota.
  unfold bind at 1. unfold modify at 1. cbv beta iota.
  unfold bind at 1. unfold getState at 1. cbv beta iota.
  unfold bind at 1. unfold resizeCanvas at 1. simpl offscreenCanvas.
  rewrite Hcanvas. simpl.
  destruct (bool_decide (width c = Settings.canvasSize st)); simpl;
    unfold bind at 1; unfold modify at 1; cbv beta iota;
    unfold bind at 1; unfold modify at 1; cbv beta iota;
    reflexivity.
Qed.

Lemma setup_without_canvas (st : Settings.t) (w : World) :
  offscreenCanvas w = None -> fst (setup st w) = TypeError.
Proof.
  intros Hc. unfold setup, bind, modify, getState, resizeCanvas. simpl.
  rewrite Hc. reflexivity.
Qed.

(** ** The random source *)

Lemma Math_floor_bounds (x : R) : (IZR (Math_floor x) <= x < IZR (Math_floor x) + 1)%R.
Proof. unfold Math_floor. destruct (base_Int_part x). lra. Qed.

Lemma Math_floor_unique (x : R) (z : Z) :
  (IZR z <= x < IZR z + 1)%R -> Math_floor x = z.
Proof.
  intros [H1 H2]. destruct (Math_floor_bounds x) as [H3 H4].
  assert (Math_floor x < z + 1) by (apply lt_IZR; rewrite plus_IZR; lra).
  assert (z < Math_floor x + 1) by (apply lt_IZR; rewrite plus_IZR; lra).
  lia.
Qed.

Lemma randomBelow_lt (u : unit01) (n : nat) :
  (0 < n)%nat -> (randomBelow u n < n)%nat.
Proof.
  intros Hn. unfold randomBelow.
  destruct (Math_floor_bounds (uval u * INR n)) as [H1 H2].
  pose proof (uval_range u) as [Hu0 Hu1].
  assert (0 < INR n)%R as HnR by (apply lt_0_INR; lia).
  assert (uval u * INR n < INR n)%R by nra.
  assert (0 <= uval u * INR n)%R by nra.
  assert (Math_floor (uval u * INR n) < Z.of_nat n).
  { apply lt_IZR. rewrite <- INR_IZR_INZ. lra. }
  assert (-1 < Math_floor (uval u * INR n)).
  { apply lt_IZR. lra. }
  lia.
Qed.

Lemma randomBelow_zero (u : unit01) : randomBelow u 0 = 0%nat.
Proof.
  unfold randomBelow. simpl. rewrite Rmult_0_r.
  rewrite (Math_floor_unique 0 0); [reflexivity | simpl; lra].
Qed.

(** Each index below [n] is drawn exactly on an interval of length [1/n]. *)
Lemma randomBelow_uniform (u : unit01) (n k : nat) :
  (0 < n)%nat ->
  randomBelow u n = k <-> (INR k / INR n <= uval u < (INR k + 1) / INR n)%R.
Proof.
  intros Hn. unfold randomBelow.
  assert (0 < INR n)%R as HnR by (apply lt_0_INR; lia).
  pose proof (uval_range u) as [Hu0 Hu1].
  assert (INR k / INR n * INR n = INR k)%R as Ek by (field; lra).
  assert ((INR k + 1) / INR n * INR n = INR k + 1)%R as Ek1 by (field; lra).
  split.
  - intros <-.
    destruct (Math_floor_bounds (uval u * INR n)) as [H1 H2].
    assert (0 <= Math_floor (uval u * INR n)).
    { assert (-1 < Math_floor (uval u * INR n)) by (apply lt_IZR; nra). lia. }
    rewrite INR_IZR_INZ, Z2Nat.id in Ek, Ek1 |- * by assumption.
    split.
    + apply (Rmult_le_reg_r (INR n)); [exact HnR | lra].
    + apply (Rmult_lt_reg_r (INR n)); [exact HnR | lra].
  - intros [H1 H2].
    apply (Rmult_le_compat_r (INR n)) in H1; [|lra].
    apply (Rmult_lt_compat_r (INR n)) in H2; [|lra].
    rewrite (Math_floor_unique _ (Z.of_nat k)).
    + apply Nat2Z.id.
    + rewrite <- INR_IZR_INZ. lra.
Qed.

(** ** The walk (section 4.3) *)

Lemma at_back_In {A : Type} (l : list A) (k : nat) (e : A) :
  at_back l k = Some e -> In e l.
Proof.
  unfold at_back. destruct (length l <? k)%nat; [discriminate|].
  intros H. apply list_elem_of_In. eapply list_elem_of_lookup_2. exact H.
Qed.

Lemma at_back_is_Some {A : Type} (l : list A) (k : nat) :
  (1 <= k <= length l)%nat -> exists e, at_back l k = Some e.
Proof.
  intros Hk. unfold at_back.
  destruct (Nat.ltb_spec (length l) k) as [|_]; [lia|].
  apply lookup_lt_is_Some_2. lia.
Qed.

Lemma at_back_app_1 {A : Type} (l : list A) (a : A) :
  at_back (l ++ [a]) 1 = Some a.
Proof.
  unfold at_back. rewrite length_app. simpl.
  destruct (Nat.ltb_spec (length l + 1) 1) as [|_]; [lia|].
  rewrite lookup_app_r by lia.
  replace (length l + 1 - 1 - length l)%nat with 0%nat by lia. reflexivity.
Qed.

Lemma at_back_app_S {A : Type} (l : list A) (a : A) (k : nat) :
  (1 <= k)%nat -> at_back (l ++ [a]) (S k) = at_back l k.
Proof.
  intros Hk. unfold at_back. rewrite length_app. simpl.
  destruct (Nat.ltb_spec (length l + 1) (S k)), (Nat.ltb_spec (length l) k);
    try lia; [reflexivity|].
  rewrite lookup_app_l by lia. f_equal. lia.
Qed.

Lemma at_back_tail {A : Type} (l : list A) (k : nat) :
  (1 <= k < length l)%nat -> at_back (tail l) k = at_back l k.
Proof.
  intros Hk. destruct l as [|a l]; [reflexivity|]. simpl in *.
  unfold at_back. simpl.
  destruct (Nat.ltb_spec (length l) k), (Nat.ltb_spec (S (length l)) k); try lia.
  replace (S (length l) - k)%nat with (S (length l - k)) by lia. reflexivity.
Qed.

(** The last entries of the history after a step. *)
Lemma pushHistory_last (prev : list (option nat)) (ci : option nat) :
  at_back (pushHistory prev ci) 1 = Some ci.
Proof.
  unfold pushHistory.
  destruct (Nat.ltb_spec 10 (length (prev ++ [ci]))) as [H|_].
  - rewrite at_back_tail by lia. apply at_back_app_1.
  - apply at_back_app_1.
Qed.

Lemma pushHistory_before (prev : list (option nat)) (ci : option nat) (k : nat) :
  (1 <= k <= 9)%nat -> at_back (pushHistory prev ci) (S k) = at_back prev k.
Proof.
  intros Hk. unfold pushHistory.
  destruct (Nat.ltb_spec 10 (length (prev ++ [ci]))) as [H|_].
  - rewrite at_back_tail by lia. apply at_back_app_S. lia.
  - apply at_back_app_S. lia.
Qed.

Lemma pushHistory_length (prev : list (option nat)) (ci : option nat) :
  (length prev <= 10)%nat ->
  length (pushHistory prev ci) = Nat.min 10 (S (length prev)).
Proof.
  intros H. unfold pushHistory.
  assert (length (tail (prev ++ [ci])) = (length (prev ++ [ci]) - 1)%nat) as Ht
    by (destruct (prev ++ [ci]); simpl; lia).
  destruct (Nat.ltb_spec 10 (length (prev ++ [ci]))) as [H1|H1];
    [rewrite Ht|]; rewrite length_app in *; simpl length in *; lia.
Qed.

Lemma pushHistory_In (prev : list (option nat)) (ci e : option nat) :
  In e (pushHistory prev ci) -> In e prev \/ e = ci.
Proof.
  unfold pushHistory. intros H.
  assert (In e (prev ++ [ci])) as H'.
  { destruct (10 <? length (prev ++ [ci]))%nat; [|exact H].
    destruct (prev ++ [ci]); [exact H | right; exact H]. }
  apply in_app_or in H'. destruct H' as [H'|[H'|[]]]; auto.
Qed.

Lemma chooseIndex_free (s : State) (w : World) :
  movesFreely s = true ->
  chooseIndex s w
  = (Normal (Some (randomBelow (random w O) (length (vertices s)))),
     set_random (rng_tail (random w)) w).
Proof. intros H. unfold chooseIndex. rewrite H. reflexivity. Qed.

Lemma chooseIndex_restricted (s : State) (w : World) (a : nat) (allowed : list nat) :
  movesFreely s = false ->
  at_back (prevIndex s) (lookback s) = Some (Some a) ->
  allowedMoves s !! a = Some allowed ->
  chooseIndex s w
  = (Normal (allowed !! randomBelow (random w O) (length allowed)),
     set_random (rng_tail (random w)) w).
Proof.
  intros H Ha Hal. unfold chooseIndex. rewrite H, Ha. simpl. rewrite Hal.
  reflexivity.
Qed.

Lemma movesFreely_false_lookback (s : State) :
  movesFreely s = false -> (1 <= lookback s <= length (prevIndex s))%nat.
Proof.
  unfold movesFreely, lookback. intros H.
  apply orb_false_iff in H. destruct H as [H _].
  apply orb_false_iff in H. destruct H as [H1 H2].
  apply Nat.eqb_neq in H1.
  destruct (String.eqb _ "no-return"); simpl in H2.
  - apply Nat.ltb_ge in H2. lia.
  - lia.
Qed.

Lemma chooseIndex_ok (s : State) (w : World) :
  walkReady s ->
  exists k,
    chooseIndex s w = (Normal (Some k), set_random (rng_tail (random w)) w)
    /\ (k < length (vertices s))%nat.
Proof.
  intros (Hn & Hlen & Hrows & Hhist).
  destruct (movesFreely s) eqn:Hfree.
  - eexists. split; [apply chooseIndex_free; exact Hfree|].
    apply randomBelow_lt. exact Hn.
  - destruct (at_back_is_Some (prevIndex s) (lookback s)
                (movesFreely_false_lookback s Hfree)) as [e He].
    destruct (Hhist e (at_back_In _ _ _ He)) as (a & -> & Ha).
    destruct (lookup_lt_is_Some_2 (allowedMoves s) a ltac:(lia)) as [allowed Hal].
    destruct (Hrows a allowed Hal) as [Hne Hin].
    assert (0 < length allowed)%nat as Hpos by (destruct allowed; simpl; [congruence | lia]).
    destruct (lookup_lt_is_Some_2 allowed
                (randomBelow (random w O) (length allowed))
                (randomBelow_lt _ _ Hpos)) as [k Hk].
    exists k. split.
    + rewrite (chooseIndex_restricted s w a allowed Hfree He Hal), Hk. reflexivity.
    + apply Hin. apply list_elem_of_In. eapply list_elem_of_lookup_2. exact Hk.
Qed.

Lemma updateCurrentPoint_step (w : World) (k : nat) :
  chooseIndex (state w) w = (Normal (Some k), set_random (rng_tail (random w)) w) ->
  (k < length (vertices (state w)))%nat ->
  exists w',
    updateCurrentPoint w = (Normal tt, w')
    /\ prevIndex (state w') = pushHistory (prevIndex (state w)) (Some k)
    /\ random w' = rng_tail (random w).
Proof.
  intros Hc Hk.
  destruct (lookup_lt_is_Some_2 (vertices (state w)) k Hk) as [v Hv].
  unfold updateCurrentPoint.
  unfold bind at 1. unfold getState at 1. cbv beta iota.
  unfold bind at 1. rewrite Hc. cbv beta iota.
  unfold bind at 1. unfold modify at 1. cbv beta iota.
  unfold bind at 1. unfold modify at 1. cbv beta iota.
  unfold bind at 1. simpl mbind. rewrite Hv. simpl defined.
  unfold ret at 1. cbv beta iota. unfold modify.
  eexists. split; [reflexivity|]. simpl.
  split; [|reflexivity].
  unfold pushHistory.
  destruct (10 <? length (prevIndex (state w) ++ [Some k]))%nat; reflexivity.
Qed.

Lemma chooseIndex_keeps {X : Type} (f : State -> X) (s : State) :
  keeps (fun w => f (state w)) (chooseIndex s).
Proof. unfold chooseIndex. keeps_auto. Qed.

Lemma updateCurrentPoint_keeps {X : Type} (f : State -> X) :
  (forall v s, f (set_prevIndex v s) = f s) ->
  (forall v s, f (set_currentPoint v s) = f s) ->
  keeps (fun w => f (state w)) updateCurrentPoint.
Proof.
  intros H1 H2. unfold updateCurrentPoint.
  apply keeps_bind; [auto with keeps | intros s].
  apply keeps_bind; [apply chooseIndex_keeps | intros ci].
  apply keeps_bind; [apply keeps_modify; intros; apply H1 | intros _].
  apply keeps_bind;
    [apply keeps_modify; intros s'; destruct (_ <? _)%nat; [apply H1 | reflexivity]
    | intros _].
  apply keeps_bind; [auto with keeps | intros v].
  apply keeps_modify. intros; apply H2.
Qed.

Lemma burnIn_keeps {X : Type} (f : State -> X) :
  (forall v s, f (set_prevIndex v s) = f s) ->
  (forall v s, f (set_currentPoint v s) = f s) ->
  keeps (fun w => f (state w)) burnIn.
Proof.
  intros H1 H2. unfold burnIn. apply keeps_forRange. intros _.
  apply updateCurrentPoint_keeps; assumption.
Qed.

Lemma getRandomPointInShape_keeps {X : Type} (f : State -> X) :
  keeps (fun w => f (state w)) getRandomPointInShape.
Proof. unfold getRandomPointInShape. keeps_auto. Qed.

Lemma updateCurrentPoint_ok (w : World) :
  walkReady (state w) ->
  exists k w',
    (k < length (vertices (state w)))%nat
    /\ chooseIndex (state w) w
       = (Normal (Some k), set_random (rng_tail (random w)) w)
    /\ updateCurrentPoint w = (Normal tt, w')
    /\ prevIndex (state w') = pushHistory (prevIndex (state w)) (Some k)
    /\ random w' = rng_tail (random w)
    /\ walkReady (state w').
Proof.
  intros Hready.
  destruct (chooseIndex_ok (state w) w Hready) as (k & Hc & Hk).
  destruct (updateCurrentPoint_step w k Hc Hk) as (w' & Hu & Hp & Hr).
  exists k, w'. repeat split; try assumption.
  - pose proof (updateCurrentPoint_keeps (fun s => length (vertices s))
                  ltac:(reflexivity) ltac:(reflexivity) w) as Hv.
    rewrite Hu in Hv. simpl in Hv. rewrite Hv. apply Hready.
  - pose proof (updateCurrentPoint_keeps (fun s => length (vertices s))
                  ltac:(reflexivity) ltac:(reflexivity) w) as Hv.
    pose proof (updateCurrentPoint_keeps allowedMoves
                  ltac:(reflexivity) ltac:(reflexivity) w) as Ha.
    rewrite Hu in Hv, Ha. simpl in Hv, Ha. rewrite Hv, Ha. apply Hready.
  - pose proof (updateCurrentPoint_keeps (fun s => length (vertices s))
                  ltac:(reflexivity) ltac:(reflexivity) w) as Hv.
    pose proof (updateCurrentPoint_keeps allowedMoves
                  ltac:(reflexivity) ltac:(reflexivity) w) as Ha.
    rewrite Hu in Hv, Ha. simpl in Hv, Ha.
    rewrite Ha in H. destruct Hready as (_ & _ & Hrows & _).
    apply (Hrows i allowed H).
  - pose proof (updateCurrentPoint_keeps (fun s => length (vertices s))
                  ltac:(reflexivity) ltac:(reflexivity) w) as Hv.
    pose proof (updateCurrentPoint_keeps allowedMoves
                  ltac:(reflexivity) ltac:(reflexivity) w) as Ha.
    rewrite Hu in Hv, Ha. simpl in Hv, Ha.
    rewrite Ha in H. destruct Hready as (_ & _ & Hrows & _).
    rewrite Hv. apply (Hrows i allowed H).
  - intros e He. rewrite Hp in He.
    pose proof (updateCurrentPoint_keeps (fun s => length (vertices s))
                  ltac:(reflexivity) ltac:(reflexivity) w) as Hv.
    rewrite Hu in Hv. simpl in Hv. rewrite Hv.
    apply pushHistory_In in He. destruct He as [He| ->].
    + destruct Hready as (_ & _ & _ & Hh). apply Hh. exact He.
    + exists k. split; [reflexivity | exact Hk].
Qed.

Lemma walk_forRange_ok (n : nat) :
  forall (start : nat) (w : World),
    walkReady (state w) ->
    exists w',
      forRange start n (fun _ => updateCurrentPoint) w = (Normal tt, w')
      /\ walkReady (state w').
Proof.
  induction n as [|n IH]; intros start w Hready; simpl.
  - exists w. split; [reflexivity | exact Hready].
  - destruct (updateCurrentPoint_ok w Hready) as (k & w1 & _ & _ & Hu & _ & _ & Hready1).
    unfold bind at 1. rewrite Hu.
    apply IH. exact Hready1.
Qed.

Lemma burnIn_ok (w : World) :
  walkReady (state w) ->
  exists w', burnIn w = (Normal tt, w') /\ walkReady (state w').
Proof. apply walk_forRange_ok. Qed.

Lemma getRandomPointInShape_ok (w : World) :
  (0 < length (mainVertices (state w)))%nat ->
  exists p, getRandomPointInShape w
            = (Normal p, set_random (rng_tail (rng_tail (rng_tail (random w)))) w).
Proof.
  intros Hn. unfold getRandomPointInShape.
  unfold bind at 1. unfold getState at 1. cbv beta iota zeta.
  unfold bind at 1. unfold Math_random at 1. cbv beta iota.
  unfold bind at 1. unfold Math_random at 1. cbv beta iota.
  unfold bind at 1. unfold Math_random at 1. cbv beta iota.
  simpl random. simpl state.
  set (n := length (mainVertices (state w))) in *.
  set (t := randomBelow (random w O) n).
  assert (t < n)%nat as Ht by (apply randomBelow_lt; exact Hn).
  destruct (lookup_lt_is_Some_2 (mainVertices (state w)) t Ht) as [v2 Hv2].
  unfold jsrem. destruct (Z.eqb_spec (Z.of_nat n) 0) as [|_]; [lia|].
  assert (0 <= Z.rem (Z.of_nat t + 1) (Z.of_nat n) < Z.of_nat n) as Hrem
    by (apply Z.rem_bound_pos; lia).
  unfold at_index.
  destruct (Z.ltb_spec (Z.rem (Z.of_nat t + 1) (Z.of_nat n)) 0) as [|_]; [lia|].
  assert (Z.to_nat (Z.rem (Z.of_nat t + 1) (Z.of_nat n)) < n)%nat as Ht3 by lia.
  destruct (lookup_lt_is_Some_2 (mainVertices (state w)) _ Ht3) as [v3 Hv3].
  unfold bind at 1. rewrite Hv2. simpl defined. unfold ret at 1. cbv beta iota.
  unfold bind at 1. rewrite Hv3. simpl defined. unfold ret at 1. cbv beta iota.
  eexists. unfold ret. f_equal.
Qed.

Lemma allowedFrom_bound (st : Settings.t) (n i j : nat) :
  In j (allowedFrom st n i) -> (j < n)%nat.
Proof.
  unfold allowedFrom.
  destruct (includes _ _); [|destruct (includes _ _)]; intros H;
    try apply filter_In in H as [H _]; apply in_seq in H; lia.
Qed.

Lemma polygonLoop_frame {X : Type} (f : State -> X) (st : Settings.t) (rad : R)
    (c : Point.t) (n : nat) :
  (forall v s, f (set_vertices v s) = f s) ->
  (forall v s, f (set_cosAngles v s) = f s) ->
  (forall v s, f (set_sinAngles v s) = f s) ->
  forall (i : Z) (angle : R) (s : State), f (polygonLoop st rad c n i angle s) = f s.
Proof.
  intros H1 H2 H3. induction n as [|n IH]; intros i angle s; simpl.
  - reflexivity.
  - rewrite IH, H3, H2, H1. reflexivity.
Qed.

Lemma midpointLoop_keeps {X : Type} (f : World -> X) (st : Settings.t)
    (vs : list Point.t) (n : nat) :
  forall (i : nat) (acc : list Point.t), keeps f (midpointLoop st vs n i acc).
Proof.
  induction n as [|n IH]; intros i acc; simpl.
  - apply keeps_ret.
  - apply keeps_bind; [apply keeps_defined | intros vi].
    apply keeps_bind; [apply keeps_defined | intros vi2].
    apply IH.
Qed.

Lemma preDrawGeometry_keeps {X : Type} (f : State -> X) :
  (forall v s, f (set_vertices v s) = f s) ->
  (forall v s, f (set_cosAngles v s) = f s) ->
  (forall v s, f (set_sinAngles v s) = f s) ->
  (forall v s, f (set_mainVertices v s) = f s) ->
  (forall v s, f (set_allowedMoves v s) = f s) ->
  keeps (fun w => f (state w)) preDrawGeometry.
Proof.
  intros H1 H2 H3 H4 H5. unfold preDrawGeometry.
  apply keeps_bind; [auto with keeps | intros s0]. cbv zeta.
  apply keeps_bind; [apply keeps_modify; intros; rewrite H3, H2, H1; reflexivity | intros _].
  apply keeps_bind;
    [apply keeps_modify; intros; apply polygonLoop_frame; assumption | intros _].
  apply keeps_bind; [apply keeps_modify; intros; apply H4 | intros _].
  apply keeps_bind; [| intros _].
  { apply keeps_if; [|auto with keeps].
    apply keeps_bind; [auto with keeps | intros s].
    apply keeps_bind; [apply midpointLoop_keeps | intros mids].
    apply keeps_modify; intros; apply H1. }
  apply keeps_bind; [| intros _].
  { apply keeps_if; [|auto with keeps]. apply keeps_modify; intros; apply H1. }
  apply keeps_modify. intros. apply H5.
Qed.

Lemma preDraw_ok (w : World) :
  let st := settings (state w) in
  0 < Settings.sides st ->
  rowsNonEmpty st ->
  historyFits st (state w) ->
  exists w', preDraw w = (Normal tt, w') /\ walkReady (state w').
Proof.
  intros st Hsides Hrows Hhist.
  destruct (preDrawGeometry_spec w) as (s' & Hg & Hst & Hv & Hm & Ha).
  fold st in Hst, Hv, Hm, Ha.
  pose proof (preDrawGeometry_keeps prevIndex
                ltac:(reflexivity) ltac:(reflexivity) ltac:(reflexivity)
                ltac:(reflexivity) ltac:(reflexivity) w) as Hp.
  rewrite Hg in Hp. simpl in Hp.
  destruct (getRandomPointInShape_ok (set_state s' w)) as [p Hrp].
  { simpl. rewrite Hm. lia. }
  unfold preDraw.
  unfold bind at 1. rewrite Hg.
  unfold bind at 1. rewrite Hrp.
  unfold bind at 1. unfold modify at 1. cbv beta iota.
  apply burnIn_ok. simpl.
  assert (0 < vertexCount st)%nat as Hpos.
  { unfold vertexCount. destruct (Settings.midpointVertex st); lia. }
  unfold walkReady. simpl. rewrite Hv, Ha, Hp.
  split; [exact Hpos|].
  split; [rewrite length_map, length_seq; reflexivity|].
  split; [|exact Hhist].
  intros i allowed Hi.
  rewrite list_lookup_fmap in Hi.
  destruct (seq 0 (vertexCount st) !! i) as [i'|] eqn:Hseq; [|discriminate].
  apply lookup_seq in Hseq as [-> Hlt]. simpl in Hi. injection Hi as <-.
  split; [apply Hrows; exact Hlt | intros j; apply allowedFrom_bound].
Qed.

(** ** Erasing and set-up *)

Lemma erase_outcome (w : World) : fst (erase w) = Normal tt.
Proof. unfold erase. destruct (ctx w); reflexivity. Qed.

Lemma erase_with_ctx (w : World) :
  ctx w = true ->
  let s := state w in
  let s' := state (snd (erase w)) in
  imageMatrix s' = fill (imageMatrix s) 0
  /\ maxValue s' = 1
  /\ prevIndex s' = []
  /\ pixelData s'
     = fill (pixelData s)
         (if Settings.solidBg (settings s) then ToUint32 (bg32 (bgColor s)) else 0)
  /\ settings s' = settings s /\ bgColor s' = bgColor s /\ fgColor s' = fgColor s.
Proof.
  intros Hctx. unfold erase. rewrite Hctx. simpl.
  destruct (Settings.solidBg (settings (state w))); simpl; auto 10.
Qed.

Lemma erase_keeps {X : Type} (f : State -> X) :
  (forall v s, f (set_imageMatrix v s) = f s) ->
  (forall v s, f (set_maxValue v s) = f s) ->
  (forall v s, f (set_prevIndex v s) = f s) ->
  (forall v s, f (set_iterations v s) = f s) ->
  (forall v s, f (set_stabilityCounter v s) = f s) ->
  (forall v s, f (set_newPixelsSinceLastCheck v s) = f s) ->
  (forall v s, f (set_newPixelsEma v s) = f s) ->
  (forall v s, f (set_filledPixels v s) = f s) ->
  (forall v s, f (set_pixelData v s) = f s) ->
  keeps (fun w => f (state w)) erase.
Proof.
  intros H1 H2 H3 H4 H5 H6 H7 H8 H9 w. unfold erase.
  destruct (ctx w); [|reflexivity]. simpl.
  destruct (negb _); rewrite H9, H8, H7, H6, H5, H4, H3, H2, H1; reflexivity.
Qed.

Lemma erase_keeps_ctx : keeps ctx erase.
Proof.
  intros w. unfold erase. destruct (ctx w) eqn:E; simpl; [exact E | exact E].
Qed.

(** The part of [setup] after the buffers are allocated leaves alone what
    [f] observes, when [f] does not look at what [preDraw] and [erase]
    write. *)
Lemma preDraw_erase_keeps {X : Type} (f : State -> X) :
  (forall v s, f (set_vertices v s) = f s) ->
  (forall v s, f (set_cosAngles v s) = f s) ->
  (forall v s, f (set_sinAngles v s) = f s) ->
  (forall v s, f (set_mainVertices v s) = f s) ->
  (forall v s, f (set_allowedMoves v s) = f s) ->
  (forall v s, f (set_currentPoint v s) = f s) ->
  (forall v s, f (set_imageMatrix v s) = f s) ->
  (forall v s, f (set_maxValue v s) = f s) ->
  (forall v s, f (set_prevIndex v s) = f s) ->
  (forall v s, f (set_iterations v s) = f s) ->
  (forall v s, f (set_stabilityCounter v s) = f s) ->
  (forall v s, f (set_newPixelsSinceLastCheck v s) = f s) ->
  (forall v s, f (set_newPixelsEma v s) = f s) ->
  (forall v s, f (set_filledPixels v s) = f s) ->
  (forall v s, f (set_pixelData v s) = f s) ->
  keeps (fun w => f (state w)) (preDraw ;; erase).
Proof.
  intros. apply keeps_bind; [| intros _; apply erase_keeps; assumption].
  unfold preDraw.
  apply keeps_bind; [apply preDrawGeometry_keeps; assumption | intros _].
  apply keeps_bind; [apply getRandomPointInShape_keeps | intros p].
  apply keeps_bind; [apply keeps_modify; auto | intros _].
  apply burnIn_keeps; assumption.
Qed.

Lemma setup_settings (st : Settings.t) (w : World) :
  settings (state (snd (setup st w))) = st.
Proof.
  destruct (offscreenCanvas w) as [c|] eqn:Hc.
  - rewrite setup_with_canvas by congruence.
    rewrite (preDraw_erase_keeps settings); reflexivity.
  - unfold setup, bind, modify, getState, resizeCanvas. simpl. rewrite Hc.
    reflexivity.
Qed.

(** After [preDraw] has built the geometry nothing in [setup] changes it. *)
Lemma setup_geometry (st : Settings.t) (w : World) :
  offscreenCanvas w <> None ->
  let s' := state (snd (setup st w)) in
  length (vertices s') = vertexCount st
  /\ allowedMoves s' = map (allowedFrom st (vertexCount st)) (seq 0 (vertexCount st)).
Proof.
  intros Hc. cbv zeta. rewrite setup_with_canvas by exact Hc.
  set (w0 := beforePreDraw st w).
  assert (settings (state w0) = st) as Hst0 by reflexivity.
  destruct (preDrawGeometry_spec w0) as (s1 & Hg & Hst & Hv & _ & Ha).
  rewrite Hst0 in Hst, Hv, Ha.
  assert (forall {X : Type} (f : State -> X),
    (forall v s, f (set_currentPoint v s) = f s) ->
    (forall v s, f (set_imageMatrix v s) = f s) ->
    (forall v s, f (set_maxValue v s) = f s) ->
    (forall v s, f (set_prevIndex v s) = f s) ->
    (forall v s, f (set_iterations v s) = f s) ->
    (forall v s, f (set_stabilityCounter v s) = f s) ->
    (forall v s, f (set_newPixelsSinceLastCheck v s) = f s) ->
    (forall v s, f (set_newPixelsEma v s) = f s) ->
    (forall v s, f (set_filledPixels v s) = f s) ->
    (forall v s, f (set_pixelData v s) = f s) ->
    f (state (snd ((preDraw ;; erase) w0))) = f s1) as Hframe.
  { intros X f F1 F2 F3 F4 F5 F6 F7 F8 F9 F10.
    unfold preDraw. unfold bind at 1. unfold bind at 1. rewrite Hg.
    set (rest := bind getRandomPointInShape _).
    assert (keeps (fun w => f (state w)) rest) as Hrest.
    { subst rest.
      apply keeps_bind; [apply getRandomPointInShape_keeps | intros p].
      apply keeps_bind; [apply keeps_modify; auto | intros _].
      apply burnIn_keeps; assumption. }
    specialize (Hrest (set_state s1 w0)).
    destruct (rest (set_state s1 w0)) as [[[]|] w2]; simpl in *.
    - rewrite (erase_keeps f) by assumption. exact Hrest.
    - exact Hrest. }
  split.
  - rewrite (Hframe _ (fun s => length (vertices s))) by reflexivity. exact Hv.
  - rewrite (Hframe _ allowedMoves) by reflexivity. exact Ha.
Qed.

Lemma setup_ok (st : Settings.t) (w : World) :
  offscreenCanvas w <> None ->
  0 < Settings.sides st ->
  rowsNonEmpty st ->
  historyFits st (state w) ->
  exists w',
    setup st w = (Normal tt, w')
    /\ walkReady (state w')
    /\ (ctx w = true -> prevIndex (state w') = [] /\ maxValue (state w') = 1).
Proof.
  intros Hc Hsides Hrows Hhist.
  rewrite setup_with_canvas by exact Hc.
  set (w0 := beforePreDraw st w).
  destruct (preDraw_ok w0) as (w1 & Hpre & Hready); try assumption.
  unfold bind. rewrite Hpre.
  pose proof (erase_outcome w1) as Ho.
  destruct (erase w1) as [o w2] eqn:He. simpl in Ho. subst o.
  exists w2. split; [reflexivity|].
  assert (w2 = snd (erase w1)) as -> by (rewrite He; reflexivity).
  split.
  - destruct Hready as (H1 & H2 & H3 & H4).
    pose proof (erase_keeps vertices ltac:(reflexivity) ltac:(reflexivity)
                  ltac:(reflexivity) ltac:(reflexivity) ltac:(reflexivity)
                  ltac:(reflexivity) ltac:(reflexivity) ltac:(reflexivity)
                  ltac:(reflexivity) w1) as Hv.
    pose proof (erase_keeps allowedMoves ltac:(reflexivity) ltac:(reflexivity)
                  ltac:(reflexivity) ltac:(reflexivity) ltac:(reflexivity)
                  ltac:(reflexivity) ltac:(reflexivity) ltac:(reflexivity)
                  ltac:(reflexivity) w1) as Ha.
    simpl in Hv, Ha.
    unfold walkReady. rewrite Hv, Ha.
    repeat split; try assumption; try (apply (H3 i allowed); assumption).
    intros e He'. unfold erase in He'. destruct (ctx w1); simpl in He'.
    + destruct (negb _) in He'; destruct He'.
    + apply H4. exact He'.
  - intros Hctx.
    assert (ctx w1 = true) as Hctx1.
    { assert (keeps ctx preDraw) as Hk.
      { unfold preDraw, preDrawGeometry, getRandomPointInShape, burnIn,
          updateCurrentPoint, chooseIndex.
        repeat first
          [ apply keeps_bind; [| intros ?]
          | apply keeps_forRange; intros ?
          | apply keeps_if
          | apply midpointLoop_keeps
          | apply keeps_defined
          | apply keeps_ret
          | intros ?; reflexivity ]. }
      specialize (Hk w0). rewrite Hpre in Hk. simpl in Hk. rewrite Hk.
      subst w0. unfold beforePreDraw. simpl.
      destruct (offscreenCanvas w); [destruct (bool_decide _)|]; simpl; exact Hctx. }
    destruct (erase_with_ctx w1 Hctx1) as (_ & Hm & Hp & _). auto.
Qed.

(** ** C4: the restriction table *)

(** C4.  For every vertex index [i], the row of the table that
    [buildRestrictions] builds holds: under rule [none] all vertex indices;
    under [no-repeat], [no-double-repeat] and [no-return] all indices but
    [i]; under [no-neighbor] and [no-neighbor-after-repeat], for [i] below
    the ring size (twice [sides] with midpoints, else [sides]) all indices
    but [(i - 1 + ringSize) mod ringSize] and [(i + 1) mod ringSize], and for
    [i] at or above the ring size (the centroid) all indices.  And after
    [setup] with [sides >= 3] the table is the one [buildRestrictions]
    gives for the vertex set built, with no empty row: for [sides >= 3] no
    row of the table for the vertex set of the settings is empty. *)
Theorem buildRestrictions_table :
  (forall (s : State) (i : nat),
     (i < length (vertices s))%nat ->
     let st := settings s in
     let n := length (vertices s) in
     exists allowed,
       allowedMoves (buildRestrictions s) !! i = Some allowed
       /\ (Settings.restriction st = "none" -> allowed = seq 0 n)
       /\ (selfExcluding (Settings.restriction st) ->
           forall j, In j allowed <-> (j < n)%nat /\ j <> i)
       /\ (neighborExcluding (Settings.restriction st) ->
           (Z.of_nat i < ringSize st ->
            forall j, In j allowed <->
                      (j < n)%nat
                      /\ Z.of_nat j <> (Z.of_nat i - 1 + ringSize st) mod ringSize st
                      /\ Z.of_nat j <> (Z.of_nat i + 1) mod ringSize st)
           /\ (ringSize st <= Z.of_nat i -> allowed = seq 0 n)))
  /\ (forall (st : Settings.t) (w : World),
        offscreenCanvas w <> None ->
        3 <= Settings.sides st ->
        let s' := state (snd (setup st w)) in
        length (vertices s') = vertexCount st
        /\ allowedMoves s' = allowedMoves (buildRestrictions s')
        /\ forall i, (i < length (vertices s'))%nat ->
             exists allowed, allowedMoves s' !! i = Some allowed /\ allowed <> [])
  /\ (forall st : Settings.t, 3 <= Settings.sides st -> rowsNonEmpty st).
Proof.
  split; [|split].
  - intros s i Hi st n.
    exists (allowedFrom st n i). split; [apply buildRestrictions_lookup; exact Hi|].
    split; [apply allowedFrom_none|].
    split; [intros H j; apply allowedFrom_self; exact H|].
    intros H. split.
    + intros Hring j. apply allowedFrom_neighbor_ring; assumption.
    + intros Hring. apply allowedFrom_neighbor_center; assumption.
  - intros st w Hc Hsides s'.
    destruct (setup_geometry st w Hc) as [Hv Ha]. fold s' in Hv, Ha.
    assert (settings s' = st) as Hst by apply setup_settings.
    assert (3 <= vertexCount st)%nat as Hn.
    { unfold vertexCount. destruct (Settings.midpointVertex st); lia. }
    split; [exact Hv|]. split.
    + unfold buildRestrictions. simpl. rewrite Hst, Hv. exact Ha.
    + intros i Hi. exists (allowedFrom st (vertexCount st) i). split.
      * rewrite Ha, list_lookup_fmap, lookup_seq_lt by lia. reflexivity.
      * apply allowedFrom_nonempty. exact Hn.
  - intros st Hsides i _. apply allowedFrom_nonempty.
    unfold vertexCount. destruct (Settings.midpointVertex st); lia.
Qed.

Lemma buildRestrictions_table_witness :
  exists allowed,
    allowedMoves (state (snd (setup triangleSettings world0))) !! 0%nat = Some allowed
    /\ allowed <> [].
Proof.
  destruct buildRestrictions_table as (_ & H & _).
  destruct (H triangleSettings world0) as (Hv & _ & Hrows).
  - discriminate.
  - simpl. lia.
  - apply Hrows. rewrite Hv. unfold vertexCount. simpl. lia.
Defined.

(** ** The history after set-up *)

Lemma pushHistory_nonempty (prev : list (option nat)) (ci : option nat) :
  pushHistory prev ci <> [].
Proof.
  intros E. pose proof (pushHistory_last prev ci) as H. rewrite E in H.
  discriminate H.
Qed.

Lemma walk_forRange_nonempty (n : nat) :
  forall (start : nat) (w : World),
    walkReady (state w) ->
    prevIndex (state w) <> [] \/ (0 < n)%nat ->
    exists w',
      forRange start n (fun _ => updateCurrentPoint) w = (Normal tt, w')
      /\ prevIndex (state w') <> [].
Proof.
  induction n as [|n IH]; intros start w Hready Hne; simpl.
  - exists w. split; [reflexivity|]. destruct Hne as [Hne|Hne]; [exact Hne | lia].
  - destruct (updateCurrentPoint_ok w Hready) as (k & w1 & _ & _ & Hu & Hp & _ & Hready1).
    unfold bind at 1. rewrite Hu.
    apply IH; [exact Hready1|]. left. rewrite Hp. apply pushHistory_nonempty.
Qed.

Lemma preDraw_keeps_ctx : keeps ctx preDraw.
Proof.
  unfold preDraw, preDrawGeometry, getRandomPointInShape, burnIn,
    updateCurrentPoint, chooseIndex.
  repeat first
    [ apply keeps_bind; [| intros ?]
    | apply keeps_forRange; intros ?
    | apply keeps_if
    | apply midpointLoop_keeps
    | apply keeps_defined
    | apply keeps_ret
    | intros ?; reflexivity ].
Qed.

Lemma beforePreDraw_ctx (st : Settings.t) (w : World) :
  ctx (beforePreDraw st w) = ctx w.
Proof.
  unfold beforePreDraw. simpl.
  destruct (offscreenCanvas w); [destruct (bool_decide _)|]; reflexivity.
Qed.

Lemma preDraw_fills_history (w : World) :
  let st := settings (state w) in
  0 < Settings.sides st ->
  rowsNonEmpty st ->
  historyFits st (state w) ->
  exists w', preDraw w = (Normal tt, w') /\ prevIndex (state w') <> [].
Proof.
  intros st Hsides Hrows Hhist.
  destruct (preDraw_ok w Hsides Hrows Hhist) as (w' & Hpre & _).
  exists w'. split; [exact Hpre|].
  revert Hpre. unfold preDraw.
  unfold bind at 1. destruct (preDrawGeometry w) as [[[]|] w1] eqn:Hg; [|discriminate].
  unfold bind at 1. destruct (getRandomPointInShape w1) as [[p|] w2] eqn:Hr; [|discriminate].
  unfold bind at 1. unfold modify at 1. cbv beta iota.
  set (w3 := set_state _ w2).
  destruct (burnIn w3) as [[[]|] w4] eqn:Hb; [|discriminate].
  intros E. injection E as <-.
  assert (walkReady (state w3)) as Hready.
  { destruct (preDrawGeometry_spec w) as (s' & Hg' & Hst & Hv & Hm & Ha).
    rewrite Hg in Hg'. injection Hg' as ->.
    pose proof (preDrawGeometry_keeps prevIndex
                  ltac:(reflexivity) ltac:(reflexivity) ltac:(reflexivity)
                  ltac:(reflexivity) ltac:(reflexivity) w) as Hp.
    rewrite Hg in Hp. simpl in Hp.
    pose proof (getRandomPointInShape_keeps (fun s => s) (set_state s' w)) as Hs.
    rewrite Hr in Hs. simpl in Hs.
    subst w3. simpl. fold st in Hv, Ha.
    assert (0 < vertexCount st)%nat as Hpos.
    { unfold vertexCount. destruct (Settings.midpointVertex st); lia. }
    unfold walkReady. simpl. rewrite Hs, Hv, Ha, Hp.
    split; [exact Hpos|].
    split; [rewrite length_map, length_seq; reflexivity|].
    split; [|exact Hhist].
    intros i allowed Hi.
    rewrite list_lookup_fmap in Hi.
    destruct (seq 0 (vertexCount st) !! i) as [i'|] eqn:Hseq; [|discriminate].
    apply lookup_seq in Hseq as [-> Hlt]. simpl in Hi. injection Hi as <-.
    split; [apply Hrows; exact Hlt | intros j; apply allowedFrom_bound]. }
  destruct (walk_forRange_nonempty DEFAULT_BURN_IN_COUNT 0%nat w3 Hready) as (w5 & Hb5 & Hne).
  { right. unfold DEFAULT_BURN_IN_COUNT. lia. }
  unfold burnIn in Hb. rewrite Hb5 in Hb. injection Hb as ->. exact Hne.
Qed.

Lemma movesFreely_empty (s : State) : prevIndex s = [] -> movesFreely s = true.
Proof. intros H. unfold movesFreely. rewrite H. reflexivity. Qed.

(** Every [setup] that gets through, with the 2d context held, leaves the
    move history empty, although the 300 burn-in steps [preDraw] ran had
    filled it ([erase] runs last); so whatever the restriction, the first
    step of the run that follows draws its vertex among all vertices, each
    on an interval of [Math.random()] values of the same length.  [setup]
    does get through when the canvas is there, [sides] is positive, no row
    of the table is empty and the history left by the run before names
    vertices that still exist. *)
Lemma setup_clears_history (st : Settings.t) (w : World) :
  offscreenCanvas w <> None ->
  ctx w = true ->
  let s' := state (snd (setup st w)) in
  let n := length (vertices s') in
  (0 < Settings.sides st -> rowsNonEmpty st -> historyFits st (state w) ->
   exists w1,
     preDraw (beforePreDraw st w) = (Normal tt, w1)
     /\ prevIndex (state w1) <> []
     /\ setup st w = (Normal tt, snd (erase w1)))
  /\ (fst (setup st w) = Normal tt ->
      prevIndex s' = []
      /\ (forall w1, state w1 = s' ->
            chooseIndex (state w1) w1
            = (Normal (Some (randomBelow (random w1 O) n)),
               set_random (rng_tail (random w1)) w1))
      /\ (forall (u : unit01) (k : nat),
            (k < n)%nat ->
            randomBelow u n = k
            <-> (INR k / INR n <= uval u < (INR k + 1) / INR n)%R)).
Proof.
  intros Hc Hctx s' n. split.
  - intros Hsides Hrows Hhist.
    destruct (preDraw_fills_history (beforePreDraw st w)) as (w1 & Hpre & Hne);
      try assumption.
    exists w1. split; [exact Hpre|]. split; [exact Hne|].
    rewrite setup_with_canvas by exact Hc. unfold bind. rewrite Hpre.
    pose proof (erase_outcome w1) as Ho.
    destruct (erase w1) as [[[]|] w2]; [reflexivity | discriminate Ho].
  - intros Hnormal.
    assert (prevIndex s' = []) as Hp.
    { subst s'. revert Hnormal. rewrite setup_with_canvas by exact Hc.
      unfold bind.
      pose proof (preDraw_keeps_ctx (beforePreDraw st w)) as Hk.
      rewrite beforePreDraw_ctx in Hk.
      destruct (preDraw (beforePreDraw st w)) as [[[]|] w1]; [|discriminate].
      simpl in Hk. intros _. apply erase_with_ctx. congruence. }
    split; [exact Hp|]. split.
    + intros w1 Hw1. rewrite chooseIndex_free; rewrite Hw1.
      * reflexivity.
      * apply movesFreely_empty. exact Hp.
    + intros u k Hk. apply randomBelow_uniform. lia.
Qed.

Example setup_clears_history_triangle :
  fst (setup triangleSettings world0) = Normal tt
  /\ prevIndex (state (snd (setup triangleSettings world0))) = [].
Proof.
  destruct (setup_clears_history triangleSettings world0) as [Hruns Hafter].
  - discriminate.
  - reflexivity.
  - destruct Hruns as (w1 & _ & _ & Hs).
    + simpl. lia.
    + intros i _. apply allowedFrom_nonempty. unfold vertexCount. simpl. lia.
    + intros e [].
    + assert (fst (setup triangleSettings world0) = Normal tt) as Hn
        by (rewrite Hs; reflexivity).
      split; [exact Hn | apply Hafter; exact Hn].
Defined.

(** ** C2: configurations are not validated *)

Lemma rowsNonEmpty_none (st : Settings.t) :
  Settings.restriction st = "none" -> 0 < Settings.sides st -> rowsNonEmpty st.
Proof.
  intros Hr Hs i Hi. rewrite allowedFrom_none by exact Hr.
  intros E. apply (f_equal (@length nat)) in E. rewrite length_seq in E.
  simpl in E. lia.
Qed.






(** ** Steps of a run *)

Lemma plotPixel_frame {X : Type} (f : State -> X) (p : option (Z * Z)) (s : State) :
  (forall v s, f (set_newPixelsSinceLastCheck v s) = f s) ->
  (forall v s, f (set_imageMatrix v s) = f s) ->
  (forall v s, f (set_maxValue v s) = f s) ->
  f (plotPixel p s) = f s.
Proof.
  intros H1 H2 H3. unfold plotPixel.
  destruct p as [[x y]|]; [|reflexivity].
  destruct (at_index _ _) as [old|]; [|reflexivity].
  destruct (old =? 0); cbv zeta;
    match goal with |- context [if ?c then _ else _] => destruct c end;
    rewrite ?H3, ?H2, ?H1; reflexivity.
Qed.

Lemma plotAll_frame {X : Type} (f : State -> X) (ps : list (option (Z * Z))) :
  (forall v s, f (set_newPixelsSinceLastCheck v s) = f s) ->
  (forall v s, f (set_imageMatrix v s) = f s) ->
  (forall v s, f (set_maxValue v s) = f s) ->
  forall s, f (plotAll ps s) = f s.
Proof.
  intros H1 H2 H3. unfold plotAll.
  induction ps as [|p ps IH]; intros s; simpl; [reflexivity|].
  rewrite IH. apply plotPixel_frame; assumption.
Qed.

Lemma updateMatrix_keeps {X : Type} (f : State -> X) :
  (forall v s, f (set_prevIndex v s) = f s) ->
  (forall v s, f (set_currentPoint v s) = f s) ->
  (forall v s, f (set_newPixelsSinceLastCheck v s) = f s) ->
  (forall v s, f (set_imageMatrix v s) = f s) ->
  (forall v s, f (set_maxValue v s) = f s) ->
  keeps (fun w => f (state w)) updateMatrix.
Proof.
  intros H1 H2 H3 H4 H5. unfold updateMatrix.
  apply keeps_bind; [apply updateCurrentPoint_keeps; assumption | intros _].
  apply keeps_modify. intros s. apply plotAll_frame; assumption.
Qed.

Lemma updateMatrix_ok (w : World) :
  walkReady (state w) ->
  exists k w',
    (k < length (vertices (state w)))%nat
    /\ chooseIndex (state w) w
       = (Normal (Some k), set_random (rng_tail (random w)) w)
    /\ updateMatrix w = (Normal tt, w')
    /\ prevIndex (state w') = pushHistory (prevIndex (state w)) (Some k)
    /\ random w' = rng_tail (random w)
    /\ walkReady (state w')
    /\ settings (state w') = settings (state w)
    /\ allowedMoves (state w') = allowedMoves (state w)
    /\ vertices (state w') = vertices (state w).
Proof.
  intros Hready.
  destruct (updateCurrentPoint_ok w Hready)
    as (k & w1 & Hk & Hc & Hu & Hp & Hr & (R1 & R2 & R3 & R4)).
  exists k. eexists. split; [exact Hk|]. split; [exact Hc|].
  split; [unfold updateMatrix, bind; rewrite Hu; reflexivity|].
  pose proof (updateCurrentPoint_keeps settings
                ltac:(reflexivity) ltac:(reflexivity) w) as Ks.
  pose proof (updateCurrentPoint_keeps allowedMoves
                ltac:(reflexivity) ltac:(reflexivity) w) as Ka.
  pose proof (updateCurrentPoint_keeps vertices
                ltac:(reflexivity) ltac:(reflexivity) w) as Kv.
  rewrite Hu in Ks, Ka, Kv. simpl in Ks, Ka, Kv. simpl.
  set (s2 := plotAll _ (state w1)).
  assert (prevIndex s2 = prevIndex (state w1)) as E1
    by (apply (plotAll_frame prevIndex); reflexivity).
  assert (settings s2 = settings (state w1)) as E2
    by (apply (plotAll_frame settings); reflexivity).
  assert (allowedMoves s2 = allowedMoves (state w1)) as E3
    by (apply (plotAll_frame allowedMoves); reflexivity).
  assert (vertices s2 = vertices (state w1)) as E4
    by (apply (plotAll_frame vertices); reflexivity).
  split; [congruence|]. split; [exact Hr|].
  split; [unfold walkReady; rewrite E1, E3, E4; auto|].
  split; [congruence|]. split; congruence.
Qed.

Lemma randomBelow_zero01 (n : nat) : randomBelow zero01 n = 0%nat.
Proof.
  unfold randomBelow. simpl. rewrite Rmult_0_l.
  rewrite (Math_floor_unique 0 0); [reflexivity | simpl; lra].
Qed.

(** ** C3: what a live settings change does *)

Lemma updateSetting_plain (kv : setting) (w : World) :
  includes ["bgColor"; "fgColor"; "solidBg"] (keyOf kv) = false ->
  includes ["gammaExponent"; "drawCircle"; "drawPolygon"] (keyOf kv) = false ->
  kv <> Set_liveRendering true ->
  updateSetting kv w
  = (Normal tt, set_state (set_settings (assign kv (settings (state w))) (state w)) w).
Proof.
  intros H1 H2 H3. unfold updateSetting. rewrite H1, H2.
  unfold bind at 1. unfold modify at 1. cbv beta iota.
  assert (match kv with
          | Set_liveRendering true => @ret bool true
          | _ => ret false
          end = ret false) as ->.
  { destruct kv; try reflexivity. destruct v; [congruence | reflexivity]. }
  reflexivity.
Qed.





(** ** C5: [no-return] *)

(** What a [no-return] run keeps true from step to step. *)
Lemma no_return_step (w : World) :
  Settings.restriction (settings (state w)) = "no-return" ->
  walkReady (state w) ->
  allowedMoves (state w) = allowedMoves (buildRestrictions (state w)) ->
  exists k w',
    updateMatrix w = (Normal tt, w')
    /\ prevIndex (state w') = pushHistory (prevIndex (state w)) (Some k)
    /\ Settings.restriction (settings (state w')) = "no-return"
    /\ walkReady (state w')
    /\ allowedMoves (state w') = allowedMoves (buildRestrictions (state w'))
    /\ (forall a,
          at_back (prevIndex (state w)) 2 = Some (Some a) ->
          In k (allowedFrom (settings (state w)) (length (vertices (state w))) a)
          /\ k <> a).
Proof.
  intros Hrule Hready Htable.
  destruct (updateMatrix_ok w Hready)
    as (k & w' & Hk & Hc & Hu & Hp & _ & Hready' & Hs & Ha & Hv).
  exists k, w'. split; [exact Hu|]. split; [exact Hp|].
  split; [congruence|]. split; [exact Hready'|].
  split.
  { unfold buildRestrictions in *. simpl in *. rewrite Ha, Hs, Hv. exact Htable. }
  intros a Hback.
  assert (2 <= length (prevIndex (state w)))%nat as Hlen.
  { unfold at_back in Hback.
    destruct (Nat.ltb_spec (length (prevIndex (state w))) 2); [discriminate | lia]. }
  assert (movesFreely (state w) = false) as Hfree.
  { unfold movesFreely. rewrite Hrule.
    destruct (Nat.eqb_spec (length (prevIndex (state w))) 0); [lia|].
    destruct (Nat.ltb_spec (length (prevIndex (state w))) 2); [lia|].
    reflexivity. }
  assert (lookback (state w) = 2%nat) as Hlb by (unfold lookback; rewrite Hrule; reflexivity).
  destruct Hready as (_ & _ & _ & Hhist).
  destruct (Hhist _ (at_back_In _ _ _ Hback)) as (a' & Ea & Hlt). injection Ea as <-.
  assert (allowedMoves (state w) !! a
          = Some (allowedFrom (settings (state w)) (length (vertices (state w))) a)) as Hrow.
  { rewrite Htable. apply buildRestrictions_lookup. exact Hlt. }
  rewrite (chooseIndex_restricted (state w) w a
             (allowedFrom (settings (state w)) (length (vertices (state w))) a) Hfree)
    in Hc; [| rewrite Hlb; exact Hback | exact Hrow].
  injection Hc as Hc.
  assert (In k (allowedFrom (settings (state w)) (length (vertices (state w))) a)) as Hin.
  { apply list_elem_of_In. eapply list_elem_of_lookup_2. exact Hc. }
  split; [exact Hin|].
  apply allowedFrom_self in Hin; [lia|]. right. right. exact Hrule.
Qed.

Lemma chosenIndices_no_return (m : nat) :
  forall (w : World),
    Settings.restriction (settings (state w)) = "no-return" ->
    walkReady (state w) ->
    allowedMoves (state w) = allowedMoves (buildRestrictions (state w)) ->
    length (chosenIndices m w) = m
    /\ (forall c, In c (chosenIndices m w) -> c <> None)
    /\ (forall a b,
          at_back (prevIndex (state w)) 1 = Some (Some a) ->
          chosenIndices m w !! 1%nat = Some (Some b) -> b <> a)
    /\ (forall a b,
          at_back (prevIndex (state w)) 2 = Some (Some a) ->
          chosenIndices m w !! 0%nat = Some (Some b) -> b <> a)
    /\ (forall k a b,
          chosenIndices m w !! k = Some (Some a) ->
          chosenIndices m w !! (k + 2)%nat = Some (Some b) -> b <> a).
Proof.
  induction m as [|m IH]; intros w Hrule Hready Htable.
  - simpl. repeat split; intros; try discriminate; contradiction.
  - destruct (no_return_step w Hrule Hready Htable)
      as (k & w' & Hu & Hp & Hrule' & Hready' & Htable' & Hstep).
    destruct (IH w' Hrule' Hready' Htable') as (IHlen & IHsome & IH1 & IH0 & IHk).
    simpl. rewrite Hu. rewrite Hp, pushHistory_last. simpl.
    split; [rewrite IHlen; reflexivity|].
    split; [intros c [<-|Hc]; [discriminate | apply IHsome; exact Hc]|].
    split.
    { intros a b Hback Hb. apply (IH0 a b); [|exact Hb].
      rewrite Hp, pushHistory_before by lia. exact Hback. }
    split.
    { intros a b Hback Hb. injection Hb as <-. apply (Hstep a Hback). }
    intros [|i] a b Ha Hb; simpl in Ha, Hb.
    + injection Ha as <-. apply (IH1 k b); [|exact Hb].
      rewrite Hp. apply pushHistory_last.
    + apply (IHk i a b); assumption.
Qed.

Lemma filter_NoDup {A : Type} (f : A -> bool) (l : list A) :
  NoDup l -> NoDup (List.filter f l).
Proof.
  induction 1 as [|a l Hnotin Hnodup IH]; simpl.
  - constructor.
  - destruct (f a); [|exact IH].
    constructor; [|exact IH].
    intros Hin. apply Hnotin. apply list_elem_of_In in Hin.
    apply filter_In in Hin as [Hin _]. apply list_elem_of_In. exact Hin.
Qed.

Lemma allowedFrom_NoDup (st : Settings.t) (n i : nat) : NoDup (allowedFrom st n i).
Proof.
  unfold allowedFrom.
  destruct (includes _ _); [|destruct (includes _ _)];
    try apply filter_NoDup; apply NoDup_seq.
Qed.

Lemma setup_table_consistent (st : Settings.t) (w : World) :
  offscreenCanvas w <> None ->
  let s' := state (snd (setup st w)) in
  allowedMoves s' = allowedMoves (buildRestrictions s').
Proof.
  intros Hc s'.
  destruct (setup_geometry st w Hc) as [Hv Ha]. fold s' in Hv, Ha.
  assert (settings s' = st) as Hst by apply setup_settings.
  unfold buildRestrictions. simpl. rewrite Hst, Hv. exact Ha.
Qed.

(** C5, as the code has it.  In a run under [no-return] whose table is
    the one built for that rule, as [setup] leaves it: once the history has a second-to-last entry [a], the step draws its
    vertex from the row of [a], as the element at index
    [floor (random * length)]; that row does not hold [a] and holds no vertex
    twice, and each of its indices is drawn on an interval of random values
    of the same length; the run never throws and never chooses
    [undefined]; and the vertex chosen at step [k + 2] differs from the one
    chosen at step [k]. *)
Theorem no_return_never_returns (w : World) (m : nat) :
  Settings.restriction (settings (state w)) = "no-return" ->
  walkReady (state w) ->
  allowedMoves (state w) = allowedMoves (buildRestrictions (state w)) ->
  let row a := allowedFrom (settings (state w)) (length (vertices (state w))) a in
  let run := chosenIndices m w in
  (forall a,
     at_back (prevIndex (state w)) 2 = Some (Some a) ->
     chooseIndex (state w) w
     = (Normal (row a !! randomBelow (random w O) (length (row a))),
        set_random (rng_tail (random w)) w)
     /\ ~ In a (row a)
     /\ NoDup (row a)
     /\ (forall (u : unit01) (k : nat),
           (k < length (row a))%nat ->
           randomBelow u (length (row a)) = k
           <-> (INR k / INR (length (row a)) <= uval u
                < (INR k + 1) / INR (length (row a)))%R))
  /\ length run = m
  /\ (forall c, In c run -> c <> None)
  /\ (forall k a b,
        run !! k = Some (Some a) -> run !! (k + 2)%nat = Some (Some b) -> b <> a).
Proof.
  intros Hrule Hready Htable row run.
  split.
  - intros a Hback.
    assert (2 <= length (prevIndex (state w)))%nat as Hlen.
    { unfold at_back in Hback.
      destruct (Nat.ltb_spec (length (prevIndex (state w))) 2); [discriminate | lia]. }
    assert (movesFreely (state w) = false) as Hfree.
    { unfold movesFreely. rewrite Hrule.
      destruct (Nat.eqb_spec (length (prevIndex (state w))) 0); [lia|].
      destruct (Nat.ltb_spec (length (prevIndex (state w))) 2); [lia|].
      reflexivity. }
    assert (lookback (state w) = 2%nat) as Hlb
      by (unfold lookback; rewrite Hrule; reflexivity).
    destruct Hready as (_ & _ & _ & Hhist).
    destruct (Hhist _ (at_back_In _ _ _ Hback)) as (a' & Ea & Hlt). injection Ea as <-.
    split.
    + apply (chooseIndex_restricted (state w) w a); [exact Hfree | rewrite Hlb; exact Hback |].
      rewrite Htable. apply buildRestrictions_lookup. exact Hlt.
    + split; [|split].
      * intros Hin. apply allowedFrom_self in Hin; [lia|]. right. right. exact Hrule.
      * apply allowedFrom_NoDup.
      * intros u k Hk. apply randomBelow_uniform. lia.
  - destruct (chosenIndices_no_return m w Hrule Hready Htable)
      as (Hlen & Hsome & _ & _ & Hk).
    split; [exact Hlen|]. split; [exact Hsome | exact Hk].
Qed.

Lemma no_return_never_returns_witness :
  length (chosenIndices 5 (snd (setup noReturnTriangle world0))) = 5%nat.
Proof.
  destruct (setup_ok noReturnTriangle world0) as (w' & E & Hready & _).
  - discriminate.
  - unfold noReturnTriangle, triangleSettings, assign, Settings.sides. lia.
  - intros i _. apply allowedFrom_nonempty. unfold vertexCount. simpl. lia.
  - intros e [].
  - assert (w' = snd (setup noReturnTriangle world0)) as Ew by (rewrite E; reflexivity).
    rewrite <- Ew.
    assert (Settings.restriction (settings (state w')) = "no-return") as Hrule
      by (rewrite Ew, setup_settings; reflexivity).
    assert (allowedMoves (state w') = allowedMoves (buildRestrictions (state w')))
      as Htable by (rewrite Ew; apply setup_table_consistent; discriminate).
    destruct (no_return_never_returns w' 5 Hrule Hready Htable) as (_ & Hlen & _).
    exact Hlen.
Defined.

Lemma stale_no_return_steps (w1 : World) :
  walkReady (state w1) ->
  prevIndex (state w1) = [] ->
  settings (state w1) = triangleSettings ->
  length (vertices (state w1)) = 3%nat ->
  allowedMoves (state w1) = [[0; 1; 2]; [0; 1; 2]; [0; 1; 2]]%nat ->
  let w2 := snd (updateSetting (Set_restriction "no-return") w1) in
  let w3 := set_random (fun _ => zero01) w2 in
  Settings.restriction (settings (state w3)) = "no-return"
  /\ walkReady (state w3)
  /\ allowedMoves (state w3) = [[0; 1; 2]; [0; 1; 2]; [0; 1; 2]]%nat
  /\ allowedMoves (buildRestrictions (state w3)) = [[1; 2]; [0; 2]; [0; 1]]%nat
  /\ chosenIndices 3 w3 = [Some 0; Some 0; Some 0]%nat.
Proof.
  intros Hready1 Hprev1 Hst1 Hv1 Ha1 w2 w3.
  assert (state w2 = set_settings (assign (Set_restriction "no-return")
                                     (settings (state w1))) (state w1)) as Hw2.
  { subst w2. rewrite updateSetting_plain; [reflexivity | reflexivity | reflexivity |].
    discriminate. }
  assert (state w3 = state w2) as Hw3 by reflexivity.
  assert (random w3 = fun _ => zero01) as Hrnd3 by reflexivity.
  clearbody w3. clearbody w2.
  assert (allowedMoves (state w3) = [[0; 1; 2]; [0; 1; 2]; [0; 1; 2]]%nat) as Ha3
    by (rewrite Hw3, Hw2; exact Ha1).
  assert (allowedMoves (buildRestrictions (state w3)) = [[1; 2]; [0; 2]; [0; 1]]%nat) as Hb3.
  { rewrite Hw3, Hw2. unfold buildRestrictions. simpl. rewrite Hv1, Hst1. reflexivity. }
  assert (Settings.restriction (settings (state w3)) = "no-return") as Hr3
    by (rewrite Hw3, Hw2; reflexivity).
  assert (walkReady (state w3)) as Hready3 by (rewrite Hw3, Hw2; exact Hready1).
  assert (prevIndex (state w3) = []) as Hp3 by (rewrite Hw3, Hw2; exact Hprev1).
  split; [exact Hr3|]. split; [exact Hready3|]. split; [exact Ha3|]. split; [exact Hb3|].
  (* first step: the history is empty *)
  destruct (updateMatrix_ok w3 Hready3)
    as (k1 & w4 & _ & Hc1 & Hu1 & Hp4 & Hrnd4 & Hready4 & Hs4 & Ha4 & _).
  rewrite chooseIndex_free in Hc1 by (apply movesFreely_empty; exact Hp3).
  assert (k1 = 0%nat) as ->.
  { injection Hc1 as Hk. rewrite <- Hk, Hrnd3. apply randomBelow_zero01. }
  rewrite Hp3 in Hp4. change (pushHistory [] (Some 0%nat)) with [Some 0%nat] in Hp4.
  assert (Settings.restriction (settings (state w4)) = "no-return") as Hr4
    by (rewrite Hs4; exact Hr3).
  assert (random w4 = fun _ => zero01) as Hz4 by (rewrite Hrnd4, Hrnd3; reflexivity).
  (* second step: one entry, still free under no-return *)
  destruct (updateMatrix_ok w4 Hready4)
    as (k2 & w5 & _ & Hc2 & Hu2 & Hp5 & Hrnd5 & Hready5 & Hs5 & Ha5 & _).
  rewrite chooseIndex_free in Hc2
    by (unfold movesFreely; rewrite Hp4, Hr4; reflexivity).
  assert (k2 = 0%nat) as ->.
  { injection Hc2 as Hk. rewrite <- Hk, Hz4. apply randomBelow_zero01. }
  rewrite Hp4 in Hp5.
  change (pushHistory [Some 0%nat] (Some 0%nat)) with [Some 0%nat; Some 0%nat] in Hp5.
  assert (Settings.restriction (settings (state w5)) = "no-return") as Hr5
    by (rewrite Hs5; exact Hr4).
  assert (random w5 = fun _ => zero01) as Hz5 by (rewrite Hrnd5, Hz4; reflexivity).
  (* third step: the row of the second-to-last entry, from the stale table *)
  destruct (updateMatrix_ok w5 Hready5)
    as (k3 & w6 & _ & Hc3 & Hu3 & Hp6 & _).
  assert (movesFreely (state w5) = false) as Hfree
    by (unfold movesFreely; rewrite Hp5, Hr5; reflexivity).
  assert (lookback (state w5) = 2%nat) as Hlb by (unfold lookback; rewrite Hr5; reflexivity).
  rewrite (chooseIndex_restricted (state w5) w5 0%nat [0; 1; 2]%nat Hfree) in Hc3;
    [| rewrite Hlb, Hp5; reflexivity | rewrite Ha5, Ha4, Ha3; reflexivity].
  assert (k3 = 0%nat) as ->.
  { rewrite Hz5 in Hc3. rewrite randomBelow_zero01 in Hc3. simpl in Hc3. congruence. }
  rewrite Hp5 in Hp6.
  change (pushHistory [Some 0%nat; Some 0%nat] (Some 0%nat))
    with [Some 0%nat; Some 0%nat; Some 0%nat] in Hp6.
  cbn [chosenIndices]. rewrite Hu1, Hu2, Hu3, Hp4, Hp5, Hp6. reflexivity.
Qed.

(** The counterexample to C5 as stated.  A triangle is set up without
    restriction, and [updateSetting] then changes [restriction] to
    [no-return]: the rule is in force, the walk can step, but the table is
    still the one built for [none], whose rows hold every vertex.  With
    random draws 0 the next three steps all choose vertex 0, so the third
    step returns to the vertex of the first. *)
Lemma no_return_on_stale_table :
  let w1 := snd (setup triangleSettings world0) in
  let w2 := snd (updateSetting (Set_restriction "no-return") w1) in
  let w3 := set_random (fun _ => zero01) w2 in
  initialised w3
  /\ Settings.restriction (settings (state w3)) = "no-return"
  /\ walkReady (state w3)
  /\ allowedMoves (state w3) = [[0; 1; 2]; [0; 1; 2]; [0; 1; 2]]%nat
  /\ allowedMoves (buildRestrictions (state w3)) = [[1; 2]; [0; 2]; [0; 1]]%nat
  /\ chosenIndices 3 w3 = [Some 0; Some 0; Some 0]%nat
  /\ ~ noReturnInEveryRun.
Proof.
  intros w1.
  assert (initialised w1) as Hinit1 by (apply initialised_setup; discriminate).
  destruct (setup_ok triangleSettings world0) as (w1' & E1 & Hready1 & Herased).
  { discriminate. }
  { unfold triangleSettings, Settings.sides. lia. }
  { apply rowsNonEmpty_none; [reflexivity | unfold triangleSettings, Settings.sides; lia]. }
  { intros e []. }
  destruct (Herased eq_refl) as [Hprev1 _].
  destruct (setup_geometry triangleSettings world0 ltac:(discriminate)) as [Hv1 Ha1].
  assert (w1' = w1) as -> by (subst w1; rewrite E1; reflexivity).
  fold w1 in Hv1, Ha1.
  assert (settings (state w1) = triangleSettings) as Hst1 by apply setup_settings.
  clearbody w1.
  change (vertexCount triangleSettings) with 3%nat in Hv1, Ha1.
  change (map (allowedFrom triangleSettings 3) (seq 0 3))
    with [[0; 1; 2]; [0; 1; 2]; [0; 1; 2]]%nat in Ha1.
  pose proof (stale_no_return_steps w1 Hready1 Hprev1 Hst1 Hv1 Ha1)
    as (H1 & H2 & H3 & H4 & H5).
  intros w2 w3.
  assert (initialised w3) as Hinit3.
  { apply initialised_random.
    apply (initialised_message (updateSettingMsg (Set_restriction "no-return")) w1 Hinit1). }
  split; [exact Hinit3|].
  split; [exact H1|]. split; [exact H2|]. split; [exact H3|]. split; [exact H4|].
  split; [exact H5|].
  intros Hclaim.
  apply (Hclaim w3 3%nat Hinit3 H1 H2 0%nat 0%nat 0%nat); [| | reflexivity].
  - cbv zeta in H5. fold w2 w3 in H5. rewrite H5. reflexivity.
  - cbv zeta in H5. fold w2 w3 in H5. rewrite H5. reflexivity.
Qed.

(** ** C6: hit counts and the running maximum *)

Lemma fround_increment (c : Z) :
  0 <= c <= 2 ^ 24 -> c <= fround (c + 1) <= 2 ^ 24.
Proof.
  intros Hc. unfold fround.
  rewrite Z.abs_eq by lia.
  destruct (Z.ltb_spec (c + 1) (2 ^ 24)) as [H|H]; [lia|].
  assert (c = 2 ^ 24 - 1 \/ c = 2 ^ 24) as [-> | ->] by lia; vm_compute; split; discriminate.
Qed.

Lemma plotPixel_monotone (p : option (Z * Z)) (s : State) :
  cellsInRange s ->
  let s' := plotPixel p s in
  cellsInRange s'
  /\ length (imageMatrix s') = length (imageMatrix s)
  /\ (forall i c, imageMatrix s !! i = Some c ->
        exists c', imageMatrix s' !! i = Some c' /\ c <= c')
  /\ maxValue s <= maxValue s'
  /\ (maxValue s' = maxValue s
      \/ exists i old,
           imageMatrix s !! i = Some old
           /\ maxValue s < old + 1 /\ maxValue s' = old + 1).
Proof.
  intros Hcells. unfold plotPixel.
  assert (cellsInRange s /\ length (imageMatrix s) = length (imageMatrix s)
          /\ (forall i c, imageMatrix s !! i = Some c ->
                exists c', imageMatrix s !! i = Some c' /\ c <= c')
          /\ maxValue s <= maxValue s
          /\ (maxValue s = maxValue s
              \/ exists i old,
                   imageMatrix s !! i = Some old
                   /\ maxValue s < old + 1 /\ maxValue s = old + 1)) as Hsame.
  { split; [exact Hcells|]. split; [reflexivity|].
    split; [intros i c Hi; exists c; split; [exact Hi | lia]|].
    split; [lia | left; reflexivity]. }
  destruct p as [[x y]|]; [|exact Hsame].
  set (index := y * Settings.canvasSize (settings s) + x).
  unfold at_index.
  destruct (index <? 0); [exact Hsame|].
  destruct (imageMatrix s !! Z.to_nat index) as [old|] eqn:Hold; [|exact Hsame].
  clear Hsame. cbv zeta.
  set (s1 := if old =? 0 then _ else s).
  assert (imageMatrix s1 = imageMatrix s) as E1 by (subst s1; destruct (old =? 0); reflexivity).
  assert (maxValue s1 = maxValue s) as E2 by (subst s1; destruct (old =? 0); reflexivity).
  clearbody s1.
  set (s2 := set_imageMatrix _ s1).
  assert (imageMatrix s2 = <[Z.to_nat index := fround (old + 1)]> (imageMatrix s)) as E3
    by (subst s2; simpl; rewrite E1; reflexivity).
  assert (maxValue s2 = maxValue s) as E4 by (subst s2; simpl; exact E2).
  clearbody s2.
  assert (0 <= old <= 2 ^ 24) as Hold_range.
  { unfold cellsInRange in Hcells. rewrite Forall_forall in Hcells.
    apply Hcells. eapply list_elem_of_lookup_2. exact Hold. }
  pose proof (fround_increment old Hold_range) as Hf.
  assert (imageMatrix (if maxValue s2 <? old + 1 then set_maxValue (old + 1) s2 else s2)
          = <[Z.to_nat index := fround (old + 1)]> (imageMatrix s)) as E5
    by (destruct (maxValue s2 <? old + 1); simpl; exact E3).
  split; [|split; [|split; [|split]]].
  - unfold cellsInRange. rewrite E5. apply Forall_insert; [exact Hcells | lia].
  - rewrite E5. apply length_insert.
  - intros i c Hi. rewrite E5.
    destruct (Nat.eq_dec i (Z.to_nat index)) as [->|Hne].
    + exists (fround (old + 1)). split.
      * apply list_lookup_insert_eq. eapply lookup_lt_Some. exact Hi.
      * rewrite Hold in Hi. injection Hi as <-. lia.
    + exists c. split; [rewrite list_lookup_insert_ne by congruence; exact Hi | lia].
  - destruct (Z.ltb_spec (maxValue s2) (old + 1)); simpl; lia.
  - destruct (Z.ltb_spec (maxValue s2) (old + 1)); simpl.
    + right. exists (Z.to_nat index), old. repeat split; [exact Hold | lia].
    + left. exact E4.
Qed.

Lemma plotAll_monotone (ps : list (option (Z * Z))) :
  forall s,
    cellsInRange s ->
    let s' := plotAll ps s in
    cellsInRange s'
    /\ length (imageMatrix s') = length (imageMatrix s)
    /\ (forall i c, imageMatrix s !! i = Some c ->
          exists c', imageMatrix s' !! i = Some c' /\ c <= c')
    /\ maxValue s <= maxValue s'.
Proof.
  unfold plotAll. induction ps as [|p ps IH]; intros s Hcells; simpl.
  - repeat split; try assumption; try lia.
    intros i c Hi. exists c. split; [exact Hi | lia].
  - destruct (plotPixel_monotone p s Hcells) as (H1 & H2 & H3 & H4 & _).
    destruct (IH (plotPixel p s) H1) as (I1 & I2 & I3 & I4).
    split; [exact I1|]. split; [congruence|]. split; [|lia].
    intros i c Hi. destruct (H3 i c Hi) as (c1 & Hc1 & Hle1).
    destruct (I3 i c1 Hc1) as (c2 & Hc2 & Hle2).
    exists c2. split; [exact Hc2 | lia].
Qed.

Lemma updateMatrix_monotone (w : World) :
  cellsInRange (state w) ->
  let s := state w in
  let s' := state (snd (updateMatrix w)) in
  cellsInRange s'
  /\ length (imageMatrix s') = length (imageMatrix s)
  /\ (forall i c, imageMatrix s !! i = Some c ->
        exists c', imageMatrix s' !! i = Some c' /\ c <= c')
  /\ maxValue s <= maxValue s'.
Proof.
  intros Hcells. cbv zeta.
  pose proof (updateCurrentPoint_keeps imageMatrix
                ltac:(reflexivity) ltac:(reflexivity) w) as Ki.
  pose proof (updateCurrentPoint_keeps maxValue
                ltac:(reflexivity) ltac:(reflexivity) w) as Km.
  unfold updateMatrix, bind.
  destruct (updateCurrentPoint w) as [[[]|] w1]; simpl in *.
  - assert (cellsInRange (state w1)) as Hcells1
      by (unfold cellsInRange; rewrite Ki; exact Hcells).
    destruct (plotAll_monotone (map roundPoint (plottedPoints (state w1)))
                (state w1) Hcells1) as (H1 & H2 & H3 & H4).
    rewrite Ki in H2, H3. rewrite Km in H4. auto.
  - rewrite Ki, Km.
    split; [unfold cellsInRange; rewrite Ki; exact Hcells|].
    split; [reflexivity|]. split; [|lia].
    intros i c Hi. exists c. split; [exact Hi | lia].
Qed.

(** C6.  Over any number of [updateMatrix] steps, from hit counts as a
    run can have them: the matrix keeps its length, no cell decreases and
    [maxValue] does not decrease; one plotted point changes [maxValue] only
    to the incremented value of a cell that exceeds it; and right after
    [erase] (with the context held) [maxValue] is 1 and every cell is 0. *)
Theorem density_monotone :
  (forall (m : nat) (w : World),
     cellsInRange (state w) ->
     let s := state w in
     let s' := state (afterSteps m w) in
     length (imageMatrix s') = length (imageMatrix s)
     /\ (forall i c, imageMatrix s !! i = Some c ->
           exists c', imageMatrix s' !! i = Some c' /\ c <= c')
     /\ maxValue s <= maxValue s')
  /\ (forall (p : option (Z * Z)) (s : State),
        cellsInRange s ->
        maxValue (plotPixel p s) = maxValue s
        \/ exists i old,
             imageMatrix s !! i = Some old
             /\ maxValue s < old + 1 /\ maxValue (plotPixel p s) = old + 1)
  /\ (forall w : World,
        ctx w = true ->
        let s' := state (snd (erase w)) in
        maxValue s' = 1
        /\ (forall i c, imageMatrix s' !! i = Some c -> c = 0)
        /\ cellsInRange s').
Proof.
  split; [|split].
  - induction m as [|m IH]; intros w Hcells; simpl.
    + repeat split; try lia. intros i c Hi. exists c. split; [exact Hi | lia].
    + destruct (updateMatrix_monotone w Hcells) as (H1 & H2 & H3 & H4).
      destruct (IH (snd (updateMatrix w)) H1) as (I2 & I3 & I4).
      split; [congruence|]. split; [|lia].
      intros i c Hi. destruct (H3 i c Hi) as (c1 & Hc1 & Hle1).
      destruct (I3 i c1 Hc1) as (c2 & Hc2 & Hle2).
      exists c2. split; [exact Hc2 | lia].
  - intros p s Hcells. apply (plotPixel_monotone p s Hcells).
  - intros w Hctx s'.
    destruct (erase_with_ctx w Hctx) as (Hi & Hm & _). fold s' in Hi, Hm.
    split; [exact Hm|].
    assert (forall i c, imageMatrix s' !! i = Some c -> c = 0) as Hzero.
    { intros i c Hc. rewrite Hi in Hc. unfold fill in Hc.
      apply lookup_replicate in Hc as [-> _]. reflexivity. }
    split; [exact Hzero|].
    unfold cellsInRange. apply Forall_forall. intros c Hc.
    apply list_elem_of_lookup in Hc as [i Hc].
    rewrite (Hzero i c Hc). lia.
Qed.

Lemma cellsInRange_zeros (n : nat) (s : State) :
  imageMatrix s = replicate n 0 -> cellsInRange s.
Proof.
  intros E. unfold cellsInRange. rewrite E. apply Forall_forall.
  intros c Hc. apply elem_of_replicate in Hc as [-> _]. split; [lia | discriminate].
Qed.

Lemma density_monotone_witness :
  maxValue blank4 <= maxValue (state (afterSteps 2 (set_state blank4 world0))).
Proof.
  destruct density_monotone as (Hrun & _ & _).
  destruct (Hrun 2%nat (set_state blank4 world0)) as (_ & _ & Hmax).
  - apply (cellsInRange_zeros 16). reflexivity.
  - exact Hmax.
Defined.

(** ** C1: points that round off the canvas *)

(** Whatever the point, the plotting step keeps the matrix at its length:
    nothing is written past the buffer. *)
Lemma plotPixel_length (p : option (Z * Z)) (s : State) :
  length (imageMatrix (plotPixel p s)) = length (imageMatrix s).
Proof.
  unfold plotPixel. destruct p as [[x y]|]; [|reflexivity].
  destruct (at_index _ _) as [old|]; [|reflexivity].
  cbv zeta.
  match goal with |- context [if ?c then set_maxValue _ _ else _] => destruct c end;
    destruct (old =? 0); simpl; apply length_insert.
Qed.

(** On the canvas, the plotting step increments the cell of the point. *)
Lemma plotPixel_on_canvas (x y : Z) (s : State) (n : nat) (old : Z) :
  length (imageMatrix s) = Z.to_nat (Settings.canvasSize (settings s) ^ 2) ->
  cellOf (Settings.canvasSize (settings s)) x y = Some n ->
  imageMatrix s !! n = Some old ->
  imageMatrix (plotPixel (Some (x, y)) s) = <[n := fround (old + 1)]> (imageMatrix s).
Proof.
  intros Hlen Hcell Hold. unfold cellOf in Hcell.
  destruct (_ || _) eqn:Hout; [discriminate|]. injection Hcell as <-.
  apply orb_false_iff in Hout as [Hout Hy2].
  apply orb_false_iff in Hout as [Hout Hy1].
  apply orb_false_iff in Hout as [Hx1 Hx2].
  apply Z.ltb_ge in Hx1, Hy1. apply Z.leb_gt in Hx2, Hy2.
  unfold plotPixel, at_index.
  destruct (Z.ltb_spec (y * Settings.canvasSize (settings s) + x) 0) as [|_]; [nia|].
  rewrite Hold. cbv zeta.
  match goal with |- context [if ?c then set_maxValue _ _ else _] => destruct c end;
    destruct (old =? 0); reflexivity.
Qed.

Lemma Math_round_IZR (z : Z) : Math_round (IZR z) = z.
Proof.
  unfold Math_round. apply (Math_floor_unique _ z). lra.
Qed.

(** Without symmetry one step plots one point: the current point, rounded. *)
Lemma plotted_current_point (s : State) (a b : Z) :
  Settings.symmetrical (settings s) = false ->
  currentPoint s = {| Point.x := IZR a; Point.y := IZR b |} ->
  plotAll (map roundPoint (plottedPoints s)) s = plotPixel (Some (a, b)) s.
Proof.
  intros Hsym Hp. unfold plottedPoints. rewrite Hsym, Hp. simpl.
  rewrite !Math_round_IZR. reflexivity.
Qed.


(** ** C7: the guard of the normaliser *)

Lemma ln_2_pos : (0 < ln 2)%R.
Proof. rewrite <- ln_1. apply ln_increasing; lra. Qed.

Lemma Rpower_1_l (y : R) : Rpower 1 y = 1%R.
Proof. unfold Rpower. rewrite ln_1, Rmult_0_r. apply exp_0. Qed.

Lemma updatePixelData_skips_zeros (s : State) :
  (forall i c, imageMatrix s !! i = Some c -> c = 0) ->
  pixelData (updatePixelDataFromMatrix s) = pixelData s.
Proof.
  intros Hzero. unfold updatePixelDataFromMatrix. simpl.
  generalize (pixelData s) as pd.
  induction (seq 0 (length (imageMatrix s))) as [|i l IH]; intros pd; simpl.
  - reflexivity.
  - rewrite IH. destruct (imageMatrix s !! i) as [v|] eqn:Hv; [|reflexivity].
    rewrite (Hzero i v Hv). reflexivity.
Qed.

(** C7, as the code has it.  [normalizeValue] returns 0 for every hit count
    exactly when the [logMax] it is handed is not positive; for a
    [maxValue] of 1 or more, which is all a run produces, [logMax] is
    positive, so the guard does not fire; and when nothing is plotted the
    normaliser is not reached: every cell is 0 and the pixel buffer is left
    as it is. *)
Theorem normalizeValue_guard :
  (forall (s : State) (rawValue : Z) (logMax : R),
     (logMax <= 0)%R -> normalizeValue s rawValue logMax = 0%R)
  /\ (forall (s : State), 1 <= maxValue s -> (0 < ln (1 + IZR (maxValue s)))%R)
  /\ (forall (s : State),
        (forall i c, imageMatrix s !! i = Some c -> c = 0) ->
        pixelData (updatePixelDataFromMatrix s) = pixelData s).
Proof.
  split; [|split].
  - intros s rawValue logMax H. unfold normalizeValue.
    destruct (Rle_dec logMax 0); [reflexivity | contradiction].
  - intros s H. rewrite <- ln_1. apply ln_increasing; [lra|].
    apply IZR_le in H. lra.
  - exact updatePixelData_skips_zeros.
Qed.

Lemma normalizeValue_guard_witness : normalizeValue blank4 5 0%R = 0%R.
Proof.
  destruct normalizeValue_guard as (H & _).
  apply H. apply Rle_refl.
Defined.

(** The counterexample to C7 as stated: with [maxValue] still 1, a cell
    hit once is normalised to 1, not to 0. *)
Lemma normalizeValue_at_max_one :
  maxValue blank4 <= 1
  /\ normalizeValue blank4 1 (ln (1 + IZR (maxValue blank4))) = 1%R
  /\ ~ degenerateIsZero.
Proof.
  assert (normalizeValue blank4 1 (ln (1 + IZR (maxValue blank4))) = 1%R) as E.
  { unfold normalizeValue. change (maxValue blank4) with 1.
    replace (1 + 1)%R with 2%R by lra.
    destruct (Rle_dec (ln 2) 0) as [H|_]; [pose proof ln_2_pos; lra|].
    replace (ln 2 / ln 2)%R with 1%R by (field; pose proof ln_2_pos; lra).
    unfold pow. destruct (Req_dec_T 1 0); [lra|]. apply Rpower_1_l. }
  split; [simpl; lia|]. split; [exact E|].
  intros H. specialize (H blank4 1 ltac:(simpl; lia)). rewrite E in H. lra.
Qed.

(** ** C10: the threshold the stability check compares with *)

(** C10.  When [stabilityNewPixelsThreshold] is [undefined], [NaN] or 0,
    [checkStability] compares the updated EMA with 1: below 1 the quiet
    counter goes up by one (and the check succeeds once it reaches the
    window), otherwise it goes back to 0.  Whatever is configured, the
    threshold compared with is never 0; a configured number other than 0
    is used as it is. *)
Theorem checkStability_default_threshold :
  (forall s : State,
     falsy (Settings.stabilityNewPixelsThreshold (settings s)) ->
     let ema := (EMA_ALPHA * IZR (newPixelsSinceLastCheck s)
                 + (1 - EMA_ALPHA) * newPixelsEma s)%R in
     let s' := snd (checkStability s) in
     newPixelsEma s' = ema
     /\ ((ema < 1)%R ->
         stabilityCounter s' = stabilityCounter s + 1
         /\ fst (checkStability s) = (STABILITY_WINDOW <=? stabilityCounter s + 1))
     /\ (~ (ema < 1)%R ->
         stabilityCounter s' = 0 /\ fst (checkStability s) = false))
  /\ (forall x : jsnumber, orDefault x 1 <> 0%R)
  /\ (forall x : jsnumber, falsy x -> orDefault x 1 = 1%R)
  /\ (forall r : R, r <> 0%R -> orDefault (RNum r) 1 = r).
Proof.
  assert (forall x : jsnumber, falsy x -> orDefault x 1 = 1%R) as Hfalsy.
  { intros x [-> | [-> | ->]]; try reflexivity.
    simpl. destruct (Req_dec_T 0 0); [reflexivity | contradiction]. }
  split; [|split; [|split]].
  - intros s Hf ema s'. subst s'. unfold checkStability. cbv zeta. simpl.
    rewrite (Hfalsy _ Hf). fold ema.
    destruct (Rlt_dec ema 1) as [Hlt|Hge].
    + simpl. destruct (STABILITY_WINDOW <=? stabilityCounter s + 1) eqn:E;
        simpl; repeat split; try reflexivity; intros; contradiction.
    + simpl. repeat split; try reflexivity; intros; contradiction.
  - intros [| |r]; simpl; try lra. destruct (Req_dec_T r 0); lra.
  - exact Hfalsy.
  - intros r Hr. simpl. destruct (Req_dec_T r 0); [contradiction | reflexivity].
Qed.

Lemma checkStability_default_threshold_witness :
  orDefault (Settings.stabilityNewPixelsThreshold (settings zeroThreshold)) 1 = 1%R.
Proof.
  destruct checkStability_default_threshold as (_ & _ & H & _).
  apply H. right. right. reflexivity.
Defined.

(** ** C8: erase, then render *)

Lemma ToInt32_small (z : Z) : - 2 ^ 31 <= z < 2 ^ 31 -> ToInt32 z = z.
Proof. intros H. unfold ToInt32. rewrite Z.mod_small; lia. Qed.

Lemma top_byte_set (x : Z) : Z.shiftr x 24 = -1 <-> - 2 ^ 24 <= x < 0.
Proof.
  rewrite Z.shiftr_div_pow2 by lia.
  pose proof (Z.div_mod x (2 ^ 24) ltac:(lia)) as Hdm.
  pose proof (Z.mod_pos_bound x (2 ^ 24) ltac:(lia)) as Hm.
  split; intros H; [lia|].
  symmetry. apply (Z.div_unique x (2 ^ 24) (-1) (x + 2 ^ 24)); lia.
Qed.

Lemma bor_top_byte (a b : Z) : - 2 ^ 24 <= a < 0 -> - 2 ^ 24 <= bor a b < 0.
Proof.
  intros Ha. apply top_byte_set. unfold bor.
  rewrite ToInt32_small by lia.
  rewrite Z.shiftr_lor. apply top_byte_set in Ha. rewrite Ha.
  apply Z.lor_m1_l.
Qed.

(** The packed background is opaque: its top byte is set. *)
Lemma bg32_top_byte (c : RGB.t) : - 2 ^ 24 <= bg32 c < 0.
Proof.
  unfold bg32, pack32. repeat apply bor_top_byte.
  change (shl (Num 255) 24) with (-16777216). lia.
Qed.

Lemma bg32_opaque (c : RGB.t) : Z.shiftr (ToUint32 (bg32 c)) 24 = 255.
Proof.
  pose proof (bg32_top_byte c) as H. unfold ToUint32.
  rewrite Z.shiftr_div_pow2 by lia.
  replace (bg32 c mod 2 ^ 32) with (bg32 c + 2 ^ 32).
  - symmetry. apply (Z.div_unique _ (2 ^ 24) 255 (bg32 c + 2 ^ 24)); lia.
  - apply (Z.mod_unique _ (2 ^ 32) (-1)); lia.
Qed.

Lemma lor_disjoint_add (hi lo k : Z) :
  0 <= k -> 0 <= lo < 2 ^ k -> Z.lor (hi * 2 ^ k) lo = hi * 2 ^ k + lo.
Proof.
  intros Hk Hlo. rewrite <- Z.add_lor_land.
  assert (Z.land (hi * 2 ^ k) lo = 0) as ->; [|lia].
  apply Z.bits_inj'. intros n Hn. rewrite Z.land_spec, Z.bits_0.
  destruct (Z.lt_ge_cases n k) as [Hlt|Hge].
  - rewrite Z.mul_pow2_bits_low by lia. reflexivity.
  - assert (Z.testbit lo n = false) as ->; [|apply andb_false_r].
    destruct (Z.eq_dec lo 0) as [->|Hne]; [apply Z.bits_0|].
    apply Z.bits_above_log2; [lia|].
    assert (Z.log2 lo < k) by (apply Z.log2_lt_pow2; lia). lia.
Qed.

(** With channels that are bytes, the packed background is
    [0xFF], blue, green, red from the top byte down. *)
Lemma bg32_bytes (r g b : Z) :
  0 <= r <= 255 -> 0 <= g <= 255 -> 0 <= b <= 255 ->
  ToUint32 (bg32 {| RGB.r := Num r; RGB.g := Num g; RGB.b := Num b |})
  = 255 * 2 ^ 24 + b * 2 ^ 16 + g * 2 ^ 8 + r.
Proof.
  intros Hr Hg Hb.
  assert (bg32 {| RGB.r := Num r; RGB.g := Num g; RGB.b := Num b |}
          = - 2 ^ 24 + b * 2 ^ 16 + g * 2 ^ 8 + r) as E.
  { unfold bg32, pack32, bor, shl. simpl RGB.r. simpl RGB.g. simpl RGB.b.
    unfold jsToInt32.
    change (16 mod 32) with 16. change (8 mod 32) with 8. change (24 mod 32) with 24.
    rewrite !Z.shiftl_mul_pow2 by lia.
    rewrite (ToInt32_small r), (ToInt32_small g), (ToInt32_small b) by lia.
    rewrite (ToInt32_small 255) by lia.
    change (ToInt32 (255 * 2 ^ 24)) with (- 2 ^ 24).
    rewrite (ToInt32_small (b * 2 ^ 16)) by lia.
    rewrite (ToInt32_small (g * 2 ^ 8)) by lia.
    rewrite (ToInt32_small (- 2 ^ 24)) by lia.
    rewrite (ToInt32_small (b * 2 ^ 16)) by lia.
    replace (- 2 ^ 24) with ((-1) * 2 ^ 24) at 1 by lia.
    rewrite lor_disjoint_add by lia.
    rewrite (ToInt32_small (-1 * 2 ^ 24 + b * 2 ^ 16)) by lia.
    rewrite (ToInt32_small (g * 2 ^ 8)) by lia.
    replace (-1 * 2 ^ 24 + b * 2 ^ 16) with ((b - 256) * 2 ^ 16) by lia.
    rewrite lor_disjoint_add by lia.
    rewrite (ToInt32_small ((b - 256) * 2 ^ 16 + g * 2 ^ 8)) by lia.
    rewrite (ToInt32_small r) by lia.
    replace ((b - 256) * 2 ^ 16 + g * 2 ^ 8)
      with (((b - 256) * 2 ^ 8 + g) * 2 ^ 8) by lia.
    rewrite lor_disjoint_add by lia. lia. }
  rewrite E. unfold ToUint32.
  symmetry. apply (Z.mod_unique _ (2 ^ 32) (-1)); lia.
Qed.

(** C8.  With the context held, [erase] followed at once by
    [prepareCanvasForOutput] ends normally and leaves every cell of the
    pixel buffer at the background fill: the packed opaque background colour
    when [solidBg] is set, 0 (fully transparent) when it is not; [erase]
    zeroes every hit count and normalisation leaves the pixel of a zero
    count alone.  The packed background has alpha 255, and for byte
    channels it is [0xFF], blue, green, red. *)
Theorem erase_then_render (w : World) :
  ctx w = true ->
  let s := state w in
  let result := (erase ;; prepareCanvasForOutput) w in
  let s' := state (snd result) in
  fst result = Normal tt
  /\ length (pixelData s') = length (pixelData s)
  /\ (forall i c, imageMatrix s' !! i = Some c -> c = 0)
  /\ (forall i c,
        pixelData s' !! i = Some c ->
        c = if Settings.solidBg (settings s) then ToUint32 (bg32 (bgColor s)) else 0)
  /\ Z.shiftr (ToUint32 (bg32 (bgColor s))) 24 = 255
  /\ (forall r g b,
        bgColor s = {| RGB.r := Num r; RGB.g := Num g; RGB.b := Num b |} ->
        0 <= r <= 255 -> 0 <= g <= 255 -> 0 <= b <= 255 ->
        ToUint32 (bg32 (bgColor s)) = 255 * 2 ^ 24 + b * 2 ^ 16 + g * 2 ^ 8 + r).
Proof.
  intros Hctx s result s'.
  destruct (erase_with_ctx w Hctx) as (Hi & _ & _ & Hp & _).
  pose proof (erase_outcome w) as Ho.
  assert (forall i c, imageMatrix (state (snd (erase w))) !! i = Some c -> c = 0) as Hzero.
  { intros i c Hc. rewrite Hi in Hc. unfold fill in Hc.
    apply lookup_replicate in Hc as [-> _]. reflexivity. }
  assert (result = (Normal tt, set_state (updatePixelDataFromMatrix (state (snd (erase w))))
                                 (snd (erase w)))) as Hres.
  { subst result. unfold bind, prepareCanvasForOutput, modify.
    destruct (erase w) as [[[]|] w1]; [reflexivity | discriminate Ho]. }
  assert (pixelData s' = pixelData (state (snd (erase w)))) as Hpd.
  { subst s'. rewrite Hres. simpl. apply updatePixelData_skips_zeros. exact Hzero. }
  assert (imageMatrix s' = imageMatrix (state (snd (erase w)))) as Him.
  { subst s'. rewrite Hres. reflexivity. }
  split; [rewrite Hres; reflexivity|].
  split; [rewrite Hpd, Hp; unfold fill; apply length_replicate|].
  split; [intros i c Hc; rewrite Him in Hc; apply (Hzero i c Hc)|].
  split.
  { intros i c Hc. rewrite Hpd, Hp in Hc. unfold fill in Hc.
    apply lookup_replicate in Hc as [-> _]. reflexivity. }
  split; [apply bg32_opaque|].
  intros r g b -> Hr Hg Hb. apply bg32_bytes; assumption.
Qed.

Lemma erase_then_render_witness :
  fst ((erase ;; prepareCanvasForOutput) (set_state blank4 world0)) = Normal tt.
Proof.
  destruct (erase_then_render (set_state blank4 world0)) as (H & _).
  - reflexivity.
  - exact H.
Defined.

(** ** A reset onto fewer vertices

    [preDraw] runs the burn-in on the history the run before left behind:
    [erase] comes after it.  When the last entry of that history names a
    vertex the new polygon lacks, the first burn-in step reads a missing
    table row and throws; [erase] is not reached and the history stays. *)

Lemma updateCurrentPoint_missing_row (w : World) (a : nat) :
  movesFreely (state w) = false ->
  at_back (prevIndex (state w)) (lookback (state w)) = Some (Some a) ->
  (length (allowedMoves (state w)) <= a)%nat ->
  updateCurrentPoint w = (TypeError, set_random (rng_tail (random w)) w).
Proof.
  intros Hfree Hback Hlen.
  unfold updateCurrentPoint, bind, getState, chooseIndex.
  rewrite Hfree, Hback. simpl.
  rewrite (lookup_ge_None_2 (allowedMoves (state w)) a) by lia.
  reflexivity.
Qed.

Lemma setup_throws_on_stale_history (st : Settings.t) (w : World) (a : nat) :
  offscreenCanvas w <> None ->
  0 < Settings.sides st ->
  Settings.restriction st = "none" ->
  at_back (prevIndex (state w)) 1 = Some (Some a) ->
  (vertexCount st <= a)%nat ->
  fst (setup st w) = TypeError
  /\ prevIndex (state (snd (setup st w))) = prevIndex (state w).
Proof.
  intros Hc Hsides Hrule Hback Ha.
  rewrite setup_with_canvas by exact Hc.
  set (w0 := beforePreDraw st w).
  assert (prevIndex (state w0) = prevIndex (state w)) as Hp0 by reflexivity.
  destruct (preDrawGeometry_spec w0) as (s1 & Hg & Hst & Hv & Hm & Hal).
  change (settings (state w0)) with st in Hst, Hv, Hm, Hal.
  clearbody w0.
  pose proof (preDrawGeometry_keeps prevIndex
                ltac:(reflexivity) ltac:(reflexivity) ltac:(reflexivity)
                ltac:(reflexivity) ltac:(reflexivity) w0) as Hp1.
  rewrite Hg in Hp1. simpl in Hp1. rewrite Hp0 in Hp1.
  destruct (getRandomPointInShape_ok (set_state s1 w0)) as [p Hrp].
  { simpl. rewrite Hm. lia. }
  assert (exists w3,
            (preDraw ;; erase) w0 = (TypeError, w3)
            /\ prevIndex (state w3) = prevIndex (state w)) as (w3 & E & Hp3).
  { unfold preDraw.
    unfold bind at 1. unfold bind at 1. rewrite Hg.
    unfold bind at 1. rewrite Hrp.
    unfold bind at 1. unfold modify at 1. cbv beta iota.
    set (w3 := set_state _ _).
    assert (prevIndex (state w3) = prevIndex (state w)) as Hp3 by (subst w3; exact Hp1).
    assert (settings (state w3) = st) as Hst3 by (subst w3; exact Hst).
    assert (length (allowedMoves (state w3)) = vertexCount st) as Hal3.
    { subst w3. simpl. rewrite Hal, length_map, length_seq. reflexivity. }
    assert (1 <= length (prevIndex (state w)))%nat as Hlen.
    { unfold at_back in Hback.
      destruct (Nat.ltb_spec (length (prevIndex (state w))) 1); [discriminate | lia]. }
    assert (movesFreely (state w3) = false) as Hfree.
    { unfold movesFreely. rewrite Hp3, Hst3, Hrule.
      destruct (Nat.eqb_spec (length (prevIndex (state w))) 0); [lia | reflexivity]. }
    assert (lookback (state w3) = 1%nat) as Hlb
      by (unfold lookback; rewrite Hst3, Hrule; reflexivity).
    clearbody w3.
    unfold burnIn, DEFAULT_BURN_IN_COUNT.
    change (forRange 0 300 (fun _ => updateCurrentPoint))
      with (bind updateCurrentPoint
              (fun _ => forRange 1 299 (fun _ => updateCurrentPoint))).
    unfold bind at 1.
    rewrite (updateCurrentPoint_missing_row w3 a Hfree);
      [| rewrite Hlb, Hp3; exact Hback | lia].
    eexists. split; [reflexivity | exact Hp3]. }
  rewrite E. split; reflexivity || exact Hp3.
Qed.

(** ** C1 from set-up on: the square that touches the border *)

Lemma mainVertex_shift (st : Settings.t) (rad : R) (c : Point.t) (angle : R) (j : nat) :
  mainVertex st rad c (angle + 2 * PI / IZR (Settings.sides st)) j
  = mainVertex st rad c angle (S j).
Proof.
  unfold mainVertex. cbv zeta. rewrite S_INR.
  replace (angle + 2 * PI / IZR (Settings.sides st)
           + INR j * (2 * PI / IZR (Settings.sides st)))%R
    with (angle + (INR j + 1) * (2 * PI / IZR (Settings.sides st)))%R by ring.
  reflexivity.
Qed.

Lemma polygonLoop_vertices (st : Settings.t) (rad : R) (c : Point.t) (n : nat) :
  forall (i : Z) (angle : R) (s : State),
    vertices (polygonLoop st rad c n i angle s)
    = vertices s ++ map (mainVertex st rad c angle) (seq 0 n).
Proof.
  induction n as [|n IH]; intros i angle s; simpl.
  - rewrite app_nil_r. reflexivity.
  - rewrite IH. simpl. rewrite <- app_assoc. simpl. f_equal. f_equal.
    + unfold mainVertex. cbv zeta. simpl INR.
      rewrite Rmult_0_l, Rplus_0_r. reflexivity.
    + rewrite <- seq_shift, map_map. apply map_ext. intros j.
      apply mainVertex_shift.
Qed.

Lemma preDrawGeometry_plain (w : World) :
  let s := state w in
  Settings.midpointVertex (settings s) = false ->
  Settings.centerVertex (settings s) = false ->
  vertices (state (snd (preDrawGeometry w)))
  = map (mainVertex (settings s) (radius s) (center s) (- PI / 2))
      (seq 0 (Z.to_nat (Settings.sides (settings s)))).
Proof.
  intros s Hmid Hcen. unfold preDrawGeometry.
  unfold bind at 1. unfold getState at 1. cbv beta iota zeta. fold s.
  rewrite Hmid, Hcen.
  unfold bind, modify, ret. simpl.
  rewrite polygonLoop_vertices. reflexivity.
Qed.

(** What [setup] leaves of the state [preDraw] had built the geometry in:
    everything that the random start, the burn-in and [erase] do not
    write. *)
Lemma setup_after_geometry {X : Type} (f : State -> X) (st : Settings.t) (w : World) :
  offscreenCanvas w <> None ->
  (forall v s, f (set_currentPoint v s) = f s) ->
  (forall v s, f (set_imageMatrix v s) = f s) ->
  (forall v s, f (set_maxValue v s) = f s) ->
  (forall v s, f (set_prevIndex v s) = f s) ->
  (forall v s, f (set_iterations v s) = f s) ->
  (forall v s, f (set_stabilityCounter v s) = f s) ->
  (forall v s, f (set_newPixelsSinceLastCheck v s) = f s) ->
  (forall v s, f (set_newPixelsEma v s) = f s) ->
  (forall v s, f (set_filledPixels v s) = f s) ->
  (forall v s, f (set_pixelData v s) = f s) ->
  f (state (snd (setup st w)))
  = f (state (snd (preDrawGeometry (beforePreDraw st w)))).
Proof.
  intros Hc F1 F2 F3 F4 F5 F6 F7 F8 F9 F10.
  rewrite setup_with_canvas by exact Hc.
  set (w0 := beforePreDraw st w). clearbody w0.
  unfold preDraw. unfold bind at 1. unfold bind at 1.
  destruct (preDrawGeometry w0) as [[[]|] w1]; [|reflexivity].
  set (rest := bind getRandomPointInShape _).
  assert (keeps (fun w => f (state w)) rest) as Hrest.
  { subst rest.
    apply keeps_bind; [apply getRandomPointInShape_keeps | intros p].
    apply keeps_bind; [apply keeps_modify; auto | intros _].
    apply burnIn_keeps; assumption. }
  specialize (Hrest w1).
  destruct (rest w1) as [[[]|] w2]; simpl in *.
  - rewrite (erase_keeps f) by assumption. exact Hrest.
  - exact Hrest.
Qed.

Lemma plotPixel_counted (x y : Z) (s : State) (old : Z) :
  let index := y * Settings.canvasSize (settings s) + x in
  0 <= index ->
  imageMatrix s !! Z.to_nat index = Some old ->
  imageMatrix (plotPixel (Some (x, y)) s)
  = <[Z.to_nat index := fround (old + 1)]> (imageMatrix s).
Proof.
  intros index Hpos Hold. unfold plotPixel, at_index. fold index.
  destruct (Z.ltb_spec index 0) as [|_]; [lia|].
  rewrite Hold. cbv zeta.
  match goal with |- context [if ?c then set_maxValue _ _ else _] => destruct c end;
    destruct (old =? 0); reflexivity.
Qed.

Lemma plotPixel_dropped (x y : Z) (s : State) :
  at_index (imageMatrix s) (Some (y * Settings.canvasSize (settings s) + x)) = None ->
  plotPixel (Some (x, y)) s = s.
Proof. intros H. unfold plotPixel. rewrite H. reflexivity. Qed.

Lemma updateCurrentPoint_moves (w : World) (k : nat) (v : Point.t) :
  chooseIndex (state w) w = (Normal (Some k), set_random (rng_tail (random w)) w) ->
  vertices (state w) !! k = Some v ->
  let s := state w in
  let s' := state (snd (updateCurrentPoint w)) in
  let jump := Settings.jumpDistance (settings s) in
  fst (updateCurrentPoint w) = Normal tt
  /\ currentPoint s'
     = {| Point.x := (Point.x (currentPoint s)
                      + (Point.x v - Point.x (currentPoint s)) * jump)%R;
          Point.y := (Point.y (currentPoint s)
                      + (Point.y v - Point.y (currentPoint s)) * jump)%R |}.
Proof.
  intros Hc Hv. cbv zeta.
  assert (exists w',
            updateCurrentPoint w = (Normal tt, w')
            /\ currentPoint (state w')
               = {| Point.x := (Point.x (currentPoint (state w))
                                + (Point.x v - Point.x (currentPoint (state w)))
                                  * Settings.jumpDistance (settings (state w)))%R;
                    Point.y := (Point.y (currentPoint (state w))
                                + (Point.y v - Point.y (currentPoint (state w)))
                                  * Settings.jumpDistance (settings (state w)))%R |})
    as (w' & E & Hp).
  { unfold updateCurrentPoint.
    unfold bind at 1. unfold getState at 1. cbv beta iota.
    unfold bind at 1. rewrite Hc. cbv beta iota.
    unfold bind at 1. unfold modify at 1. cbv beta iota.
    unfold bind at 1. unfold modify at 1. cbv beta iota.
    unfold bind at 1. simpl mbind. rewrite Hv. simpl defined.
    unfold ret at 1. cbv beta iota. unfold modify.
    eexists. split; [reflexivity|]. simpl.
    destruct (10 <? length (prevIndex (state w) ++ [Some k]))%nat; reflexivity. }
  rewrite E. split; [reflexivity | exact Hp].
Qed.

Lemma preDraw_keeps {X : Type} (f : State -> X) :
  (forall v s, f (set_vertices v s) = f s) ->
  (forall v s, f (set_cosAngles v s) = f s) ->
  (forall v s, f (set_sinAngles v s) = f s) ->
  (forall v s, f (set_mainVertices v s) = f s) ->
  (forall v s, f (set_allowedMoves v s) = f s) ->
  (forall v s, f (set_currentPoint v s) = f s) ->
  (forall v s, f (set_prevIndex v s) = f s) ->
  keeps (fun w => f (state w)) preDraw.
Proof.
  intros. unfold preDraw.
  apply keeps_bind; [apply preDrawGeometry_keeps; assumption | intros _].
  apply keeps_bind; [apply getRandomPointInShape_keeps | intros p].
  apply keeps_bind; [apply keeps_modify; auto | intros _].
  apply burnIn_keeps; assumption.
Qed.

(** After a [setup] that gets through, with the context held, the matrix
    is all zeros, one cell per pixel. *)
Lemma setup_matrix (st : Settings.t) (w : World) :
  offscreenCanvas w <> None ->
  ctx w = true ->
  fst (setup st w) = Normal tt ->
  imageMatrix (state (snd (setup st w)))
  = replicate (Z.to_nat (Settings.canvasSize st ^ 2)) 0.
Proof.
  intros Hc Hctx. rewrite setup_with_canvas by exact Hc.
  pose proof (preDraw_keeps_ctx (beforePreDraw st w)) as Hk.
  rewrite beforePreDraw_ctx in Hk.
  pose proof (preDraw_keeps imageMatrix
                ltac:(reflexivity) ltac:(reflexivity) ltac:(reflexivity)
                ltac:(reflexivity) ltac:(reflexivity) ltac:(reflexivity)
                ltac:(reflexivity) (beforePreDraw st w)) as Hi.
  change (imageMatrix (state (beforePreDraw st w)))
    with (replicate (Z.to_nat (Settings.canvasSize st ^ 2)) 0) in Hi.
  unfold bind.
  destruct (preDraw (beforePreDraw st w)) as [[[]|] w1]; [|discriminate].
  simpl in Hk, Hi. intros _.
  destruct (erase_with_ctx w1 ltac:(congruence)) as (E & _).
  rewrite E, Hi. unfold fill. rewrite length_replicate. reflexivity.
Qed.

Lemma randomBelow_u03 : randomBelow u03 4 = 1%nat.
Proof. apply randomBelow_uniform; [lia|]. simpl. lra. Qed.

Lemma randomBelow_u06 : randomBelow u06 4 = 2%nat.
Proof. apply randomBelow_uniform; [lia|]. simpl. lra. Qed.

Lemma square_vertex_right :
  mainVertex squareSettings (IZR 4 / 2 - 0)
    {| Point.x := IZR 4 / 2; Point.y := IZR 4 / 2 |} (- PI / 2) 1
  = {| Point.x := IZR 4; Point.y := IZR 2 |}.
Proof.
  unfold mainVertex. cbv zeta. simpl Settings.sides. simpl INR. simpl Point.x. simpl Point.y.
  replace (- PI / 2 + 1 * (2 * PI / 4))%R with 0%R by field.
  rewrite cos_0, sin_0. f_equal; field.
Qed.

Lemma square_vertex_bottom :
  mainVertex squareSettings (IZR 4 / 2 - 0)
    {| Point.x := IZR 4 / 2; Point.y := IZR 4 / 2 |} (- PI / 2) 2
  = {| Point.x := IZR 2; Point.y := IZR 4 |}.
Proof.
  unfold mainVertex. cbv zeta. simpl Settings.sides. simpl INR. simpl Point.x. simpl Point.y.
  replace (- PI / 2 + (1 + 1) * (2 * PI / 4))%R with (PI / 2)%R by field.
  rewrite cos_PI2, sin_PI2. f_equal; field.
Qed.

(** One step on the square from a state as [setup] leaves it: the point
    jumps onto the vertex drawn, and that vertex is what is plotted. *)
Lemma square_step (w : World) (k : nat) (a b : Z) :
  settings (state w) = squareSettings ->
  walkReady (state w) ->
  prevIndex (state w) = [] ->
  vertices (state w)
  = map (mainVertex squareSettings (IZR 4 / 2 - 0)
           {| Point.x := IZR 4 / 2; Point.y := IZR 4 / 2 |} (- PI / 2)) (seq 0 4) ->
  randomBelow (random w O) 4 = k ->
  (k < 4)%nat ->
  mainVertex squareSettings (IZR 4 / 2 - 0)
    {| Point.x := IZR 4 / 2; Point.y := IZR 4 / 2 |} (- PI / 2) k
  = {| Point.x := IZR a; Point.y := IZR b |} ->
  exists s1,
    state (snd (updateMatrix w)) = plotPixel (Some (a, b)) s1
    /\ imageMatrix s1 = imageMatrix (state w)
    /\ settings s1 = squareSettings.
Proof.
  intros Hst Hready Hprev Hverts Hk Hlt Hvertex.
  assert (length (vertices (state w)) = 4%nat) as Hlen
    by (rewrite Hverts, length_map, length_seq; reflexivity).
  assert (chooseIndex (state w) w
          = (Normal (Some k), set_random (rng_tail (random w)) w)) as Hc.
  { rewrite chooseIndex_free by (apply movesFreely_empty; exact Hprev).
    rewrite Hlen, Hk. reflexivity. }
  assert (vertices (state w) !! k = Some {| Point.x := IZR a; Point.y := IZR b |}) as Hv.
  { rewrite Hverts, list_lookup_fmap, lookup_seq_lt by exact Hlt. simpl.
    rewrite Hvertex. reflexivity. }
  destruct (updateCurrentPoint_moves w k _ Hc Hv) as (Hn & Hp).
  pose proof (updateCurrentPoint_keeps imageMatrix
                ltac:(reflexivity) ltac:(reflexivity) w) as Ki.
  pose proof (updateCurrentPoint_keeps settings
                ltac:(reflexivity) ltac:(reflexivity) w) as Ks.
  simpl in Ki, Ks.
  exists (state (snd (updateCurrentPoint w))).
  split; [|split; [exact Ki | rewrite Ks; exact Hst]].
  unfold updateMatrix, bind.
  destruct (updateCurrentPoint w) as [[[]|] w1]; [|discriminate Hn].
  simpl in *. apply plotted_current_point.
  - rewrite Ks, Hst. reflexivity.
  - rewrite Hp, Hst. simpl. f_equal; ring.
Qed.

Lemma square_after_setup :
  settings (state squareWorld) = squareSettings
  /\ walkReady (state squareWorld)
  /\ prevIndex (state squareWorld) = []
  /\ vertices (state squareWorld)
     = map (mainVertex squareSettings (IZR 4 / 2 - 0)
              {| Point.x := IZR 4 / 2; Point.y := IZR 4 / 2 |} (- PI / 2)) (seq 0 4)
  /\ imageMatrix (state squareWorld) = replicate 16 0.
Proof.
  unfold squareWorld.
  destruct (setup_ok squareSettings world0) as (w1' & E & Hready & Herased).
  { discriminate. }
  { unfold squareSettings, Settings.sides. lia. }
  { apply rowsNonEmpty_none;
      [reflexivity | unfold squareSettings, Settings.sides; lia]. }
  { intros e []. }
  destruct (Herased eq_refl) as [Hprev _].
  assert (w1' = snd (setup squareSettings world0)) as -> by (rewrite E; reflexivity).
  split; [apply setup_settings|]. split; [exact Hready|]. split; [exact Hprev|].
  split.
  - rewrite (setup_after_geometry vertices) by (reflexivity || discriminate).
    rewrite preDrawGeometry_plain by reflexivity. reflexivity.
  - rewrite setup_matrix; [reflexivity | discriminate | reflexivity |].
    rewrite E. reflexivity.
Qed.

(** One step from there with the draw 0.3 jumps onto the right-hand vertex
    [(4, 2)], which is counted in cell 12, pixel [(0, 3)]; with the draw 0.6
    it jumps onto the bottom vertex [(2, 4)], which is dropped. *)
Lemma square_step_right (w : World) :
  settings (state w) = squareSettings ->
  walkReady (state w) ->
  prevIndex (state w) = [] ->
  vertices (state w)
  = map (mainVertex squareSettings (IZR 4 / 2 - 0)
           {| Point.x := IZR 4 / 2; Point.y := IZR 4 / 2 |} (- PI / 2)) (seq 0 4) ->
  imageMatrix (state w) = replicate 16 0 ->
  imageMatrix (state (snd (updateMatrix (set_random (fun _ => u03) w))))
  = <[12%nat := 1]> (replicate 16 0).
Proof.
  intros Hst Hready Hprev Hverts Hzeros.
  destruct (square_step (set_random (fun _ => u03) w) 1 4 2)
    as (s1 & E & Hi & Hs); try assumption.
  - exact randomBelow_u03.
  - lia.
  - exact square_vertex_right.
  - rewrite E. simpl in Hi.
    rewrite (plotPixel_counted 4 2 s1 0).
    + rewrite Hs, Hi, Hzeros. reflexivity.
    + rewrite Hs. simpl. lia.
    + rewrite Hs, Hi, Hzeros. reflexivity.
Qed.

Lemma square_step_bottom (w : World) :
  settings (state w) = squareSettings ->
  walkReady (state w) ->
  prevIndex (state w) = [] ->
  vertices (state w)
  = map (mainVertex squareSettings (IZR 4 / 2 - 0)
           {| Point.x := IZR 4 / 2; Point.y := IZR 4 / 2 |} (- PI / 2)) (seq 0 4) ->
  imageMatrix (state w) = replicate 16 0 ->
  imageMatrix (state (snd (updateMatrix (set_random (fun _ => u06) w))))
  = replicate 16 0.
Proof.
  intros Hst Hready Hprev Hverts Hzeros.
  destruct (square_step (set_random (fun _ => u06) w) 2 2 4)
    as (s1 & E & Hi & Hs); try assumption.
  - exact randomBelow_u06.
  - lia.
  - exact square_vertex_bottom.
  - rewrite E. simpl in Hi.
    rewrite plotPixel_dropped; [rewrite Hi; exact Hzeros|].
    rewrite Hs, Hi, Hzeros. reflexivity.
Qed.

Lemma square_border_steps :
  imageMatrix (state (snd (updateMatrix (set_random (fun _ => u03) squareWorld))))
  = <[12%nat := 1]> (replicate 16 0)
  /\ imageMatrix (state (snd (updateMatrix (set_random (fun _ => u06) squareWorld))))
     = replicate 16 0.
Proof.
  destruct square_after_setup as (Hst & Hready & Hprev & Hverts & Hzeros).
  split.
  - apply square_step_right; assumption.
  - apply square_step_bottom; assumption.
Qed.

(** C1 at work on a 4 by 4 canvas with nothing plotted.  A point that rounds
    to [(4, 2)], one column right of the canvas, is counted in cell 12,
    which is pixel [(0, 3)], and one that rounds to [(-2, 2)], left of the
    canvas, in cell 6, pixel [(2, 1)]; points that round to [(2, 4)],
    below, and to [(2, -2)], above, are dropped.  The bounds check
    commented out in [updateMatrix] would drop all four.  Whatever the
    point, the matrix keeps its length.  The first two cases arise one step
    after [init] with a square that touches the border ([sides] 4,
    [padding] 0, [jumpDistance] 1): on the draw 0.3 [updateMatrix] counts
    the vertex [(4, 2)] in cell 12, on the draw 0.6 it drops the vertex
    [(2, 4)]. *)
Theorem updateMatrix_bounds_policy :
  cellOf 4 4 2 = None /\ cellOf 4 (-2) 2 = None
  /\ cellOf 4 2 4 = None /\ cellOf 4 2 (-2) = None
  /\ imageMatrix (plotPixel (Some (4, 2)) blank4) = <[12%nat := 1]> (imageMatrix blank4)
  /\ newPixelsSinceLastCheck (plotPixel (Some (4, 2)) blank4) = 1
  /\ imageMatrix (plotPixel (Some (-2, 2)) blank4) = <[6%nat := 1]> (imageMatrix blank4)
  /\ newPixelsSinceLastCheck (plotPixel (Some (-2, 2)) blank4) = 1
  /\ imageMatrix (plotPixel (Some (2, 4)) blank4) = imageMatrix blank4
  /\ newPixelsSinceLastCheck (plotPixel (Some (2, 4)) blank4) = 0
  /\ imageMatrix (plotPixel (Some (2, -2)) blank4) = imageMatrix blank4
  /\ newPixelsSinceLastCheck (plotPixel (Some (2, -2)) blank4) = 0
  /\ (forall p s, length (imageMatrix (plotPixel p s)) = length (imageMatrix s))
  /\ imageMatrix (state (snd (updateMatrix (set_random (fun _ => u03) squareWorld))))
     = <[12%nat := 1]> (replicate 16 0)
  /\ imageMatrix (state (snd (updateMatrix (set_random (fun _ => u06) squareWorld))))
     = replicate 16 0.
Proof.
  repeat split; try reflexivity;
    [apply plotPixel_length | apply square_border_steps | apply square_border_steps].
Qed.

(** ** C9: a reset onto fewer vertices, traced *)

Lemma keeps_modify_world {X : Type} (f : World -> X) (g : State -> State) :
  (forall s w, f (set_state s w) = f w) -> keeps f (modify g).
Proof. intros H w. simpl. apply H. Qed.

Lemma keeps_random_world {X : Type} (f : World -> X) :
  (forall g w, f (set_random g w) = f w) -> keeps f Math_random.
Proof. intros H w. simpl. apply H. Qed.

(** Nothing but [resizeCanvas] and [initCanvas] touches the canvas. *)
Ltac keeps_world :=
  repeat first
    [ apply keeps_bind; [| intros ?]
    | apply keeps_forRange; intros ?
    | apply keeps_if
    | apply midpointLoop_keeps
    | apply keeps_defined
    | apply keeps_ret
    | apply keeps_getState
    | apply keeps_modify_world; intros; reflexivity
    | apply keeps_random_world; intros; reflexivity ].

Lemma updateMatrix_keeps_canvas : keeps offscreenCanvas updateMatrix.
Proof.
  unfold updateMatrix, updateCurrentPoint, chooseIndex. keeps_world.
Qed.

Lemma preDraw_erase_keeps_canvas : keeps offscreenCanvas (preDraw ;; erase).
Proof.
  apply keeps_bind; [| intros _].
  - unfold preDraw, preDrawGeometry, getRandomPointInShape, burnIn,
      updateCurrentPoint, chooseIndex.
    keeps_world.
  - intros w. unfold erase. destruct (ctx w); reflexivity.
Qed.

Lemma renderFrame_keeps {X : Type} (f : State -> X) :
  (forall v s, f (set_pixelData v s) = f s) ->
  keeps (fun w => f (state w)) renderFrame.
Proof.
  intros H. unfold renderFrame, prepareCanvasForOutput.
  apply keeps_modify. intros s. unfold updatePixelDataFromMatrix. apply H.
Qed.

Lemma renderFrame_run (w : World) :
  renderFrame w = (Normal tt, set_state (updatePixelDataFromMatrix (state w)) w).
Proof. reflexivity. Qed.

Lemma setup_canvas (st : Settings.t) (w : World) :
  offscreenCanvas w <> None -> offscreenCanvas (snd (setup st w)) <> None.
Proof.
  intros Hc. rewrite setup_with_canvas by exact Hc.
  rewrite preDraw_erase_keeps_canvas.
  unfold beforePreDraw. simpl.
  destruct (offscreenCanvas w) as [c|] eqn:E; [|contradiction].
  destruct (bool_decide _); simpl; [rewrite E|]; discriminate.
Qed.

Lemma setup_keeps_isRunning (st : Settings.t) (w : World) :
  offscreenCanvas w <> None ->
  isRunning (state (snd (setup st w))) = isRunning (state w).
Proof.
  intros Hc. rewrite setup_with_canvas by exact Hc.
  rewrite (preDraw_erase_keeps isRunning); reflexivity.
Qed.

(** [init]: after a [setup] that gets through, the first frame is rendered;
    the walk's state is as [setup] left it. *)
Lemma init_ok (st : Settings.t) (w : World) :
  offscreenCanvas w <> None ->
  ctx w = true ->
  0 < Settings.sides st ->
  rowsNonEmpty st ->
  historyFits st (state w) ->
  let w' := snd (onmessage (init st) w) in
  fst (onmessage (init st) w) = Normal tt
  /\ walkReady (state w')
  /\ prevIndex (state w') = []
  /\ settings (state w') = st
  /\ length (vertices (state w')) = vertexCount st
  /\ isRunning (state w') = isRunning (state w)
  /\ offscreenCanvas w' <> None.
Proof.
  intros Hc Hctx Hsides Hrows Hfits. cbv zeta.
  destruct (setup_ok st w Hc Hsides Hrows Hfits) as (w1 & E & Hready & Herased).
  destruct (Herased Hctx) as [Hprev _].
  pose proof (setup_settings st w) as Hst.
  destruct (setup_geometry st w Hc) as [Hv _].
  pose proof (setup_keeps_isRunning st w Hc) as Hrun.
  pose proof (setup_canvas st w Hc) as Hcanvas.
  rewrite E in Hst, Hv, Hrun, Hcanvas. simpl in Hst, Hv, Hrun, Hcanvas.
  unfold onmessage, bind. rewrite E. rewrite renderFrame_run. simpl.
  split; [reflexivity|]. split; [exact Hready|].
  split; [exact Hprev|]. split; [exact Hst|]. split; [exact Hv|].
  split; [exact Hrun | exact Hcanvas].
Qed.

Lemma randomBelow_u09 : randomBelow u09 6 = 5%nat.
Proof. apply randomBelow_uniform; [lia|]. simpl. lra. Qed.

(** [play] on a stopped engine only raises the running flag. *)
Lemma init_play_ok (st : Settings.t) (w : World) :
  offscreenCanvas w <> None ->
  ctx w = true ->
  0 < Settings.sides st ->
  rowsNonEmpty st ->
  historyFits st (state w) ->
  isRunning (state w) = false ->
  let w' := snd (onmessage playMsg (snd (onmessage (init st) w))) in
  walkReady (state w')
  /\ prevIndex (state w') = []
  /\ length (vertices (state w')) = vertexCount st
  /\ isRunning (state w') = true
  /\ offscreenCanvas w' <> None.
Proof.
  intros Hc0 Hctx Hsides Hrows Hfits Hstopped. cbv zeta.
  destruct (init_ok st w Hc0 Hctx Hsides Hrows Hfits)
    as (_ & Hready & Hprev & _ & Hv & Hrun & Hc).
  rewrite Hstopped in Hrun.
  generalize dependent (snd (onmessage (init st) w)). intros w1 Hready Hprev Hv Hrun Hc.
  unfold onmessage, play, bind, getState, modify. rewrite Hrun. simpl.
  split; [exact Hready|]. split; [exact Hprev|]. split; [exact Hv|].
  split; [reflexivity | exact Hc].
Qed.

(** The first step of a run: the history is empty, so the index is drawn
    among all the vertices and becomes the history. *)
Lemma first_step_free (w : World) (u : unit01) :
  walkReady (state w) ->
  prevIndex (state w) = [] ->
  let w' := snd (updateMatrix (set_random (fun _ => u) w)) in
  prevIndex (state w') = [Some (randomBelow u (length (vertices (state w))))]
  /\ isRunning (state w') = isRunning (state w)
  /\ offscreenCanvas w' = offscreenCanvas w.
Proof.
  intros Hready Hprev. cbv zeta.
  set (w0 := set_random (fun _ => u) w).
  assert (walkReady (state w0)) as Hready' by exact Hready.
  destruct (updateMatrix_ok w0 Hready')
    as (k & w' & _ & Hchoose & Hu & Hp & _).
  rewrite chooseIndex_free in Hchoose by (apply movesFreely_empty; exact Hprev).
  injection Hchoose as Hk.
  pose proof (updateMatrix_keeps isRunning
                ltac:(reflexivity) ltac:(reflexivity) ltac:(reflexivity)
                ltac:(reflexivity) ltac:(reflexivity) w0) as Kr.
  pose proof (updateMatrix_keeps_canvas w0) as Kc.
  rewrite Hu in Kr, Kc |- *. simpl in Kr, Kc |- *.
  split; [|split; [exact Kr | exact Kc]].
  rewrite Hp, <- Hk. change (state w0) with (state w). rewrite Hprev. reflexivity.
Qed.

Lemma hexagonSettings_rows : rowsNonEmpty hexagonSettings.
Proof. intros i _. apply allowedFrom_nonempty. unfold vertexCount. simpl. lia. Qed.

Lemma hexagonWorld_spec :
  walkReady (state hexagonWorld)
  /\ prevIndex (state hexagonWorld) = []
  /\ length (vertices (state hexagonWorld)) = vertexCount hexagonSettings
  /\ isRunning (state hexagonWorld) = true
  /\ offscreenCanvas hexagonWorld <> None.
Proof.
  apply (init_play_ok hexagonSettings world0).
  - discriminate.
  - reflexivity.
  - unfold hexagonSettings, triangleSettings, assign, Settings.sides. lia.
  - exact hexagonSettings_rows.
  - intros e [].
  - reflexivity.
Qed.

Lemma hexagonStepped_spec :
  prevIndex (state hexagonStepped) = [Some 5%nat]
  /\ isRunning (state hexagonStepped) = true
  /\ offscreenCanvas hexagonStepped <> None.
Proof.
  destruct hexagonWorld_spec as (Hready & Hprev & Hv & Hrun & Hc).
  destruct (first_step_free hexagonWorld u09 Hready Hprev) as (Hp & Kr & Kc).
  unfold hexagonStepped.
  rewrite Hv in Hp. change (vertexCount hexagonSettings) with 6%nat in Hp.
  rewrite randomBelow_u09 in Hp.
  split; [exact Hp|]. split; [rewrite Kr; exact Hrun | rewrite Kc; exact Hc].
Qed.

Lemma stop_run (w : World) :
  exists w',
    stop w = (Normal tt, w')
    /\ prevIndex (state w') = prevIndex (state w)
    /\ offscreenCanvas w' = offscreenCanvas w.
Proof.
  unfold stop, bind, getState.
  destruct (isRunning (state w)); simpl; eexists; repeat split; reflexivity.
Qed.

(** [reset] is [stop], [setup], [renderFrame]: when the history left by the
    stopped run ends on an index the new vertex set lacks, [setup] throws in
    burn-in, the message handler with it, and the history is still there for
    the next step to trip over. *)
Lemma reset_on_stale_history (st : Settings.t) (w : World) (a : nat) :
  offscreenCanvas w <> None ->
  0 < Settings.sides st ->
  Settings.restriction st = "none" ->
  at_back (prevIndex (state w)) 1 = Some (Some a) ->
  (vertexCount st <= a)%nat ->
  fst (onmessage (reset st) w) = TypeError
  /\ prevIndex (state (snd (onmessage (reset st) w))) = prevIndex (state w)
  /\ fst (updateMatrix (snd (onmessage (reset st) w))) = TypeError.
Proof.
  intros Hc Hsides Hrule Hback Ha.
  destruct (stop_run w) as (ws & Hstop & Hps & Hcs).
  rewrite <- Hps in Hback. rewrite <- Hcs in Hc.
  destruct (setup_throws_on_stale_history st ws a Hc Hsides Hrule Hback Ha)
    as [Hthrow Hkept].
  pose proof (setup_settings st ws) as Hst.
  destruct (setup_geometry st ws Hc) as [_ Hal].
  assert (onmessage (reset st) w = (TypeError, snd (setup st ws))) as E.
  { unfold onmessage. unfold bind at 1. rewrite Hstop.
    unfold bind. destruct (setup st ws) as [o wf]. simpl in Hthrow. subst o.
    reflexivity. }
  rewrite E. simpl fst. simpl snd.
  generalize dependent (snd (setup st ws)). intros wf Hkept Hst Hal _.
  split; [reflexivity|]. split; [congruence|].
  assert (1 <= length (prevIndex (state wf)))%nat as Hlen.
  { rewrite Hkept. unfold at_back in Hback.
    destruct (Nat.ltb_spec (length (prevIndex (state ws))) 1); [discriminate | lia]. }
  unfold updateMatrix, bind.
  rewrite (updateCurrentPoint_missing_row wf a).
  - reflexivity.
  - unfold movesFreely. rewrite Hst, Hrule.
    destruct (Nat.eqb_spec (length (prevIndex (state wf))) 0); [lia | reflexivity].
  - unfold lookback. rewrite Hst, Hrule. simpl. rewrite Hkept. exact Hback.
  - rewrite Hal, length_map, length_seq. exact Ha.
Qed.

(** C9 (as the code runs). A hexagon is set up with rule [none] and started, and
    its first step, on a draw of 0.9, moves to vertex 5: the history, empty
    after the set-up as the claim says, is [[5]].  The host then resets onto a
    triangle.  [preDraw] runs burn-in before [erase] has cleared the history;
    the first burn-in step reads row 5 of the new three-row table, which is
    [undefined], and throws.  [erase] is not reached: after this reset the
    history is still [[5]], not empty, and the first step of the next run throws
    in the same way instead of choosing a vertex uniformly. *)
Theorem reset_keeps_stale_history :
  prevIndex (state hexagonWorld) = []
  /\ prevIndex (state hexagonStepped) = [Some 5%nat]
  /\ fst resetToTriangle = TypeError
  /\ prevIndex (state (snd resetToTriangle)) = [Some 5%nat]
  /\ fst (updateMatrix (snd resetToTriangle)) = TypeError.
Proof.
  destruct hexagonWorld_spec as (_ & Hempty & _).
  destruct hexagonStepped_spec as (Hp & _ & Hc).
  split; [exact Hempty|]. split; [exact Hp|].
  unfold resetToTriangle.
  destruct (reset_on_stale_history triangleSettings hexagonStepped 5 Hc)
    as (Hthrow & Hkept & Hnext).
  - unfold triangleSettings, Settings.sides. lia.
  - reflexivity.
  - rewrite Hp. reflexivity.
  - unfold vertexCount. simpl. lia.
  - split; [exact Hthrow|]. split; [rewrite Hkept; exact Hp | exact Hnext].
Qed.

(** ** Colour parsing *)

Lemma band_255_byte (x : Z) : 0 <= band x 255 <= 255.
Proof.
  unfold band. change (ToInt32 255) with (Z.ones 8).
  rewrite Z.land_ones by lia.
  pose proof (Z.mod_pos_bound (ToInt32 x) (2 ^ 8) ltac:(lia)). lia.
Qed.

Lemma parseInt16_unreadable (c : ascii) (t : list ascii) :
  hexDigit c = None -> isWhiteSpace c = false ->
  c <> "-"%char -> c <> "+"%char ->
  parseInt16 (c :: t) = NaN.
Proof.
  intros Hhex Hws Hm Hp.
  unfold parseInt16. cbn [skipWhiteSpace]. rewrite Hws.
  destruct c as [[] [] [] [] [] [] [] []];
    try discriminate Hhex; try discriminate Hws; try congruence;
    cbn [stripHexPrefix hexPrefix]; try reflexivity.
Qed.

Lemma colorToRGB_unreadable (cs : list ascii) :
  parseInt16 (firstn 6 (if (length cs =? 3)%nat || (length cs =? 4)%nat
                        then flat_map (fun ch => [ch; ch]) cs else cs)) = NaN ->
  colorToRGB (String "#" (string_of_list_ascii cs)) = black.
Proof.
  intros H. unfold colorToRGB.
  change (list_ascii_of_string (String "#" (string_of_list_ascii cs)))
    with ("#"%char :: list_ascii_of_string (string_of_list_ascii cs)).
  rewrite list_ascii_of_string_of_list_ascii. cbv beta iota zeta.
  rewrite H. reflexivity.
Qed.

(** X1.  Whatever follows the [#], the hexadecimal branch of [colorToRGB]
    returns three numbers from 0 to 255, each channel being masked with
    [0xff].  Text that [parseInt] cannot read gives 0 in every channel:
    when nothing follows the [#], or when the first character after it is
    not a hexadecimal digit, nor white space or a sign, which [parseInt]
    skips, the result is [NaN] and the colour is black. *)
Theorem colorToRGB_hash_bytes (hex : string) :
  byteColor (colorToRGB (String "#" hex))
  /\ (hex = "" -> colorToRGB (String "#" hex) = black)
  /\ (forall c rest,
        hex = String c rest ->
        hexDigit c = None -> isWhiteSpace c = false ->
        c <> "-"%char -> c <> "+"%char ->
        colorToRGB (String "#" hex) = black).
Proof.
  split; [|split].
  - unfold colorToRGB. simpl list_ascii_of_string. cbv beta iota zeta.
    eexists _, _, _. split; [reflexivity|].
    repeat split; apply band_255_byte.
  - intros ->. reflexivity.
  - intros c rest -> Hhex Hws Hm Hp.
    rewrite <- (string_of_list_ascii_of_string (String c rest)).
    apply colorToRGB_unreadable.
    change (list_ascii_of_string (String c rest)) with (c :: list_ascii_of_string rest).
    destruct ((length (c :: list_ascii_of_string rest) =? 3)%nat
              || (length (c :: list_ascii_of_string rest) =? 4)%nat);
      cbn [flat_map app firstn]; apply parseInt16_unreadable; assumption.
Qed.

(** X2.  The shorthand forms: [#abc] and [#abcd] are read as [#aabbcc] (the
    fourth, alpha, digit is dropped), and of eight digits only the first
    six are read. *)
Theorem colorToRGB_shorthand (a b c d e f g h : ascii) :
  colorToRGB (hashed [a; b; c]) = colorToRGB (hashed [a; a; b; b; c; c])
  /\ colorToRGB (hashed [a; b; c; d]) = colorToRGB (hashed [a; a; b; b; c; c])
  /\ colorToRGB (hashed [a; b; c; d; e; f; g; h])
     = colorToRGB (hashed [a; b; c; d; e; f]).
Proof. repeat split. Qed.

Lemma hexDigit_plain (c : ascii) (d : Z) :
  hexDigit c = Some d ->
  0 <= d <= 15
  /\ isWhiteSpace c = false
  /\ (forall l, stripHexPrefix (c :: l) = c :: l \/ c = "0"%char)
  /\ (forall c0 l, stripHexPrefix (c0 :: c :: l) = c0 :: c :: l)
  /\ (forall (l : list ascii),
        match c :: l with
        | "-"%char :: s' => (-1, s')
        | "+"%char :: s' => (1, s')
        | _ => (1, c :: l)
        end = (1, c :: l)).
Proof.
  destruct c as [[] [] [] [] [] [] [] []]; intros H; vm_compute in H;
    try discriminate H; injection H as <-;
    (split; [lia|]); (split; [reflexivity|]);
    (split; [intros l; first [left; reflexivity | right; reflexivity]|]);
    (split; [|intros l; reflexivity]);
    intros c0 l; destruct c0 as [[] [] [] [] [] [] [] []]; reflexivity.
Qed.

Lemma parseInt16_six (c1 c2 c3 c4 c5 c6 : ascii) (d1 d2 d3 d4 d5 d6 : Z) :
  hexDigit c1 = Some d1 -> hexDigit c2 = Some d2 -> hexDigit c3 = Some d3 ->
  hexDigit c4 = Some d4 -> hexDigit c5 = Some d5 -> hexDigit c6 = Some d6 ->
  parseInt16 [c1; c2; c3; c4; c5; c6]
  = Num (16 * (16 * (16 * (16 * (16 * d1 + d2) + d3) + d4) + d5) + d6).
Proof.
  intros H1 H2 H3 H4 H5 H6.
  destruct (hexDigit_plain c1 d1 H1) as (_ & Hw & _ & _ & Hsign).
  destruct (hexDigit_plain c2 d2 H2) as (_ & _ & _ & Hstrip & _).
  unfold parseInt16. cbn [skipWhiteSpace]. rewrite Hw.
  rewrite Hsign, Hstrip.
  cbn [hexPrefix]. rewrite H1. cbn [hexPrefix default]. rewrite H2.
  cbn [hexPrefix default]. rewrite H3. cbn [hexPrefix default]. rewrite H4.
  cbn [hexPrefix default]. rewrite H5. cbn [hexPrefix default]. rewrite H6.
  cbn [hexPrefix default]. unfold Datatypes.id. f_equal. lia.
Qed.

(** X3.  Six hexadecimal digits after the [#] are read two by two: red,
    green, blue. *)
Theorem colorToRGB_six_digits (c1 c2 c3 c4 c5 c6 : ascii) (d1 d2 d3 d4 d5 d6 : Z) :
  hexDigit c1 = Some d1 -> hexDigit c2 = Some d2 -> hexDigit c3 = Some d3 ->
  hexDigit c4 = Some d4 -> hexDigit c5 = Some d5 -> hexDigit c6 = Some d6 ->
  colorToRGB (hashed [c1; c2; c3; c4; c5; c6])
  = {| RGB.r := Num (16 * d1 + d2); RGB.g := Num (16 * d3 + d4);
       RGB.b := Num (16 * d5 + d6) |}.
Proof.
  intros H1 H2 H3 H4 H5 H6.
  pose proof (hexDigit_plain c1 d1 H1) as (B1 & _).
  pose proof (hexDigit_plain c2 d2 H2) as (B2 & _).
  pose proof (hexDigit_plain c3 d3 H3) as (B3 & _).
  pose proof (hexDigit_plain c4 d4 H4) as (B4 & _).
  pose proof (hexDigit_plain c5 d5 H5) as (B5 & _).
  pose proof (hexDigit_plain c6 d6 H6) as (B6 & _).
  unfold colorToRGB, hashed.
  cbn [string_of_list_ascii list_ascii_of_string length Nat.eqb orb firstn].
  rewrite (parseInt16_six c1 c2 c3 c4 c5 c6 d1 d2 d3 d4 d5 d6) by assumption.
  set (n := 16 * (16 * (16 * (16 * (16 * d1 + d2) + d3) + d4) + d5) + d6).
  assert (0 <= n < 2 ^ 24) as Hn by (subst n; lia).
  unfold band, sar, jsToInt32.
  change (16 mod 32) with 16. change (8 mod 32) with 8.
  change (ToInt32 255) with (Z.ones 8).
  rewrite (ToInt32_small n) by lia.
  rewrite !Z.shiftr_div_pow2 by lia.
  assert (n / 2 ^ 16 = 16 * d1 + d2) as E16.
  { symmetry. apply (Z.div_unique n (2 ^ 16) _ (16 * (16 * (16 * d3 + d4) + d5) + d6));
      subst n; lia. }
  assert (n / 2 ^ 8 = 16 * (16 * (16 * d1 + d2) + d3) + d4) as E8.
  { symmetry. apply (Z.div_unique n (2 ^ 8) _ (16 * d5 + d6)); subst n; lia. }
  rewrite E16, E8.
  rewrite !ToInt32_small by lia.
  rewrite !Z.land_ones by lia.
  f_equal; f_equal.
  - apply Z.mod_small. lia.
  - symmetry. apply (Z.mod_unique _ (2 ^ 8) (16 * d1 + d2)); lia.
  - symmetry. apply (Z.mod_unique _ (2 ^ 8) (16 * (16 * (16 * d1 + d2) + d3) + d4));
      subst n; lia.
Qed.

Lemma colorToRGB_six_digits_witness :
  colorToRGB (hashed ["1"; "e"; "9"; "0"; "F"; "f"]%char)
  = {| RGB.r := Num (16 * 1 + 14); RGB.g := Num (16 * 9 + 0);
       RGB.b := Num (16 * 15 + 15) |}.
Proof. apply colorToRGB_six_digits; reflexivity. Defined.

(** ** Interpolation and pixel packing *)

Lemma Math_round_between (x : R) (lo hi : Z) :
  (IZR lo <= x <= IZR hi)%R -> lo <= Math_round x <= hi.
Proof.
  intros [Hlo Hhi].
  pose proof (Math_floor_bounds (x + / 2)) as [H1 H2].
  change (Math_floor (x + / 2)) with (Math_round x) in H1, H2.
  split.
  - destruct (Z.le_gt_cases lo (Math_round x)) as [H|H]; [exact H|].
    assert (Math_round x + 1 <= lo) as H' by lia.
    apply IZR_le in H'. rewrite plus_IZR in H'. lra.
  - destruct (Z.le_gt_cases (Math_round x) hi) as [H|H]; [exact H|].
    assert (hi + 1 <= Math_round x) as H' by lia.
    apply IZR_le in H'. rewrite plus_IZR in H'. lra.
Qed.

Lemma lerp_Num (a b : Z) (t : R) :
  (0 <= t <= 1)%R ->
  Z.min a b <= Math_round (IZR a + t * (IZR b - IZR a)) <= Z.max a b.
Proof.
  intros Ht. apply Math_round_between.
  destruct (Z.le_ge_cases a b) as [H|H].
  - rewrite Z.min_l, Z.max_r by lia. apply IZR_le in H. nra.
  - rewrite Z.min_r, Z.max_l by lia. apply IZR_le in H. nra.
Qed.

(** X4.  [lerp] of two integers at a [t] from 0 to 1 is an integer between
    them; it is the first at [t = 0] and the second at [t = 1]. *)
Theorem lerp_between (a b : Z) (t : R) :
  (0 <= t <= 1)%R ->
  exists v,
    lerp (Num a) (Num b) t = Num v
    /\ Z.min a b <= v <= Z.max a b
    /\ (t = 0%R -> v = a)
    /\ (t = 1%R -> v = b).
Proof.
  intros Ht. eexists. split; [reflexivity|].
  split; [apply lerp_Num; exact Ht|].
  split; intros ->.
  - rewrite Rmult_0_l, Rplus_0_r. apply Math_round_IZR.
  - replace (IZR a + 1 * (IZR b - IZR a))%R with (IZR b) by ring.
    apply Math_round_IZR.
Qed.

Lemma lerp_between_witness :
  exists v, lerp (Num 10) (Num 250) (1 / 2) = Num v
            /\ Z.min 10 250 <= v <= Z.max 10 250
            /\ ((1 / 2)%R = 0%R -> v = 10)
            /\ ((1 / 2)%R = 1%R -> v = 250).
Proof. apply lerp_between. lra. Defined.

Lemma shl_24_byte (a : Z) :
  0 <= a <= 255 ->
  shl (Num a) 24 = (if a <? 128 then a else a - 256) * 2 ^ 24.
Proof.
  intros Ha. unfold shl, jsToInt32. change (24 mod 32) with 24.
  rewrite (ToInt32_small a) by lia.
  rewrite Z.shiftl_mul_pow2 by lia.
  destruct (Z.ltb_spec a 128) as [H|H].
  - apply ToInt32_small. lia.
  - unfold ToInt32.
    assert ((a * 2 ^ 24 + 2 ^ 31) mod 2 ^ 32 = a * 2 ^ 24 + 2 ^ 31 - 2 ^ 32) as ->;
      [|lia].
    symmetry. apply (Z.mod_unique _ (2 ^ 32) 1); lia.
Qed.

(** With channels and alpha that are bytes, the packed pixel is alpha, blue,
    green, red from the top byte down. *)
Lemma pack32_bytes (a r g b : Z) :
  0 <= a <= 255 -> 0 <= r <= 255 -> 0 <= g <= 255 -> 0 <= b <= 255 ->
  ToUint32 (pack32 (shl (Num a) 24) {| RGB.r := Num r; RGB.g := Num g; RGB.b := Num b |})
  = a * 2 ^ 24 + b * 2 ^ 16 + g * 2 ^ 8 + r.
Proof.
  intros Ha Hr Hg Hb.
  rewrite (shl_24_byte a Ha).
  set (a' := if a <? 128 then a else a - 256).
  assert (-128 <= a' <= 127 /\ (a' = a \/ a' = a - 256)) as [Ha' Hcase]
    by (subst a'; destruct (Z.ltb_spec a 128); lia).
  clearbody a'.
  assert (pack32 (a' * 2 ^ 24) {| RGB.r := Num r; RGB.g := Num g; RGB.b := Num b |}
          = a' * 2 ^ 24 + b * 2 ^ 16 + g * 2 ^ 8 + r) as E.
  { unfold pack32, bor, shl. simpl RGB.r. simpl RGB.g. simpl RGB.b.
    unfold jsToInt32.
    change (16 mod 32) with 16. change (8 mod 32) with 8.
    rewrite !Z.shiftl_mul_pow2 by lia.
    rewrite (ToInt32_small r), (ToInt32_small g), (ToInt32_small b) by lia.
    rewrite (ToInt32_small (a' * 2 ^ 24)) by lia.
    rewrite (ToInt32_small (b * 2 ^ 16)) by lia.
    rewrite (ToInt32_small (g * 2 ^ 8)) by lia.
    rewrite (ToInt32_small (b * 2 ^ 16)) by lia.
    rewrite lor_disjoint_add by lia.
    rewrite (ToInt32_small (a' * 2 ^ 24 + b * 2 ^ 16)) by lia.
    rewrite (ToInt32_small (g * 2 ^ 8)) by lia.
    replace (a' * 2 ^ 24 + b * 2 ^ 16) with ((a' * 2 ^ 8 + b) * 2 ^ 16) by lia.
    rewrite lor_disjoint_add by lia.
    rewrite (ToInt32_small ((a' * 2 ^ 8 + b) * 2 ^ 16 + g * 2 ^ 8)) by lia.
    replace ((a' * 2 ^ 8 + b) * 2 ^ 16 + g * 2 ^ 8)
      with (((a' * 2 ^ 8 + b) * 2 ^ 8 + g) * 2 ^ 8) by lia.
    rewrite ?(ToInt32_small r) by lia.
    rewrite lor_disjoint_add by lia. lia. }
  rewrite E. unfold ToUint32.
  destruct Hcase as [-> | ->].
  - apply Z.mod_small. lia.
  - symmetry. apply (Z.mod_unique _ (2 ^ 32) (-1)); lia.
Qed.

(** X5.  Transparent background: the pixel carries the foreground colour
    and the density as its alpha, [round(255 * val)], in the byte order
    alpha, blue, green, red. *)
Theorem calculatePixelValue_transparent (s : State) (val : R) (r g b : Z) :
  Settings.solidBg (settings s) = false ->
  fgColor s = {| RGB.r := Num r; RGB.g := Num g; RGB.b := Num b |} ->
  0 <= r <= 255 -> 0 <= g <= 255 -> 0 <= b <= 255 ->
  (0 <= val <= 1)%R ->
  let alpha := Math_round (255 * val) in
  0 <= alpha <= 255
  /\ ToUint32 (calculatePixelValue s val)
     = alpha * 2 ^ 24 + b * 2 ^ 16 + g * 2 ^ 8 + r.
Proof.
  intros Hsolid Hfg Hr Hg Hb Hval alpha.
  assert (0 <= alpha <= 255) as Ha.
  { subst alpha. apply Math_round_between. lra. }
  split; [exact Ha|].
  unfold calculatePixelValue. rewrite Hsolid, Hfg. simpl negb. cbv iota zeta.
  unfold lerp.
  replace (IZR 0 + val * (IZR 255 - IZR 0))%R with (255 * val)%R by ring.
  fold alpha. apply pack32_bytes; assumption.
Qed.

Lemma calculatePixelValue_solid_eq (s : State) (val : R) :
  Settings.solidBg (settings s) = true ->
  calculatePixelValue s val
  = bg32 {| RGB.r := lerp (RGB.r (bgColor s)) (RGB.r (fgColor s)) val;
            RGB.g := lerp (RGB.g (bgColor s)) (RGB.g (fgColor s)) val;
            RGB.b := lerp (RGB.b (bgColor s)) (RGB.b (fgColor s)) val |}.
Proof.
  intros H. unfold calculatePixelValue. rewrite H.
  simpl negb. cbv iota zeta. unfold bg32. reflexivity.
Qed.

(** X6.  Solid background, byte colours, a density from 0 to 1: each channel
    of the pixel is the [lerp] of the background's and the foreground's
    channel and lies between the two; the pixel is 255 (alpha), blue,
    green, red from the top byte down. *)
Theorem calculatePixelValue_solid (s : State) (val : R) (br bg bb fr fg fb : Z) :
  Settings.solidBg (settings s) = true ->
  bgColor s = {| RGB.r := Num br; RGB.g := Num bg; RGB.b := Num bb |} ->
  fgColor s = {| RGB.r := Num fr; RGB.g := Num fg; RGB.b := Num fb |} ->
  0 <= br <= 255 -> 0 <= bg <= 255 -> 0 <= bb <= 255 ->
  0 <= fr <= 255 -> 0 <= fg <= 255 -> 0 <= fb <= 255 ->
  (0 <= val <= 1)%R ->
  exists r g b,
    lerp (Num br) (Num fr) val = Num r
    /\ lerp (Num bg) (Num fg) val = Num g
    /\ lerp (Num bb) (Num fb) val = Num b
    /\ Z.min br fr <= r <= Z.max br fr
    /\ Z.min bg fg <= g <= Z.max bg fg
    /\ Z.min bb fb <= b <= Z.max bb fb
    /\ ToUint32 (calculatePixelValue s val)
       = 255 * 2 ^ 24 + b * 2 ^ 16 + g * 2 ^ 8 + r.
Proof.
  intros Hsolid Hbg Hfg Hbr Hbg' Hbb Hfr Hfg' Hfb Hval.
  pose proof (lerp_Num br fr val Hval) as Mr.
  pose proof (lerp_Num bg fg val Hval) as Mg.
  pose proof (lerp_Num bb fb val Hval) as Mb.
  rewrite (calculatePixelValue_solid_eq s val Hsolid), Hbg, Hfg.
  cbn [RGB.r RGB.g RGB.b]. unfold lerp.
  generalize dependent (Math_round (IZR br + val * (IZR fr - IZR br))). intros r Mr.
  generalize dependent (Math_round (IZR bg + val * (IZR fg - IZR bg))). intros g Mg.
  generalize dependent (Math_round (IZR bb + val * (IZR fb - IZR bb))). intros b Mb.
  exists r, g, b.
  repeat (split; [first [reflexivity | assumption]|]).
  apply bg32_bytes; lia.
Qed.

(** X7.  Solid background: whatever the colours hold (channels out of range,
    [undefined] or [NaN]) and whatever the density, the pixel's alpha byte
    is 255. *)
Theorem calculatePixelValue_opaque (s : State) (val : R) :
  Settings.solidBg (settings s) = true ->
  Z.shiftr (ToUint32 (calculatePixelValue s val)) 24 = 255.
Proof.
  intros Hsolid. rewrite (calculatePixelValue_solid_eq s val Hsolid).
  apply bg32_opaque.
Qed.

(** ** Normalisation *)

Lemma pow_nonneg (x y : R) : (0 <= pow x y)%R.
Proof.
  unfold pow. destruct (Req_dec_T x 0); [destruct (Rlt_dec 0 y); lra|].
  unfold Rpower. left. apply exp_pos.
Qed.

Lemma pow_mono (x1 x2 y : R) :
  (0 < y)%R -> (0 <= x1 <= x2)%R -> (pow x1 y <= pow x2 y)%R.
Proof.
  intros Hy [H1 H2]. unfold pow at 1.
  destruct (Req_dec_T x1 0) as [E1|N1].
  - destruct (Rlt_dec 0 y); [apply pow_nonneg | lra].
  - unfold pow. destruct (Req_dec_T x2 0) as [E2|N2]; [lra|].
    apply Rle_Rpower_l; lra.
Qed.

Lemma pow_one (y : R) : pow 1 y = 1%R.
Proof.
  unfold pow. destruct (Req_dec_T 1 0); [lra | apply Rpower_1_l].
Qed.

Lemma pow_zero (y : R) : (0 < y)%R -> pow 0 y = 0%R.
Proof.
  intros Hy. unfold pow. destruct (Req_dec_T 0 0); [|lra].
  destruct (Rlt_dec 0 y); [reflexivity | lra].
Qed.

Lemma ln_monotone (x y : R) : (0 < x)%R -> (x <= y)%R -> (ln x <= ln y)%R.
Proof.
  intros Hx [H| ->]; [left; apply ln_increasing; assumption | right; reflexivity].
Qed.

Lemma ln_1p_nonneg (z : Z) : 0 <= z -> (0 <= ln (1 + IZR z))%R.
Proof.
  intros Hz. apply IZR_le in Hz. rewrite <- ln_1. apply ln_monotone; lra.
Qed.

Lemma ln_1p_mono (a b : Z) : 0 <= a <= b -> (ln (1 + IZR a) <= ln (1 + IZR b))%R.
Proof.
  intros [Ha Hab]. apply IZR_le in Ha, Hab. apply ln_monotone; lra.
Qed.

Lemma ln_1p_pos (z : Z) : 1 <= z -> (0 < ln (1 + IZR z))%R.
Proof.
  intros Hz. apply IZR_le in Hz. rewrite <- ln_1. apply ln_increasing; lra.
Qed.

Lemma normalizeValue_unfold (s : State) (raw : Z) (logMax : R) :
  (0 < logMax)%R ->
  normalizeValue s raw logMax
  = pow (ln (1 + IZR raw) / logMax) (Settings.gammaExponent (settings s)).
Proof.
  intros H. unfold normalizeValue. destruct (Rle_dec logMax 0); [lra | reflexivity].
Qed.

(** X8.  With a positive [gammaExponent] and [logMax = log(1 + maxValue)],
    [maxValue] at least 1: a hit count from 0 to [maxValue] normalises into
    [0, 1]; 0 goes to 0 and [maxValue] to 1; and a larger count never gets a
    smaller value. *)
Theorem normalizeValue_range (s : State) (raw : Z) :
  1 <= maxValue s ->
  (0 < Settings.gammaExponent (settings s))%R ->
  0 <= raw <= maxValue s ->
  let logMax := ln (1 + IZR (maxValue s)) in
  (0 <= normalizeValue s raw logMax <= 1)%R
  /\ normalizeValue s 0 logMax = 0%R
  /\ normalizeValue s (maxValue s) logMax = 1%R
  /\ (forall r1 r2 : Z,
        0 <= r1 <= r2 ->
        (normalizeValue s r1 logMax <= normalizeValue s r2 logMax)%R).
Proof.
  intros Hmax Hgamma Hraw logMax.
  assert (0 < logMax)%R as Hlog by (apply ln_1p_pos; exact Hmax).
  assert (forall r1 r2 : Z,
            0 <= r1 <= r2 ->
            (normalizeValue s r1 logMax <= normalizeValue s r2 logMax)%R) as Hmono.
  { intros r1 r2 Hr. rewrite !normalizeValue_unfold by exact Hlog.
    apply pow_mono; [exact Hgamma|].
    pose proof (ln_1p_nonneg r1 ltac:(lia)) as H1.
    pose proof (ln_1p_mono r1 r2 Hr) as H2.
    split.
    - apply Rmult_le_pos; [exact H1 | left; apply Rinv_0_lt_compat; exact Hlog].
    - apply Rmult_le_compat_r; [left; apply Rinv_0_lt_compat; exact Hlog | exact H2]. }
  assert (normalizeValue s 0 logMax = 0%R) as Hzero.
  { rewrite normalizeValue_unfold by exact Hlog.
    rewrite Rplus_0_r, ln_1. unfold Rdiv. rewrite Rmult_0_l.
    apply pow_zero. exact Hgamma. }
  assert (normalizeValue s (maxValue s) logMax = 1%R) as Hone.
  { rewrite normalizeValue_unfold by exact Hlog.
    fold logMax. unfold Rdiv. rewrite Rinv_r by lra. apply pow_one. }
  split; [|split; [exact Hzero | split; [exact Hone | exact Hmono]]].
  split.
  - rewrite <- Hzero. apply Hmono. lia.
  - rewrite <- Hone. apply Hmono. lia.
Qed.

Lemma calculatePixelValue_transparent_witness :
  0 <= Math_round (255 * (1 / 2)) <= 255
  /\ ToUint32 (calculatePixelValue transparentState (1 / 2))
     = Math_round (255 * (1 / 2)) * 2 ^ 24 + 255 * 2 ^ 16 + 255 * 2 ^ 8 + 255.
Proof.
  apply (calculatePixelValue_transparent transparentState (1 / 2) 255 255 255);
    try reflexivity; try lia; lra.
Defined.

Lemma calculatePixelValue_solid_witness :
  exists r g b,
    lerp (Num 0) (Num 255) (1 / 2) = Num r
    /\ lerp (Num 0) (Num 255) (1 / 2) = Num g
    /\ lerp (Num 0) (Num 255) (1 / 2) = Num b
    /\ Z.min 0 255 <= r <= Z.max 0 255
    /\ Z.min 0 255 <= g <= Z.max 0 255
    /\ Z.min 0 255 <= b <= Z.max 0 255
    /\ ToUint32 (calculatePixelValue blank4 (1 / 2))
       = 255 * 2 ^ 24 + b * 2 ^ 16 + g * 2 ^ 8 + r.
Proof.
  apply (calculatePixelValue_solid blank4 (1 / 2) 0 0 0 255 255 255);
    try reflexivity; try lia; lra.
Defined.

Lemma calculatePixelValue_opaque_witness :
  Z.shiftr (ToUint32 (calculatePixelValue blank4 (1 / 3))) 24 = 255.
Proof. apply calculatePixelValue_opaque. reflexivity. Defined.

Lemma normalizeValue_range_witness :
  (0 <= normalizeValue oneHit4 1 (ln (1 + IZR (maxValue oneHit4))) <= 1)%R.
Proof.
  destruct (normalizeValue_range oneHit4 1) as (H & _).
  - simpl. lia.
  - simpl. lra.
  - simpl. lia.
  - exact H.
Defined.

(** ** Rendering the density into the pixel buffer *)

Lemma fold_insert_lookup (g : nat -> option Z) (n : nat) :
  forall (a : nat) (pd : list Z) (j : nat),
    fold_left (fun pd i => match g i with Some x => <[i := x]> pd | None => pd end)
      (seq a n) pd !! j
    = match g j with
      | Some x =>
          if (a <=? j)%nat && (j <? a + n)%nat && (j <? length pd)%nat
          then Some x else pd !! j
      | None => pd !! j
      end.
Proof.
  induction n as [|n IH]; intros a pd j; simpl.
  - destruct (g j); [|reflexivity].
    destruct (Nat.leb_spec a j), (Nat.ltb_spec j (a + 0)); simpl; try reflexivity; lia.
  - rewrite IH.
    assert (length (match g a with Some x => <[a := x]> pd | None => pd end) = length pd)
      as Hlen by (destruct (g a); [apply length_insert | reflexivity]).
    rewrite Hlen.
    destruct (Nat.eq_dec j a) as [->|Hne].
    + destruct (g a) as [x|] eqn:Ha.
      * destruct (Nat.leb_spec (S a) a); [lia|]. simpl.
        destruct (Nat.leb_spec a a); [|lia].
        destruct (Nat.ltb_spec a (a + S n)); [|lia]. simpl.
        destruct (Nat.ltb_spec a (length pd)) as [Hlt|Hge].
        -- apply list_lookup_insert_eq. exact Hlt.
        -- rewrite list_insert_ge by lia. reflexivity.
      * reflexivity.
    + assert (match g a with Some x => <[a := x]> pd | None => pd end !! j = pd !! j) as Hj.
      { destruct (g a); [|reflexivity]. apply list_lookup_insert_ne. congruence. }
      rewrite Hj.
      destruct (g j); [|reflexivity].
      destruct (Nat.leb_spec (S a) j), (Nat.leb_spec a j),
        (Nat.ltb_spec j (S a + n)), (Nat.ltb_spec j (a + S n)); simpl; try reflexivity; lia.
Qed.

Lemma fold_left_pointwise {A B : Type} (f g : A -> B -> A) (l : list B) :
  (forall a b, f a b = g a b) -> forall a, fold_left f l a = fold_left g l a.
Proof.
  intros H. induction l as [|b l IH]; intros a; simpl; [reflexivity|].
  rewrite H. apply IH.
Qed.

(** What rendering leaves in a cell of the pixel buffer. *)
Lemma updatePixelData_cell (s : State) (j : nat) :
  pixelData (updatePixelDataFromMatrix s) !! j
  = match imageMatrix s !! j with
    | Some v =>
        if (0 <? v) && (j <? length (pixelData s))%nat
        then Some (pixelOf s v) else pixelData s !! j
    | None => pixelData s !! j
    end.
Proof.
  unfold updatePixelDataFromMatrix. cbv zeta.
  change (pixelData (set_pixelData ?l s)) with l.
  set (g := fun i => match imageMatrix s !! i with
                     | Some v => if 0 <? v then Some (pixelOf s v) else None
                     | None => None
                     end).
  rewrite (fold_left_pointwise _
             (fun pd i => match g i with Some x => <[i := x]> pd | None => pd end)).
  - rewrite fold_insert_lookup. subst g. cbv beta.
    destruct (imageMatrix s !! j) as [v|] eqn:Hv; [|reflexivity].
    apply lookup_lt_Some in Hv.
    destruct (0 <? v); [|reflexivity]. simpl.
    destruct (Nat.ltb_spec j (length (imageMatrix s))); [reflexivity | lia].
  - intros pd i. subst g. cbv beta.
    destruct (imageMatrix s !! i) as [v|]; [|reflexivity].
    destruct (0 <? v); reflexivity.
Qed.

Lemma updatePixelData_length (s : State) :
  length (pixelData (updatePixelDataFromMatrix s)) = length (pixelData s).
Proof.
  unfold updatePixelDataFromMatrix. cbv zeta.
  change (pixelData (set_pixelData ?l s)) with l.
  generalize (pixelData s) as pd.
  induction (seq 0 (length (imageMatrix s))) as [|i l IH]; intros pd; simpl.
  - reflexivity.
  - rewrite IH. destruct (imageMatrix s !! i) as [v|]; [|reflexivity].
    destruct (0 <? v); [apply length_insert | reflexivity].
Qed.

Lemma updatePixelData_again (s : State) :
  updatePixelDataFromMatrix (updatePixelDataFromMatrix s) = updatePixelDataFromMatrix s.
Proof.
  assert (pixelData (updatePixelDataFromMatrix (updatePixelDataFromMatrix s))
          = pixelData (updatePixelDataFromMatrix s)) as E.
  { apply list_eq. intros j.
    rewrite (updatePixelData_cell (updatePixelDataFromMatrix s) j).
    change (imageMatrix (updatePixelDataFromMatrix s)) with (imageMatrix s).
    rewrite updatePixelData_length.
    rewrite (updatePixelData_cell s j).
    destruct (imageMatrix s !! j) as [v|]; [|reflexivity].
    destruct ((0 <? v) && (j <? length (pixelData s))%nat); reflexivity. }
  unfold updatePixelDataFromMatrix at 1. cbv zeta.
  unfold updatePixelDataFromMatrix at 1 in E. cbv zeta in E.
  change (pixelData (set_pixelData ?l ?s)) with l in E.
  rewrite E. reflexivity.
Qed.

(** X9.  [renderFrame] (and [prepareCanvasForOutput], which it is) writes the
    pixel of every cell with a positive hit count, computed from that
    count, and leaves every other pixel as it was; the buffer keeps its
    length; and rendering a second time changes nothing. *)
Theorem renderFrame_cells (w : World) :
  let s := state w in
  let s' := state (snd (renderFrame w)) in
  length (pixelData s') = length (pixelData s)
  /\ (forall i v, imageMatrix s !! i = Some v -> 0 < v ->
        (i < length (pixelData s))%nat ->
        pixelData s' !! i = Some (pixelOf s v))
  /\ (forall i v, imageMatrix s !! i = Some v -> v <= 0 ->
        pixelData s' !! i = pixelData s !! i)
  /\ (forall i, imageMatrix s !! i = None -> pixelData s' !! i = pixelData s !! i)
  /\ (renderFrame ;; renderFrame) w = renderFrame w.
Proof.
  cbv zeta. rewrite renderFrame_run. simpl snd. simpl state.
  split; [apply updatePixelData_length|].
  split.
  { intros i v Hv Hpos Hi. rewrite updatePixelData_cell, Hv.
    destruct (Z.ltb_spec 0 v); [|lia].
    destruct (Nat.ltb_spec i (length (pixelData (state w)))); [reflexivity | lia]. }
  split.
  { intros i v Hv Hle. rewrite updatePixelData_cell, Hv.
    destruct (Z.ltb_spec 0 v); [lia | reflexivity]. }
  split.
  { intros i Hv. rewrite updatePixelData_cell, Hv. reflexivity. }
  unfold bind. rewrite renderFrame_run, renderFrame_run. simpl state.
  rewrite updatePixelData_again. reflexivity.
Qed.

Lemma normalizeValue_at_max (s : State) :
  1 <= maxValue s ->
  normalizeValue s (maxValue s) (ln (1 + IZR (maxValue s))) = 1%R.
Proof.
  intros Hmax. pose proof (ln_1p_pos (maxValue s) Hmax) as Hlog.
  rewrite normalizeValue_unfold by exact Hlog.
  unfold Rdiv. rewrite Rinv_r by lra. apply pow_one.
Qed.

Lemma lerp_at_one (a b : Z) : lerp (Num a) (Num b) 1 = Num b.
Proof.
  unfold lerp. f_equal.
  replace (IZR a + 1 * (IZR b - IZR a))%R with (IZR b) by ring.
  apply Math_round_IZR.
Qed.

Lemma calculatePixelValue_at_one (s : State) :
  (Settings.solidBg (settings s) = true ->
   numericColor (bgColor s) /\ numericColor (fgColor s)) ->
  calculatePixelValue s 1 = bg32 (fgColor s).
Proof.
  intros Hnum. destruct (Settings.solidBg (settings s)) eqn:Hsolid.
  - destruct (Hnum eq_refl) as [(br & bg & bb & Hbg) (fr & fg & fb & Hfg)].
    rewrite (calculatePixelValue_solid_eq s 1 Hsolid), Hbg, Hfg.
    cbn [RGB.r RGB.g RGB.b]. rewrite !lerp_at_one. reflexivity.
  - unfold calculatePixelValue. rewrite Hsolid. simpl negb. cbv iota zeta.
    rewrite lerp_at_one. unfold bg32. reflexivity.
Qed.

(** X10.  After a render, a cell that holds the largest hit count
    ([maxValue], at least 1) is drawn in the plain foreground colour, fully
    opaque, in both background modes and whatever [gammaExponent] is. *)
Theorem brightest_cell_foreground (s : State) (i : nat) :
  1 <= maxValue s ->
  imageMatrix s !! i = Some (maxValue s) ->
  (i < length (pixelData s))%nat ->
  (Settings.solidBg (settings s) = true ->
   numericColor (bgColor s) /\ numericColor (fgColor s)) ->
  pixelData (updatePixelDataFromMatrix s) !! i = Some (ToUint32 (bg32 (fgColor s)))
  /\ Z.shiftr (ToUint32 (bg32 (fgColor s))) 24 = 255.
Proof.
  intros Hmax Hi Hlen Hnum.
  split; [|apply bg32_opaque].
  rewrite updatePixelData_cell, Hi.
  destruct (Z.ltb_spec 0 (maxValue s)); [|lia].
  destruct (Nat.ltb_spec i (length (pixelData s))); [|lia].
  simpl andb. cbv iota. f_equal. unfold pixelOf.
  rewrite (normalizeValue_at_max s Hmax).
  rewrite (calculatePixelValue_at_one s Hnum). reflexivity.
Qed.

Lemma brightest_cell_foreground_witness :
  pixelData (updatePixelDataFromMatrix oneHit4) !! 5%nat
  = Some (ToUint32 (bg32 (fgColor oneHit4)))
  /\ Z.shiftr (ToUint32 (bg32 (fgColor oneHit4))) 24 = 255.
Proof.
  apply brightest_cell_foreground.
  - simpl. lia.
  - reflexivity.
  - simpl. lia.
  - intros _. split; eexists _, _, _; reflexivity.
Defined.

(** ** The geometry after set-up *)

Lemma polygonLoop_tables (st : Settings.t) (rad : R) (c : Point.t) (n : nat) :
  forall (i : nat) (angle : R) (s : State),
    cosAngles (polygonLoop st rad c n (Z.of_nat i) angle s)
    = cosAngles s ++ map (fun k => cos (rotationAngle st k)) (seq i n)
    /\ sinAngles (polygonLoop st rad c n (Z.of_nat i) angle s)
       = sinAngles s ++ map (fun k => sin (rotationAngle st k)) (seq i n).
Proof.
  induction n as [|n IH]; intros i angle s; simpl.
  - rewrite !app_nil_r. split; reflexivity.
  - replace (Z.of_nat i + 1) with (Z.of_nat (S i)) by lia.
    match goal with |- context [polygonLoop st rad c n _ ?a ?s'] =>
      destruct (IH (S i) a s') as [Hc Hs] end.
    rewrite Hc, Hs. simpl. rewrite <- !app_assoc. simpl.
    unfold rotationAngle. rewrite INR_IZR_INZ. split; reflexivity.
Qed.

Lemma spliceLoop_interleave (mids : list Point.t) :
  forall (i : nat) (pre rest : list Point.t),
    length pre = (2 * i)%nat ->
    (length mids <= length rest)%nat ->
    spliceLoop mids i (pre ++ rest) = pre ++ interleave rest mids.
Proof.
  induction mids as [|m ms IH]; intros i pre rest Hpre Hlen; simpl.
  - destruct rest; reflexivity.
  - destruct rest as [|r rest]; [simpl in Hlen; lia|].
    unfold splice_insert.
    replace (pre ++ r :: rest) with ((pre ++ [r]) ++ rest)
      by (rewrite <- app_assoc; reflexivity).
    rewrite take_app_length', drop_app_length' by (rewrite length_app; simpl; lia).
    replace ((pre ++ [r]) ++ m :: rest) with ((pre ++ [r; m]) ++ rest)
      by (rewrite <- !app_assoc; reflexivity).
    rewrite (IH (S i)).
    + rewrite <- app_assoc. reflexivity.
    + rewrite length_app. simpl. lia.
    + simpl in Hlen. lia.
Qed.

Lemma midpointLoop_mids (st : Settings.t) (f : nat -> Point.t) (n : nat) :
  Settings.sides st = Z.of_nat n ->
  forall (k i : nat) (acc : list Point.t) (w : World),
    (i + k <= n)%nat ->
    midpointLoop st (map f (seq 0 n)) k i acc w
    = (Normal (acc ++ map (fun j => midpointOf (f j) (f (S j mod n)%nat)) (seq i k)), w).
Proof.
  intros Hsides. induction k as [|k IH]; intros i acc w Hi; simpl.
  - rewrite app_nil_r. reflexivity.
  - assert (i < n)%nat as Hlt by lia.
    assert ((S i mod n) < n)%nat as Hlt2 by (apply Nat.mod_upper_bound; lia).
    assert (jsrem (Z.of_nat i + 1) (Settings.sides st) = Some (Z.of_nat (S i mod n))) as Hrem.
    { unfold jsrem. rewrite Hsides.
      destruct (Z.eqb_spec (Z.of_nat n) 0); [lia|]. f_equal.
      rewrite Z.rem_mod_nonneg by lia.
      replace (Z.of_nat i + 1) with (Z.of_nat (S i)) by lia.
      symmetry. apply Nat2Z.inj_mod. }
    rewrite Hrem. unfold at_index.
    destruct (Z.ltb_spec (Z.of_nat (S i mod n)) 0); [lia|].
    rewrite Nat2Z.id.
    rewrite !list_lookup_fmap, !lookup_seq_lt by assumption. simpl.
    unfold bind at 1. unfold ret at 1. cbv beta iota.
    unfold bind at 1. unfold ret at 1. cbv beta iota.
    rewrite IH by lia. rewrite <- app_assoc. reflexivity.
Qed.

Lemma preDrawGeometry_layout (w : World) :
  let s := state w in
  let st := settings s in
  let n := Z.to_nat (Settings.sides st) in
  let f := mainVertex st (radius s) (center s) (- PI / 2) in
  let main := map f (seq 0 n) in
  let mids := map (fun j => midpointOf (f j) (f (S j mod n)%nat)) (seq 0 n) in
  let s' := state (snd (preDrawGeometry w)) in
  mainVertices s' = main
  /\ vertices s'
     = (if Settings.midpointVertex st then interleave main mids else main)
       ++ (if Settings.centerVertex st then [center s] else [])
  /\ cosAngles s' = map (fun k => cos (rotationAngle st k)) (seq 0 n)
  /\ sinAngles s' = map (fun k => sin (rotationAngle st k)) (seq 0 n).
Proof.
  intros s st n f main mids.
  assert (exists s1,
            preDrawGeometry w = (Normal tt, set_state s1 w)
            /\ mainVertices s1 = main
            /\ vertices s1
               = (if Settings.midpointVertex st then interleave main mids else main)
                 ++ (if Settings.centerVertex st then [center s] else [])
            /\ cosAngles s1 = map (fun k => cos (rotationAngle st k)) (seq 0 n)
            /\ sinAngles s1 = map (fun k => sin (rotationAngle st k)) (seq 0 n))
    as (s1 & E & H).
  2:{ cbv zeta. rewrite E. exact H. }
  unfold preDrawGeometry.
  unfold bind at 1. unfold getState at 1. cbv beta iota zeta.
  fold s. fold st.
  unfold bind at 1. unfold modify at 1. cbv beta iota.
  unfold bind at 1. unfold modify at 1. cbv beta iota.
  unfold bind at 1. unfold modify at 1. cbv beta iota.
  set (s3 := set_mainVertices _ _).
  assert (vertices s3 = main /\ mainVertices s3 = main
          /\ cosAngles s3 = map (fun k => cos (rotationAngle st k)) (seq 0 n)
          /\ sinAngles s3 = map (fun k => sin (rotationAngle st k)) (seq 0 n))
    as (Hv3 & Hm3 & Hc3 & Hs3).
  { subst s3. simpl.
    rewrite polygonLoop_vertices.
    destruct (polygonLoop_tables st (radius s) (center s) n 0 (- PI / 2)
                (set_sinAngles [] (set_cosAngles [] (set_vertices [] s)))) as [Hc Hs].
    change (Z.of_nat 0) with 0 in Hc, Hs.
    split; [reflexivity|]. split; [reflexivity|]. split; [exact Hc | exact Hs]. }
  clearbody s3. rewrite !set_state_twice.
  destruct (Settings.midpointVertex st) eqn:Hmid.
  - unfold bind at 1. unfold bind at 1. unfold getState at 1. cbv beta iota.
    simpl state. rewrite Hv3.
    assert (midpointLoop st main (length main) 0 [] (set_state s3 w)
            = (Normal mids, set_state s3 w)) as Hmids.
    { subst main. rewrite length_map, length_seq.
      destruct (Z.le_gt_cases (Settings.sides st) 0) as [Hle|Hgt].
      - assert (n = 0%nat) as -> by (subst n; lia). reflexivity.
      - rewrite (midpointLoop_mids st f n ltac:(subst n; lia) n 0 [] _ ltac:(lia)).
        reflexivity. }
    unfold bind at 1. rewrite Hmids. cbv beta iota.
    unfold modify at 1. cbv beta iota. simpl state. rewrite Hv3.
    replace (spliceLoop mids 0 main) with (interleave main mids).
    2:{ symmetry. apply (spliceLoop_interleave mids 0 [] main); [reflexivity|].
        subst mids main. rewrite !length_map. lia. }
    destruct (Settings.centerVertex st) eqn:Hcen;
      unfold bind, modify, ret; simpl; rewrite ?set_state_twice;
      (eexists; split; [reflexivity|]); simpl; rewrite ?app_nil_r; auto.
  - destruct (Settings.centerVertex st) eqn:Hcen;
      unfold bind, modify, ret; simpl; rewrite ?set_state_twice;
      (eexists; split; [reflexivity|]); simpl; rewrite ?Hv3, ?app_nil_r; auto.
Qed.

(** Everything [preDraw] builds before the walk starts, as [setup] leaves it
    (whether or not the rest of [setup] gets through). *)
Lemma setup_layout (st : Settings.t) (w : World) :
  offscreenCanvas w <> None ->
  let s' := state (snd (setup st w)) in
  center s' = centerOf st
  /\ radius s' = radiusOf st
  /\ mainVertices s' = polygonOf st
  /\ vertices s' = verticesOf st
  /\ cosAngles s' = map (fun k => cos (rotationAngle st k)) (seq 0 (Z.to_nat (Settings.sides st)))
  /\ sinAngles s' = map (fun k => sin (rotationAngle st k)) (seq 0 (Z.to_nat (Settings.sides st))).
Proof.
  intros Hc. cbv zeta.
  pose proof (setup_after_geometry
                (fun s => (center s, radius s, mainVertices s, vertices s,
                           cosAngles s, sinAngles s)) st w Hc
                ltac:(reflexivity) ltac:(reflexivity) ltac:(reflexivity)
                ltac:(reflexivity) ltac:(reflexivity) ltac:(reflexivity)
                ltac:(reflexivity) ltac:(reflexivity) ltac:(reflexivity)
                ltac:(reflexivity)) as E.
  cbv beta in E.
  set (w0 := beforePreDraw st w) in E.
  assert (settings (state w0) = st) as Hst by reflexivity.
  assert (center (state w0) = centerOf st) as Hcen by reflexivity.
  assert (radius (state w0) = radiusOf st) as Hrad by reflexivity.
  pose proof (preDrawGeometry_layout w0) as L. cbv zeta in L.
  rewrite Hst, Hcen, Hrad in L.
  pose proof (preDrawGeometry_keeps center
                ltac:(reflexivity) ltac:(reflexivity) ltac:(reflexivity)
                ltac:(reflexivity) ltac:(reflexivity) w0) as Kc.
  pose proof (preDrawGeometry_keeps radius
                ltac:(reflexivity) ltac:(reflexivity) ltac:(reflexivity)
                ltac:(reflexivity) ltac:(reflexivity) w0) as Kr.
  cbv beta in Kc, Kr. rewrite Hcen in Kc. rewrite Hrad in Kr.
  clearbody w0.
  destruct L as (Lm & Lv & Lc & Ls).
  injection E as E1 E2 E3 E4 E5 E6.
  rewrite E1, E2, E3, E4, E5, E6.
  split; [exact Kc|]. split; [exact Kr|]. split; [exact Lm|].
  split; [exact Lv|]. split; [exact Lc | exact Ls].
Qed.

Lemma mainVertex_on_circle (st : Settings.t) (rad : R) (c : Point.t) (angle : R) (i : nat) :
  dist2 c (mainVertex st rad c angle i) = (rad * rad)%R.
Proof.
  unfold dist2, mainVertex. cbv zeta. simpl.
  set (a := (angle + INR i * (2 * PI / IZR (Settings.sides st)))%R).
  pose proof (sin2_cos2 a) as H. unfold Rsqr in H.
  replace ((cos a * rad + Point.x c - Point.x c) * (cos a * rad + Point.x c - Point.x c)
           + (sin a * rad + Point.y c - Point.y c) * (sin a * rad + Point.y c - Point.y c))%R
    with ((sin a * sin a + cos a * cos a) * (rad * rad))%R by ring.
  rewrite H. ring.
Qed.

Lemma mainVertex_top (st : Settings.t) (rad : R) (c : Point.t) :
  mainVertex st rad c (- PI / 2) 0
  = {| Point.x := Point.x c; Point.y := (Point.y c - rad)%R |}.
Proof.
  unfold mainVertex. cbv zeta. simpl INR.
  replace (- PI / 2 + 0 * (2 * PI / IZR (Settings.sides st)))%R with (- (PI / 2))%R
    by (unfold Rdiv; ring).
  rewrite cos_neg, sin_neg, cos_PI2, sin_PI2. f_equal; ring.
Qed.

Lemma polygonOf_lookup (st : Settings.t) (i : nat) :
  (i < Z.to_nat (Settings.sides st))%nat ->
  polygonOf st !! i = Some (mainVertex st (radiusOf st) (centerOf st) (- PI / 2) i).
Proof.
  intros Hi. unfold polygonOf. rewrite list_lookup_fmap, lookup_seq_lt by exact Hi.
  reflexivity.
Qed.

Lemma polygonOf_length (st : Settings.t) :
  length (polygonOf st) = Z.to_nat (Settings.sides st).
Proof. unfold polygonOf. rewrite length_map, length_seq. reflexivity. Qed.

Lemma polygonOf_on_circle (st : Settings.t) (v : Point.t) :
  In v (polygonOf st) -> dist2 (centerOf st) v = (radiusOf st * radiusOf st)%R.
Proof.
  unfold polygonOf. intros H. apply in_map_iff in H as (i & <- & _).
  apply mainVertex_on_circle.
Qed.

(** X11.  [setup] places the centre in the middle of the canvas and the main
    vertices on the circle of radius [canvasSize / 2 - padding] around it:
    [sides] of them, each exactly at that distance from the centre, the
    first at the top of the circle and each next one a turn of
    [2 * PI / sides] further. *)
Theorem setup_polygon (st : Settings.t) (w : World) :
  offscreenCanvas w <> None ->
  let s' := state (snd (setup st w)) in
  center s' = centerOf st
  /\ radius s' = radiusOf st
  /\ mainVertices s' = polygonOf st
  /\ length (mainVertices s') = Z.to_nat (Settings.sides st)
  /\ (forall v, In v (mainVertices s') ->
        dist2 (center s') v = (radius s' * radius s')%R)
  /\ (0 < Settings.sides st ->
      mainVertices s' !! 0%nat
      = Some {| Point.x := Point.x (centerOf st);
                Point.y := (Point.y (centerOf st) - radiusOf st)%R |}).
Proof.
  intros Hc. cbv zeta.
  destruct (setup_layout st w Hc) as (Ec & Er & Em & _).
  rewrite Ec, Er, Em.
  split; [reflexivity|]. split; [reflexivity|]. split; [reflexivity|].
  split; [apply polygonOf_length|].
  split; [apply polygonOf_on_circle|].
  intros Hsides. rewrite polygonOf_lookup by lia. f_equal. apply mainVertex_top.
Qed.

Lemma interleave_lookup (a : list Point.t) :
  forall (b : list Point.t) (i : nat),
    length a = length b ->
    interleave a b !! (2 * i)%nat = a !! i
    /\ interleave a b !! (2 * i + 1)%nat = b !! i.
Proof.
  induction a as [|x a IH]; intros b i Hlen.
  - destruct b; [|discriminate Hlen]. simpl. rewrite !lookup_nil. split; reflexivity.
  - destruct b as [|y b]; [discriminate Hlen|]. simpl in Hlen.
    destruct i as [|i].
    + split; reflexivity.
    + replace (2 * S i)%nat with (S (S (2 * i))) by lia.
      replace (S (S (2 * i)) + 1)%nat with (S (S (2 * i + 1))) by lia.
      simpl interleave. simpl lookup.
      apply IH. lia.
Qed.

Lemma interleave_length (a : list Point.t) :
  forall b : list Point.t,
    length a = length b -> length (interleave a b) = (2 * length a)%nat.
Proof.
  induction a as [|x a IH]; intros b Hlen.
  - reflexivity.
  - destruct b as [|y b]; [discriminate Hlen|]. simpl in *.
    rewrite IH by lia. lia.
Qed.


Lemma midpointsOf_length (st : Settings.t) :
  length (midpointsOf st) = Z.to_nat (Settings.sides st).
Proof. unfold midpointsOf. cbv zeta. rewrite length_map, length_seq. reflexivity. Qed.

(** X12.  The vertex set after [setup]: the polygon; with [midpointVertex],
    each main vertex is followed by the midpoint of it and the next main
    vertex around the polygon (the last one's midpoint is with the first);
    with [centerVertex] the centre comes last. *)
Theorem setup_vertices (st : Settings.t) (w : World) :
  offscreenCanvas w <> None ->
  let s' := state (snd (setup st w)) in
  let n := Z.to_nat (Settings.sides st) in
  vertices s' = verticesOf st
  /\ length (vertices s') = vertexCount st
  /\ (Settings.midpointVertex st = false ->
      forall i, (i < n)%nat -> vertices s' !! i = mainVertices s' !! i)
  /\ (Settings.midpointVertex st = true ->
      forall i a b,
        mainVertices s' !! i = Some a ->
        mainVertices s' !! (S i mod n)%nat = Some b ->
        vertices s' !! (2 * i)%nat = Some a
        /\ vertices s' !! (2 * i + 1)%nat = Some (midpointOf a b))
  /\ (Settings.centerVertex st = true ->
      vertices s' !! (vertexCount st - 1)%nat = Some (center s')).
Proof.
  intros Hc. cbv zeta.
  destruct (setup_layout st w Hc) as (Ec & _ & Em & Ev & _).
  destruct (setup_geometry st w Hc) as [Hlen _]. cbv zeta in Hlen.
  rewrite Ev, Em, Ec. rewrite Ev in Hlen.
  pose proof (polygonOf_length st) as Lp.
  pose proof (midpointsOf_length st) as Lm.
  split; [reflexivity|]. split; [exact Hlen|].
  unfold verticesOf in *.
  split; [|split].
  - intros Hmid i Hi. rewrite Hmid. apply lookup_app_l. lia.
  - intros Hmid i a b Ha Hb. rewrite Hmid.
    pose proof (lookup_lt_Some _ _ _ Ha) as Hi. rewrite Lp in Hi.
    destruct (interleave_lookup (polygonOf st) (midpointsOf st) i ltac:(lia)) as [I1 I2].
    pose proof (interleave_length (polygonOf st) (midpointsOf st) ltac:(lia)) as Li.
    rewrite !lookup_app_l by lia.
    rewrite I1, I2. split; [exact Ha|].
    rewrite polygonOf_lookup in Ha by exact Hi.
    rewrite polygonOf_lookup in Hb by (apply Nat.mod_upper_bound; lia).
    injection Ha as <-. injection Hb as <-.
    unfold midpointsOf. cbv zeta.
    rewrite list_lookup_fmap, lookup_seq_lt by exact Hi. reflexivity.
  - intros Hcen. rewrite Hcen in *. rewrite length_app in Hlen. simpl in Hlen.
    rewrite lookup_app_r by lia.
    replace (vertexCount st - 1 - length _)%nat with 0%nat by lia. reflexivity.
Qed.

Lemma setup_polygon_witness :
  length (mainVertices (state (snd (setup triangleSettings world0))))
  = Z.to_nat (Settings.sides triangleSettings).
Proof.
  destruct (setup_polygon triangleSettings world0) as (_ & _ & _ & H & _);
    [discriminate | exact H].
Defined.

Lemma setup_vertices_witness :
  length (vertices (state (snd (setup triangleSettings world0))))
  = vertexCount triangleSettings.
Proof.
  destruct (setup_vertices triangleSettings world0) as (_ & H & _);
    [discriminate | exact H].
Defined.

(** ** The random starting point *)

Lemma getRandomPointInShape_point (w : World) :
  let s := state w in
  let n := length (mainVertices s) in
  let k := randomBelow (random w 0%nat) n in
  (0 < n)%nat ->
  exists v2 v3,
    mainVertices s !! k = Some v2
    /\ mainVertices s !! (S k mod n)%nat = Some v3
    /\ getRandomPointInShape w
       = (Normal (pointInTriangle (center s) v2 v3
                    (uval (random w 1%nat)) (uval (random w 2%nat))),
          set_random (rng_tail (rng_tail (rng_tail (random w)))) w).
Proof.
  intros s n k Hn. unfold getRandomPointInShape.
  unfold bind at 1. unfold getState at 1. cbv beta iota zeta.
  unfold bind at 1. unfold Math_random at 1. cbv beta iota.
  unfold bind at 1. unfold Math_random at 1. cbv beta iota.
  unfold bind at 1. unfold Math_random at 1. cbv beta iota.
  simpl random. simpl state. fold s. fold n. fold k.
  assert (k < n)%nat as Ht by (apply randomBelow_lt; exact Hn).
  destruct (lookup_lt_is_Some_2 (mainVertices s) k Ht) as [v2 Hv2].
  assert (S k mod n < n)%nat as Ht3 by (apply Nat.mod_upper_bound; lia).
  destruct (lookup_lt_is_Some_2 (mainVertices s) _ Ht3) as [v3 Hv3].
  exists v2, v3. split; [exact Hv2|]. split; [exact Hv3|].
  assert (at_index (mainVertices s) (jsrem (Z.of_nat k + 1) (Z.of_nat n)) = Some v3) as Hat.
  { unfold jsrem. destruct (Z.eqb_spec (Z.of_nat n) 0) as [|_]; [lia|].
    rewrite Z.rem_mod_nonneg by lia.
    replace (Z.of_nat k + 1) with (Z.of_nat (S k)) by lia.
    rewrite <- Nat2Z.inj_mod. unfold at_index.
    destruct (Z.ltb_spec (Z.of_nat (S k mod n)) 0); [lia|].
    rewrite Nat2Z.id. exact Hv3. }
  rewrite Hat.
  unfold bind at 1. rewrite Hv2. simpl defined. unfold ret at 1. cbv beta iota.
  unfold bind at 1. simpl defined. unfold ret at 1. cbv beta iota.
  reflexivity.
Qed.

Lemma getRandomPointInShape_empty (w : World) :
  mainVertices (state w) = [] ->
  getRandomPointInShape w
  = (TypeError, set_random (rng_tail (rng_tail (rng_tail (random w)))) w).
Proof.
  intros H. unfold getRandomPointInShape.
  unfold bind at 1. unfold getState at 1. cbv beta iota zeta.
  unfold bind at 1. unfold Math_random at 1. cbv beta iota.
  unfold bind at 1. unfold Math_random at 1. cbv beta iota.
  unfold bind at 1. unfold Math_random at 1. cbv beta iota.
  simpl state. rewrite H. reflexivity.
Qed.

Lemma sqrt_unit (u : unit01) : (0 <= sqrt (uval u) <= 1)%R.
Proof.
  destruct (uval_range u) as [H0 H1]. split; [apply sqrt_pos|].
  rewrite <- sqrt_1. apply sqrt_le_1_alt. lra.
Qed.

(** X13.  With at least one main vertex, [getRandomPointInShape] draws three
    random numbers and returns a point of the triangle made by the centre
    and two neighbouring main vertices (the one the first draw selects and
    the next around the polygon): the centre plus non-negative multiples
    [a] and [b] of the two edge vectors, with [a + b <= 1]. *)
Theorem getRandomPointInShape_inside (w : World) :
  let s := state w in
  let n := length (mainVertices s) in
  let k := randomBelow (random w 0%nat) n in
  (0 < n)%nat ->
  exists v2 v3 a b p,
    mainVertices s !! k = Some v2
    /\ mainVertices s !! (S k mod n)%nat = Some v3
    /\ (0 <= a)%R /\ (0 <= b)%R /\ (a + b <= 1)%R
    /\ Point.x p = (Point.x (center s) + a * (Point.x v2 - Point.x (center s))
                    + b * (Point.x v3 - Point.x (center s)))%R
    /\ Point.y p = (Point.y (center s) + a * (Point.y v2 - Point.y (center s))
                    + b * (Point.y v3 - Point.y (center s)))%R
    /\ getRandomPointInShape w
       = (Normal p, set_random (rng_tail (rng_tail (rng_tail (random w)))) w).
Proof.
  intros s n k Hn.
  destruct (getRandomPointInShape_point w Hn) as (v2 & v3 & H2 & H3 & E).
  fold s in H2, H3, E. fold n in H2, H3. fold k in H2, H3.
  pose proof (sqrt_unit (random w 1%nat)) as Hs.
  destruct (uval_range (random w 2%nat)) as [Hr0 Hr1].
  exists v2, v3,
    (sqrt (uval (random w 1%nat)) * (1 - uval (random w 2%nat)))%R,
    (sqrt (uval (random w 1%nat)) * uval (random w 2%nat))%R,
    (pointInTriangle (center s) v2 v3 (uval (random w 1%nat)) (uval (random w 2%nat))).
  split; [exact H2|]. split; [exact H3|].
  split; [apply Rmult_le_pos; lra|].
  split; [apply Rmult_le_pos; lra|].
  split; [nra|].
  split; [unfold pointInTriangle; simpl; ring|].
  split; [unfold pointInTriangle; simpl; ring | exact E].
Qed.

Lemma getRandomPointInShape_inside_witness :
  exists v2 v3 a b p,
    mainVertices (state cornerWorld)
      !! randomBelow (random cornerWorld 0%nat) (length (mainVertices (state cornerWorld)))
    = Some v2
    /\ mainVertices (state cornerWorld)
         !! (S (randomBelow (random cornerWorld 0%nat)
                  (length (mainVertices (state cornerWorld))))
             mod length (mainVertices (state cornerWorld)))%nat
       = Some v3
    /\ (0 <= a)%R /\ (0 <= b)%R /\ (a + b <= 1)%R
    /\ Point.x p = (Point.x (center (state cornerWorld))
                    + a * (Point.x v2 - Point.x (center (state cornerWorld)))
                    + b * (Point.x v3 - Point.x (center (state cornerWorld))))%R
    /\ Point.y p = (Point.y (center (state cornerWorld))
                    + a * (Point.y v2 - Point.y (center (state cornerWorld)))
                    + b * (Point.y v3 - Point.y (center (state cornerWorld))))%R
    /\ getRandomPointInShape cornerWorld
       = (Normal p,
          set_random (rng_tail (rng_tail (rng_tail (random cornerWorld)))) cornerWorld).
Proof. apply (getRandomPointInShape_inside cornerWorld). simpl. lia. Defined.

(** ** Set-up that cannot get through *)

(** X14.  With [sides] zero or negative [setup] throws: no main vertex is
    built, and [getRandomPointInShape] reads a coordinate of the missing
    vertex after its three draws.  The settings are already replaced, the
    burn-in and [erase] are not reached, so the history stays as it was. *)
Theorem setup_without_sides (st : Settings.t) (w : World) :
  offscreenCanvas w <> None ->
  Settings.sides st <= 0 ->
  let s' := state (snd (setup st w)) in
  fst (setup st w) = TypeError
  /\ settings s' = st
  /\ mainVertices s' = []
  /\ prevIndex s' = prevIndex (state w)
  /\ random (snd (setup st w)) = rng_tail (rng_tail (rng_tail (random w))).
Proof.
  intros Hc Hsides. cbv zeta.
  rewrite setup_with_canvas by exact Hc.
  set (w0 := beforePreDraw st w).
  assert (prevIndex (state w0) = prevIndex (state w)) as Hp0 by reflexivity.
  assert (random w0 = random w) as Hr0.
  { subst w0. unfold beforePreDraw. cbv zeta.
    destruct (offscreenCanvas w) as [c|]; [|reflexivity].
    destruct (bool_decide _); reflexivity. }
  destruct (preDrawGeometry_spec w0) as (s1 & Hg & Hst & _ & Hm & _).
  change (settings (state w0)) with st in Hst, Hm.
  clearbody w0.
  pose proof (preDrawGeometry_keeps prevIndex
                ltac:(reflexivity) ltac:(reflexivity) ltac:(reflexivity)
                ltac:(reflexivity) ltac:(reflexivity) w0) as Hp1.
  rewrite Hg in Hp1. simpl in Hp1. rewrite Hp0 in Hp1.
  assert (mainVertices s1 = []) as Hnil.
  { destruct (mainVertices s1); [reflexivity | simpl in Hm; lia]. }
  assert ((preDraw ;; erase) w0
          = (TypeError,
             set_random (rng_tail (rng_tail (rng_tail (random w0)))) (set_state s1 w0)))
    as E.
  { unfold preDraw. unfold bind at 1. unfold bind at 1. rewrite Hg.
    unfold bind at 1. rewrite getRandomPointInShape_empty by exact Hnil.
    reflexivity. }
  rewrite E. simpl. rewrite Hr0. auto.
Qed.

Lemma setup_without_sides_witness : fst (setup noSides world0) = TypeError.
Proof.
  destruct (setup_without_sides noSides world0) as (H & _).
  - discriminate.
  - simpl. lia.
  - exact H.
Defined.

(** X15.  Before [initCanvas] there is no canvas: [setup] (and so [init] and
    [reset]) throws when it reads the canvas width.  By then it has replaced
    the settings, the centre and the radius; nothing else has changed: no
    buffer is allocated and no vertex is built. *)
Theorem setup_before_initCanvas (st : Settings.t) (w : World) :
  offscreenCanvas w = None ->
  setup st w
  = (TypeError,
     set_state (set_radius (radiusOf st) (set_center (centerOf st)
                                            (set_settings st (state w)))) w)
  /\ fst (onmessage (init st) w) = TypeError.
Proof.
  intros Hc.
  assert (setup st w
          = (TypeError,
             set_state (set_radius (radiusOf st) (set_center (centerOf st)
                                                    (set_settings st (state w)))) w)) as E.
  { unfold setup.
    unfold bind at 1. unfold modify at 1. cbv beta iota.
    unfold bind at 1. unfold modify at 1. cbv beta iota.
    unfold bind at 1. unfold modify at 1. cbv beta iota.
    unfold bind at 1. unfold getState at 1. cbv beta iota.
    unfold bind at 1. unfold resizeCanvas at 1. simpl offscreenCanvas.
    rewrite Hc. reflexivity. }
  split; [exact E|].
  unfold onmessage, bind. rewrite E. reflexivity.
Qed.

Lemma setup_before_initCanvas_witness :
  fst (onmessage (init triangleSettings) noCanvasWorld) = TypeError.
Proof.
  destruct (setup_before_initCanvas triangleSettings noCanvasWorld) as (_ & H).
  - reflexivity.
  - exact H.
Defined.

(** ** The walk stays inside the circle *)
























(** ** Counting hits *)












(** ** The move history *)

Lemma afterSteps_history (m : nat) :
  forall w : World,
    walkReady (state w) ->
    (length (prevIndex (state w)) <= 10)%nat ->
    walkReady (state (afterSteps m w))
    /\ length (prevIndex (state (afterSteps m w)))
       = Nat.min 10 (length (prevIndex (state w)) + m).
Proof.
  induction m as [|m IH]; intros w Hready Hlen; cbn [afterSteps].
  - split; [exact Hready | lia].
  - destruct (updateMatrix_ok w Hready) as (k & w' & _ & _ & Hu & Hp & _ & Hready' & _).
    rewrite Hu. cbn [snd].
    pose proof (pushHistory_length (prevIndex (state w)) (Some k) Hlen) as Hl.
    rewrite <- Hp in Hl.
    destruct (IH w' Hready' ltac:(lia)) as [I1 I2].
    split; [exact I1|]. rewrite I2, Hl. lia.
Qed.

(** X19.  The move history is a window of the last ten choices: after [m]
    steps from a state the walk can step from, it holds
    [min 10 (length before + m)] entries, each an index of a vertex. *)
Theorem history_window (w : World) (m : nat) :
  walkReady (state w) ->
  (length (prevIndex (state w)) <= 10)%nat ->
  let s' := state (afterSteps m w) in
  length (prevIndex s') = Nat.min 10 (length (prevIndex (state w)) + m)
  /\ (forall e, In e (prevIndex s') ->
        exists k, e = Some k /\ (k < length (vertices s'))%nat).
Proof.
  intros Hready Hlen. cbv zeta.
  destruct (afterSteps_history m w Hready Hlen) as [(_ & _ & _ & Hh) Hl].
  split; [exact Hl | exact Hh].
Qed.

Lemma forRange_history (n : nat) :
  forall (start : nat) (w : World),
    walkReady (state w) ->
    (length (prevIndex (state w)) <= 10)%nat ->
    exists w',
      forRange start n (fun _ => updateCurrentPoint) w = (Normal tt, w')
      /\ walkReady (state w')
      /\ length (prevIndex (state w')) = Nat.min 10 (length (prevIndex (state w)) + n).
Proof.
  induction n as [|n IH]; intros start w Hready Hlen; cbn [forRange].
  - exists w. split; [reflexivity|]. split; [exact Hready | lia].
  - destruct (updateCurrentPoint_ok w Hready) as (k & w1 & _ & _ & Hu & Hp & _ & Hready1).
    unfold bind at 1. rewrite Hu.
    pose proof (pushHistory_length (prevIndex (state w)) (Some k) Hlen) as Hl.
    rewrite <- Hp in Hl.
    destruct (IH (S start) w1 Hready1 ltac:(lia)) as (w' & E & Hr & Hl').
    exists w'. split; [exact E|]. split; [exact Hr|]. rewrite Hl', Hl. lia.
Qed.

Lemma loneVertexWorld_ready : walkReady (state loneVertexWorld).
Proof.
  split; [simpl; lia|]. split; [reflexivity|]. split.
  - intros [|i] allowed H; [|discriminate H]. injection H as <-.
    split; [discriminate|]. intros j [<-|[]]. simpl. lia.
  - intros e [].
Defined.

Lemma history_window_witness :
  length (prevIndex (state (afterSteps 12 loneVertexWorld)))
  = Nat.min 10 (length (prevIndex (state loneVertexWorld)) + 12).
Proof.
  destruct (history_window loneVertexWorld 12) as (H & _).
  - exact loneVertexWorld_ready.
  - simpl. lia.
  - exact H.
Defined.

Lemma preDraw_history (w : World) :
  let st := settings (state w) in
  0 < Settings.sides st ->
  rowsNonEmpty st ->
  historyFits st (state w) ->
  (length (prevIndex (state w)) <= 10)%nat ->
  exists w',
    preDraw w = (Normal tt, w')
    /\ walkReady (state w')
    /\ length (prevIndex (state w')) = 10%nat.
Proof.
  intros st Hsides Hrows Hhist Hlen.
  destruct (preDrawGeometry_spec w) as (s' & Hg & Hst & Hv & Hm & Ha).
  fold st in Hst, Hv, Hm, Ha.
  pose proof (preDrawGeometry_keeps prevIndex
                ltac:(reflexivity) ltac:(reflexivity) ltac:(reflexivity)
                ltac:(reflexivity) ltac:(reflexivity) w) as Hp.
  rewrite Hg in Hp. simpl in Hp.
  destruct (getRandomPointInShape_ok (set_state s' w)) as [p Hrp].
  { simpl. rewrite Hm. lia. }
  unfold preDraw.
  unfold bind at 1. rewrite Hg.
  unfold bind at 1. rewrite Hrp.
  unfold bind at 1. unfold modify at 1. cbv beta iota.
  set (w2 := set_state _ _).
  assert (walkReady (state w2)) as Hready.
  { subst w2. simpl.
    assert (0 < vertexCount st)%nat as Hpos.
    { unfold vertexCount. destruct (Settings.midpointVertex st); lia. }
    unfold walkReady. simpl. rewrite Hv, Ha, Hp.
    split; [exact Hpos|].
    split; [rewrite length_map, length_seq; reflexivity|].
    split; [|exact Hhist].
    intros i allowed Hi.
    rewrite list_lookup_fmap in Hi.
    destruct (seq 0 (vertexCount st) !! i) as [i'|] eqn:Hseq; [|discriminate].
    apply lookup_seq in Hseq as [-> Hlt]. simpl in Hi. injection Hi as <-.
    split; [apply Hrows; exact Hlt | intros j; apply allowedFrom_bound]. }
  assert (length (prevIndex (state w2)) <= 10)%nat as Hlen2
    by (subst w2; simpl; rewrite Hp; exact Hlen).
  clearbody w2.
  destruct (forRange_history DEFAULT_BURN_IN_COUNT 0 w2 Hready Hlen2) as (w3 & E & Hr & Hl).
  exists w3. split; [exact E|]. split; [exact Hr|].
  rewrite Hl. unfold DEFAULT_BURN_IN_COUNT. lia.
Qed.

Lemma movesFreely_full_history (st : Settings.t) (s : State) :
  settings s = st ->
  length (prevIndex s) = 10%nat ->
  Settings.restriction st = "none" \/ Settings.restriction st = "no-repeat"
  \/ Settings.restriction st = "no-neighbor" \/ Settings.restriction st = "no-return" ->
  movesFreely s = false.
Proof.
  intros Hset Hl Hrule. unfold movesFreely. rewrite Hset, Hl.
  destruct Hrule as [-> | [-> | [-> | ->]]]; reflexivity.
Qed.

(** X20.  Without a 2d context [erase] returns at once, so a [setup] that
    gets through does not clear what the burn-in left: the history holds
    the last ten burn-in choices, and the first step of the run is not
    drawn among all vertices when the rule restricts it. *)
Theorem setup_without_context (st : Settings.t) (w : World) :
  offscreenCanvas w <> None ->
  ctx w = false ->
  0 < Settings.sides st ->
  rowsNonEmpty st ->
  historyFits st (state w) ->
  (length (prevIndex (state w)) <= 10)%nat ->
  let s' := state (snd (setup st w)) in
  fst (setup st w) = Normal tt
  /\ length (prevIndex s') = 10%nat
  /\ walkReady s'
  /\ (Settings.restriction st = "none" \/ Settings.restriction st = "no-repeat"
      \/ Settings.restriction st = "no-neighbor" \/ Settings.restriction st = "no-return" ->
      movesFreely s' = false).
Proof.
  intros Hc Hctx Hsides Hrows Hhist Hlen. cbv zeta.
  rewrite setup_with_canvas by exact Hc.
  set (w0 := beforePreDraw st w) in *.
  assert (settings (state w0) = st) as Hst0 by reflexivity.
  assert (prevIndex (state w0) = prevIndex (state w)) as Hp0 by reflexivity.
  pose proof (beforePreDraw_ctx st w) as Hctx0. fold w0 in Hctx0. rewrite Hctx in Hctx0.
  clearbody w0.
  destruct (preDraw_history w0) as (w1 & E & Hr & Hl).
  { rewrite Hst0. exact Hsides. }
  { rewrite Hst0. exact Hrows. }
  { rewrite Hst0. intros e He. rewrite Hp0 in He. apply Hhist. exact He. }
  { rewrite Hp0. exact Hlen. }
  pose proof (preDraw_keeps_ctx w0) as Kc. rewrite E in Kc. simpl in Kc.
  rewrite Hctx0 in Kc.
  pose proof (preDraw_keeps settings
                ltac:(reflexivity) ltac:(reflexivity) ltac:(reflexivity)
                ltac:(reflexivity) ltac:(reflexivity) ltac:(reflexivity)
                ltac:(reflexivity) w0) as Ks.
  rewrite E in Ks. simpl in Ks. rewrite Hst0 in Ks.
  unfold bind. rewrite E.
  unfold erase. rewrite Kc. simpl.
  split; [reflexivity|]. split; [exact Hl|]. split; [exact Hr|].
  apply (movesFreely_full_history st); assumption.
Qed.

Lemma setup_without_context_witness :
  length (prevIndex (state (snd (setup triangleSettings noContextWorld)))) = 10%nat.
Proof.
  destruct (setup_without_context triangleSettings noContextWorld) as (_ & H & _).
  - discriminate.
  - reflexivity.
  - simpl. lia.
  - apply rowsNonEmpty_none; [reflexivity | simpl; lia].
  - intros e [].
  - simpl. lia.
  - exact H.
Defined.

(** ** Filled pixels *)

Lemma countNonZero_cons (c : Z) (l : list Z) :
  countNonZero (c :: l) = (if c =? 0 then 0 else 1) + countNonZero l.
Proof.
  unfold countNonZero. simpl. destruct (c =? 0); simpl; lia.
Qed.

Lemma countNonZero_insert (l : list Z) :
  forall (i : nat) (old v : Z),
    l !! i = Some old ->
    countNonZero (<[i := v]> l)
    = countNonZero l - (if old =? 0 then 0 else 1) + (if v =? 0 then 0 else 1).
Proof.
  induction l as [|c l IH]; intros i old v Hi; [discriminate Hi|].
  destruct i as [|i].
  - injection Hi as ->. simpl insert. rewrite !countNonZero_cons. lia.
  - simpl in Hi. change (<[S i := v]> (c :: l)) with (c :: <[i := v]> l).
    rewrite !countNonZero_cons, (IH i old v Hi). lia.
Qed.

Lemma countNonZero_replicate (n : nat) : countNonZero (replicate n 0) = 0.
Proof.
  induction n as [|n IH]; [reflexivity|].
  change (replicate (S n) 0) with (0 :: replicate n 0).
  rewrite countNonZero_cons, IH. reflexivity.
Qed.

Lemma plotPixel_accounted (p : option (Z * Z)) (s : State) :
  cellsInRange s -> accounted s -> accounted (plotPixel p s).
Proof.
  intros Hcells Hacc. unfold plotPixel.
  destruct p as [[x y]|]; [|exact Hacc].
  set (index := y * Settings.canvasSize (settings s) + x).
  unfold at_index.
  destruct (Z.ltb_spec index 0) as [|Hidx]; [exact Hacc|].
  destruct (imageMatrix s !! Z.to_nat index) as [old|] eqn:Hold; [|exact Hacc].
  assert (0 <= old <= 2 ^ 24) as Hr.
  { unfold cellsInRange in Hcells. rewrite Forall_forall in Hcells.
    apply Hcells. eapply list_elem_of_lookup_2. exact Hold. }
  pose proof (fround_increment old Hr) as Hf.
  assert (fround (old + 1) <> 0) as Hnz.
  { destruct (Z.eq_dec old 0) as [->|]; [discriminate | lia]. }
  unfold accounted in *. cbv zeta.
  match goal with |- context [if ?c then set_maxValue _ _ else _] => destruct c end;
    destruct (Z.eqb_spec old 0) as [E0|N0]; simpl;
    rewrite (countNonZero_insert _ _ old _ Hold);
    destruct (Z.eqb_spec (fround (old + 1)) 0); try contradiction;
    destruct (Z.eqb_spec old 0); try contradiction; lia.
Qed.

Lemma plotAll_accounted (ps : list (option (Z * Z))) :
  forall s, cellsInRange s -> accounted s -> accounted (plotAll ps s).
Proof.
  unfold plotAll. induction ps as [|p ps IH]; intros s Hcells Hacc; simpl; [exact Hacc|].
  destruct (plotPixel_monotone p s Hcells) as (H1 & _).
  apply IH; [exact H1 | apply plotPixel_accounted; assumption].
Qed.

Lemma updateMatrix_accounted (w : World) :
  cellsInRange (state w) -> accounted (state w) ->
  accounted (state (snd (updateMatrix w))).
Proof.
  intros Hcells Hacc.
  pose proof (updateCurrentPoint_keeps
                (fun s => (imageMatrix s, filledPixels s, newPixelsSinceLastCheck s))
                ltac:(reflexivity) ltac:(reflexivity) w) as K.
  cbv beta in K.
  unfold updateMatrix, bind.
  destruct (updateCurrentPoint w) as [[[]|] w1]; simpl in *;
    injection K as K1 K2 K3.
  - apply plotAll_accounted.
    + unfold cellsInRange. rewrite K1. exact Hcells.
    + unfold accounted. rewrite K1, K2, K3. exact Hacc.
  - unfold accounted. rewrite K1, K2, K3. exact Hacc.
Qed.

(** ** The main loop *)

Lemma hoare_ret {A : Type} (P : World -> Prop) (a : A) (Q : A -> World -> Prop) :
  (forall w, P w -> Q a w) -> hoare P (ret a) Q.
Proof. intros H w Hw. exists a, w. split; [reflexivity | apply H; exact Hw]. Qed.

Lemma hoare_bind {A B : Type} (P : World -> Prop) (m : JS A) (Q : A -> World -> Prop)
    (k : A -> JS B) (R : B -> World -> Prop) :
  hoare P m Q -> (forall a, hoare (Q a) (k a) R) -> hoare P (bind m k) R.
Proof.
  intros Hm Hk w Hw. destruct (Hm w Hw) as (a & w1 & E & Hq).
  destruct (Hk a w1 Hq) as (b & w2 & E2 & Hr).
  exists b, w2. split; [|exact Hr]. unfold bind. rewrite E. exact E2.
Qed.

Lemma hoare_conseq {A : Type} (P P' : World -> Prop) (m : JS A) (Q Q' : A -> World -> Prop) :
  hoare P' m Q' -> (forall w, P w -> P' w) -> (forall a w, Q' a w -> Q a w) ->
  hoare P m Q.
Proof.
  intros Hm HP HQ w Hw. destruct (Hm w (HP w Hw)) as (a & w' & E & Hq).
  exists a, w'. split; [exact E | apply HQ; exact Hq].
Qed.

Lemma hoare_getState (P : World -> Prop) :
  hoare P getState (fun s w => P w /\ s = state w).
Proof. intros w Hw. exists (state w), w. split; [reflexivity | split; [exact Hw | reflexivity]]. Qed.

Lemma hoare_modify (P : World -> Prop) (f : State -> State) (Q : unit -> World -> Prop) :
  (forall w, P w -> Q tt (set_state (f (state w)) w)) -> hoare P (modify f) Q.
Proof. intros H w Hw. exists tt, (set_state (f (state w)) w). split; [reflexivity | apply H; exact Hw]. Qed.

Lemma hoare_forRange (I : World -> Prop) (body : nat -> JS unit) (n : nat) :
  (forall i, hoare I (body i) (fun _ => I)) ->
  forall start, hoare I (forRange start n body) (fun _ => I).
Proof.
  intros Hbody. induction n as [|n IH]; intros start; simpl.
  - apply hoare_ret. auto.
  - eapply hoare_bind; [apply Hbody | intros u; apply IH].
Qed.

Lemma engineInv_view (st : Settings.t) (w w' : World) :
  (vertices (state w'), allowedMoves (state w'), prevIndex (state w'),
   imageMatrix (state w'), settings (state w'))
  = (vertices (state w), allowedMoves (state w), prevIndex (state w),
     imageMatrix (state w), settings (state w)) ->
  filledPixels (state w') + newPixelsSinceLastCheck (state w')
  = filledPixels (state w) + newPixelsSinceLastCheck (state w) ->
  engineInv st w -> engineInv st w'.
Proof.
  intros E Hsum (Hr & Hc & Ha & Hs). injection E as E1 E2 E3 E4 E5.
  unfold engineInv, walkReady, cellsInRange, accounted in *.
  rewrite E1, E2, E3, E4, E5, Hsum. auto.
Qed.

(** One step keeps the engine's invariant and leaves alone what only the
    loop and the stability check write. *)
Lemma updateMatrix_engine (st : Settings.t) {X : Type} (f : State -> X) (v : X) :
  (forall x s, f (set_prevIndex x s) = f s) ->
  (forall x s, f (set_currentPoint x s) = f s) ->
  (forall x s, f (set_newPixelsSinceLastCheck x s) = f s) ->
  (forall x s, f (set_imageMatrix x s) = f s) ->
  (forall x s, f (set_maxValue x s) = f s) ->
  hoare (fun w => engineInv st w /\ f (state w) = v) updateMatrix
        (fun _ w => engineInv st w /\ f (state w) = v).
Proof.
  intros F1 F2 F3 F4 F5 w [(Hr & Hc & Ha & Hs) Hf].
  destruct (updateMatrix_ok w Hr) as (k & w' & _ & _ & Hu & _ & _ & Hr' & Hs' & _).
  exists tt, w'. split; [exact Hu|].
  destruct (updateMatrix_monotone w Hc) as (Hc' & _).
  pose proof (updateMatrix_accounted w Hc Ha) as Ha'.
  pose proof (updateMatrix_keeps f F1 F2 F3 F4 F5 w) as Kf.
  rewrite Hu in Hc', Ha', Kf. simpl in Hc', Ha', Kf.
  split; [|congruence].
  split; [exact Hr'|]. split; [exact Hc'|]. split; [exact Ha' | congruence].
Qed.

Lemma checkStability_view (s : State) :
  let s' := snd (checkStability s) in
  (vertices s', allowedMoves s', prevIndex s', imageMatrix s', settings s', isRunning s')
  = (vertices s, allowedMoves s, prevIndex s, imageMatrix s, settings s, isRunning s)
  /\ filledPixels s' + newPixelsSinceLastCheck s'
     = filledPixels s + newPixelsSinceLastCheck s
  /\ iterations s' = 0
  /\ (fst (checkStability s) = true -> STABILITY_WINDOW <= stabilityCounter s')
  /\ (stabilityCounter s' = stabilityCounter s + 1 \/ stabilityCounter s' = 0).
Proof.
  unfold checkStability. cbv zeta.
  destruct (Rlt_dec _ _).
  - destruct (STABILITY_WINDOW <=? _) eqn:Hw; simpl in *;
      (split; [reflexivity|]); (split; [lia|]); (split; [reflexivity|]);
      (split; [|left; reflexivity]).
    + intros _. apply Z.leb_le. exact Hw.
    + discriminate.
  - simpl. split; [reflexivity|]. split; [lia|]. split; [reflexivity|].
    split; [discriminate | right; reflexivity].
Qed.

Lemma pointsPerBatch_eq (st : Settings.t) :
  (if Settings.symmetrical st then Settings.sides st * 2 else 1) = pointsPerStep st.
Proof. unfold pointsPerStep. destruct (Settings.symmetrical st); lia. Qed.

Lemma batch_steps (st : Settings.t) (w : World) :
  engineInv st w ->
  exists w1,
    forRange 0 DEFAULT_BATCH_SIZE (fun _ => updateMatrix) w = (Normal tt, w1)
    /\ engineInv st w1
    /\ (isRunning (state w1), iterations (state w1), stabilityView (state w1))
       = (isRunning (state w), iterations (state w), stabilityView (state w)).
Proof.
  intros Hinv.
  pose proof (hoare_forRange
                (fun w0 => engineInv st w0
                           /\ (isRunning (state w0), iterations (state w0),
                               stabilityView (state w0))
                              = (isRunning (state w), iterations (state w),
                                 stabilityView (state w)))
                (fun _ => updateMatrix) DEFAULT_BATCH_SIZE) as H.
  destruct (H (fun _ => updateMatrix_engine st
                          (fun s => (isRunning s, iterations s, stabilityView s)) _
                          ltac:(reflexivity) ltac:(reflexivity) ltac:(reflexivity)
                          ltac:(reflexivity) ltac:(reflexivity))
              0%nat w (conj Hinv eq_refl)) as ([] & w1 & E & Hinv1 & Hv).
  exists w1. split; [exact E|]. split; [exact Hinv1 | exact Hv].
Qed.

Lemma stop_running (st : Settings.t) (w : World) :
  engineInv st w ->
  isRunning (state w) = true ->
  exists w',
    stop w = (Normal tt, w')
    /\ engineInv st w'
    /\ isRunning (state w') = false
    /\ (iterations (state w'), stabilityView (state w'))
       = (iterations (state w), stabilityView (state w)).
Proof.
  intros Hinv Hrun. unfold stop. unfold bind at 1. unfold getState. cbv beta iota.
  rewrite Hrun. unfold bind, modify. cbn [negb]. cbv beta iota.
  rewrite renderFrame_run. cbn [state set_state].
  eexists. split; [reflexivity|]. cbn [state set_state].
  split; [|split; reflexivity].
  apply (engineInv_view st w); [reflexivity | reflexivity | exact Hinv].
Qed.

Lemma drawBatches_spec (st : Settings.t) (b : nat) :
  forall w : World,
    engineInv st w ->
    isRunning (state w) = true ->
    exists fin w',
      drawBatches b w = (Normal fin, w')
      /\ engineInv st w'
      /\ isRunning (state w') = negb fin
      /\ (fin = true ->
          Settings.autoStop st = true /\ STABILITY_WINDOW <= stabilityCounter (state w'))
      /\ (0 <= pointsPerStep st ->
          0 <= stabilityCounter (state w) -> 0 <= iterations (state w) ->
          0 <= stabilityCounter (state w') /\ 0 <= iterations (state w')
          /\ quietProgress (state w')
             <= quietProgress (state w)
                + Z.of_nat b * (Z.of_nat DEFAULT_BATCH_SIZE * pointsPerStep st))
      /\ (Settings.autoStop st = false ->
          fin = false
          /\ stabilityView (state w') = stabilityView (state w)
          /\ iterations (state w')
             = iterations (state w)
               + Z.of_nat b * (Z.of_nat DEFAULT_BATCH_SIZE * pointsPerStep st)).
Proof.
  set (K := Z.of_nat DEFAULT_BATCH_SIZE * pointsPerStep st).
  assert (0 <= pointsPerStep st -> 0 <= K) as HK
    by (intros H; apply Z.mul_nonneg_nonneg; [apply Nat2Z.is_nonneg | exact H]).
  induction b as [|b IH]; intros w Hinv Hrun.
  - exists false, w. cbn [drawBatches].
    split; [reflexivity|]. split; [exact Hinv|]. split; [exact Hrun|].
    split; [discriminate|].
    change (Z.of_nat 0) with 0. rewrite Z.mul_0_l, !Z.add_0_r.
    split; [intros _ H1 H2; split; [exact H1 | split; [exact H2 | lia]]|].
    intros _. split; [reflexivity|]. split; reflexivity.
  - cbn [drawBatches].
    destruct (batch_steps st w Hinv) as (w1 & E1 & Hinv1 & Hv1).
    assert (isRunning (state w1) = isRunning (state w)) as Hr1 by (injection Hv1; auto).
    assert (iterations (state w1) = iterations (state w)) as Hi1 by (injection Hv1; auto).
    assert (stabilityView (state w1) = stabilityView (state w)) as Hs1
      by (unfold stabilityView in *; injection Hv1; intros; congruence).
    clear Hv1.
    unfold bind at 1. rewrite E1. cbv beta iota.
    unfold bind at 1. unfold modify at 1. cbv beta iota.
    assert (settings (state w1) = st) as Hst1 by apply Hinv1.
    rewrite Hst1, (pointsPerBatch_eq st). fold K.
    set (w2 := set_state (set_iterations (iterations (state w1) + K) (state w1)) w1).
    assert (engineInv st w2) as Hinv2
      by (apply (engineInv_view st w1); [reflexivity | reflexivity | exact Hinv1]).
    assert (isRunning (state w2) = true) as Hr2 by (subst w2; simpl; congruence).
    assert (iterations (state w2) = iterations (state w) + K) as Hi2
      by (subst w2; simpl; congruence).
    assert (stabilityView (state w2) = stabilityView (state w)) as Hs2
      by (subst w2; exact Hs1).
    assert (settings (state w2) = st) as Hst2 by apply Hinv2.
    clearbody w2.
    unfold bind at 1. unfold getState at 1. cbv beta iota. rewrite Hst2.
    assert (stabilityCounter (state w2) = stabilityCounter (state w)) as Hc2
      by (unfold stabilityView in Hs2; congruence).
    replace (Z.of_nat (S b) * K) with (Z.of_nat b * K + K) by lia.
    destruct (Settings.autoStop st && (DEFAULT_STABILITY_INTERVAL <=? iterations (state w2)))
      eqn:Hcheck.
    + apply andb_true_iff in Hcheck as [Hauto Hint]. apply Z.leb_le in Hint.
      unfold bind at 1. unfold callCheckStability at 1. cbv beta iota.
      destruct (checkStability_view (state w2)) as (V1 & V2 & V3 & V4 & V5).
      cbv zeta in V1, V2, V3, V4, V5. injection V1 as V11 V12 V13 V14 V15 V16.
      set (w3 := set_state (snd (checkStability (state w2))) w2).
      assert (engineInv st w3) as Hinv3.
      { apply (engineInv_view st w2); [|exact V2 | exact Hinv2].
        subst w3. cbn [state set_state]. congruence. }
      assert (isRunning (state w3) = true) as Hr3 by (subst w3; cbn [state set_state]; congruence).
      assert (0 <= pointsPerStep st ->
              0 <= stabilityCounter (state w) -> 0 <= iterations (state w) ->
              0 <= stabilityCounter (state w3) /\ 0 <= iterations (state w3)
              /\ quietProgress (state w3) <= quietProgress (state w) + K) as Hq3.
      { intros Hp Hc0 Hi0. specialize (HK Hp).
        subst w3. cbn [state set_state]. unfold quietProgress, DEFAULT_STABILITY_INTERVAL in *.
        rewrite V3. destruct V5 as [V5|V5]; rewrite V5; lia. }
      destruct (fst (checkStability (state w2))) eqn:Hstable.
      * destruct (stop_running st w3 Hinv3 Hr3) as (w4 & E4 & Hinv4 & Hr4 & Hv4).
        assert (iterations (state w4) = iterations (state w3)) as Hi4
          by (injection Hv4; auto).
        assert (stabilityView (state w4) = stabilityView (state w3)) as Hs4
          by (unfold stabilityView in *; injection Hv4; intros; congruence).
        clear Hv4.
        unfold bind at 1. fold w3. rewrite E4. cbv beta iota.
        exists true, w4. split; [reflexivity|]. split; [exact Hinv4|].
        split; [exact Hr4|].
        assert (stabilityCounter (state w4) = stabilityCounter (state w3)) as Hc4
          by (unfold stabilityView in Hs4; congruence).
        split; [intros _; split; [exact Hauto | rewrite Hc4; apply V4; reflexivity]|].
        split; [|intros Hoff; congruence].
        intros Hp Hc0 Hi0. destruct (Hq3 Hp Hc0 Hi0) as (Q1 & Q2 & Q3).
        specialize (HK Hp).
        assert (0 <= Z.of_nat b * K) by (apply Z.mul_nonneg_nonneg; lia).
        unfold quietProgress in *. rewrite Hc4, Hi4. lia.
      * fold w3. destruct (IH w3 Hinv3 Hr3) as (fin & w' & E & I1 & I2 & I3 & I4 & I5).
        exists fin, w'. split; [exact E|]. split; [exact I1|]. split; [exact I2|].
        split; [exact I3|]. split; [|intros Hoff; congruence].
        intros Hp Hc0 Hi0. destruct (Hq3 Hp Hc0 Hi0) as (Q1 & Q2 & Q3).
        destruct (I4 Hp Q1 Q2) as (J1 & J2 & J3).
        split; [exact J1|]. split; [exact J2 | lia].
    + destruct (IH w2 Hinv2 Hr2) as (fin & w' & E & I1 & I2 & I3 & I4 & I5).
      exists fin, w'. split; [exact E|]. split; [exact I1|]. split; [exact I2|].
      split; [exact I3|]. split.
      * intros Hp Hc0 Hi0. specialize (HK Hp).
        destruct (I4 Hp ltac:(lia) ltac:(lia)) as (J1 & J2 & J3).
        split; [exact J1|]. split; [exact J2|].
        unfold quietProgress in *. rewrite Hc2, Hi2 in J3. lia.
      * intros Hoff. destruct (I5 Hoff) as (L1 & L2 & L3).
        split; [exact L1|]. split; [congruence | lia].
Qed.

Lemma drawLoop_spec (st : Settings.t) (b : nat) (due : bool) (w : World) :
  engineInv st w ->
  exists w',
    drawLoop b due w = (Normal tt, w')
    /\ engineInv st w'
    /\ (isRunning (state w) = false -> w' = w)
    /\ (isRunning (state w) = true ->
        exists fin,
          isRunning (state w') = negb fin
          /\ (fin = true ->
              Settings.autoStop st = true /\ STABILITY_WINDOW <= stabilityCounter (state w'))
          /\ (0 <= pointsPerStep st ->
              0 <= stabilityCounter (state w) -> 0 <= iterations (state w) ->
              0 <= stabilityCounter (state w') /\ 0 <= iterations (state w')
              /\ quietProgress (state w')
                 <= quietProgress (state w)
                    + Z.of_nat b * (Z.of_nat DEFAULT_BATCH_SIZE * pointsPerStep st))
          /\ (Settings.autoStop st = false ->
              fin = false
              /\ stabilityView (state w') = stabilityView (state w)
              /\ iterations (state w')
                 = iterations (state w)
                   + Z.of_nat b * (Z.of_nat DEFAULT_BATCH_SIZE * pointsPerStep st))).
Proof.
  intros Hinv. unfold drawLoop. unfold bind at 1. unfold getState at 1. cbv beta iota.
  destruct (isRunning (state w)) eqn:Hrun; cbn [negb]; cbv iota.
  - destruct (drawBatches_spec st b w Hinv Hrun) as (fin & w1 & E & I1 & I2 & I3 & I4 & I5).
    unfold bind at 1. rewrite E. cbv beta iota.
    destruct fin.
    + exists w1. split; [reflexivity|]. split; [exact I1|]. split; [discriminate|].
      intros _. exists true. auto.
    + unfold bind at 1. unfold getState at 1. cbv beta iota.
      destruct (due && Settings.liveRendering (settings (state w1))).
      * rewrite renderFrame_run. eexists. split; [reflexivity|].
        split; [apply (engineInv_view st w1); [reflexivity | reflexivity | exact I1]|].
        split; [discriminate|]. intros _. exists false. cbn [state set_state].
        split; [exact I2|]. split; [exact I3|]. split; [exact I4 | exact I5].
      * exists w1. split; [reflexivity|]. split; [exact I1|]. split; [discriminate|].
        intros _. exists false. auto.
  - exists w. split; [reflexivity|]. split; [exact Hinv|]. split; [reflexivity | discriminate].
Qed.

(** X21.  A frame of the main loop, from a state a run can be in: a batch
    of [DEFAULT_BATCH_SIZE] steps runs through without throwing, and the
    frame keeps the run's invariants (the walk can step, hit counts in
    range, filled pixels accounted for, settings untouched); on a stopped
    engine it does nothing at all; and it stops a running engine only with
    [autoStop] set and the quiet counter at [STABILITY_WINDOW] or more. *)
Theorem drawLoop_safe (st : Settings.t) (budget : nat) (renderDue : bool) (w : World) :
  engineInv st w ->
  let r := drawLoop budget renderDue w in
  fst (forRange 0 DEFAULT_BATCH_SIZE (fun _ => updateMatrix) w) = Normal tt
  /\ engineInv st (snd r)
  /\ (isRunning (state w) = false -> snd r = w)
  /\ (isRunning (state w) = true -> isRunning (state (snd r)) = false ->
      Settings.autoStop st = true
      /\ STABILITY_WINDOW <= stabilityCounter (state (snd r))).
Proof.
  intros Hinv. cbv zeta.
  destruct (drawLoop_spec st budget renderDue w Hinv) as (w' & E & H1 & H2 & H3).
  rewrite E. cbn [snd].
  split; [destruct (batch_steps st w Hinv) as (w1 & -> & _); reflexivity|].
  split; [exact H1|]. split; [exact H2|].
  intros Hrun Hstop. destruct (H3 Hrun) as (fin & F1 & F2 & _).
  apply F2. destruct fin; [reflexivity|]. simpl in F1. congruence.
Qed.

(** X22.  The engine cannot stop itself early.  With the quiet counter and
    the iteration count not negative, a frame adds at most
    [budget * DEFAULT_BATCH_SIZE * pointsPerStep] to the points counted since
    the quiet counter was last zero, and as long as that total stays below
    [STABILITY_WINDOW * DEFAULT_STABILITY_INTERVAL] (ten million) the engine
    is still running after the frame. *)
Theorem autoStop_needs_ten_intervals (st : Settings.t) (budget : nat) (renderDue : bool)
    (w : World) :
  engineInv st w ->
  isRunning (state w) = true ->
  0 <= pointsPerStep st ->
  0 <= stabilityCounter (state w) ->
  0 <= iterations (state w) ->
  let s' := state (snd (drawLoop budget renderDue w)) in
  let counted := Z.of_nat budget * (Z.of_nat DEFAULT_BATCH_SIZE * pointsPerStep st) in
  0 <= stabilityCounter s' /\ 0 <= iterations s'
  /\ quietProgress s' <= quietProgress (state w) + counted
  /\ (quietProgress (state w) + counted < STABILITY_WINDOW * DEFAULT_STABILITY_INTERVAL ->
      isRunning s' = true).
Proof.
  intros Hinv Hrun Hp Hc Hi. cbv zeta.
  destruct (drawLoop_spec st budget renderDue w Hinv) as (w' & E & _ & _ & H3).
  rewrite E. cbn [snd].
  destruct (H3 Hrun) as (fin & F1 & F2 & F3 & _).
  destruct (F3 Hp Hc Hi) as (Q1 & Q2 & Q3).
  split; [exact Q1|]. split; [exact Q2|]. split; [exact Q3|].
  intros Hlt. destruct fin; [|exact F1].
  destruct (F2 eq_refl) as [_ Hwin]. exfalso.
  unfold quietProgress, STABILITY_WINDOW, DEFAULT_STABILITY_INTERVAL in *. lia.
Qed.

(** X23.  With [autoStop] off a frame never checks for stability: the
    engine stays running, the quiet counter, the EMA and the count of
    filled pixels are untouched, and the iteration count has grown by
    [budget * DEFAULT_BATCH_SIZE * pointsPerStep]. *)
Theorem drawLoop_without_autoStop (st : Settings.t) (budget : nat) (renderDue : bool)
    (w : World) :
  engineInv st w ->
  isRunning (state w) = true ->
  Settings.autoStop st = false ->
  let s' := state (snd (drawLoop budget renderDue w)) in
  isRunning s' = true
  /\ stabilityView s' = stabilityView (state w)
  /\ iterations s'
     = iterations (state w)
       + Z.of_nat budget * (Z.of_nat DEFAULT_BATCH_SIZE * pointsPerStep st).
Proof.
  intros Hinv Hrun Hoff. cbv zeta.
  destruct (drawLoop_spec st budget renderDue w Hinv) as (w' & E & _ & _ & H3).
  rewrite E. cbn [snd].
  destruct (H3 Hrun) as (fin & F1 & _ & _ & F4).
  destruct (F4 Hoff) as (-> & L2 & L3).
  split; [exact F1|]. split; [exact L2 | exact L3].
Qed.

Lemma runningWorld_inv : engineInv noSettings runningWorld.
Proof.
  split; [|split; [apply Forall_nil; exact I | split; reflexivity]].
  split; [simpl; lia|]. split; [reflexivity|]. split.
  - intros [|i] allowed H; [|discriminate H]. injection H as <-.
    split; [discriminate|]. intros j [<-|[]]. simpl. lia.
  - intros e [].
Defined.

Lemma drawLoop_safe_witness :
  fst (forRange 0 DEFAULT_BATCH_SIZE (fun _ => updateMatrix) runningWorld) = Normal tt.
Proof.
  destruct (drawLoop_safe noSettings 2 true runningWorld) as (H & _).
  - exact runningWorld_inv.
  - exact H.
Defined.

Lemma autoStop_needs_ten_intervals_witness :
  isRunning (state (snd (drawLoop 2 true runningWorld))) = true.
Proof.
  destruct (autoStop_needs_ten_intervals noSettings 2 true runningWorld) as (_ & _ & _ & H).
  - exact runningWorld_inv.
  - reflexivity.
  - discriminate.
  - discriminate.
  - discriminate.
  - apply H. vm_compute. reflexivity.
Defined.

Lemma drawLoop_without_autoStop_witness :
  isRunning (state (snd (drawLoop 2 true runningWorld))) = true.
Proof.
  destruct (drawLoop_without_autoStop noSettings 2 true runningWorld) as (H & _).
  - exact runningWorld_inv.
  - reflexivity.
  - reflexivity.
  - exact H.
Defined.

(** ** Counters after set-up *)

Lemma setup_fresh (st : Settings.t) (w : World) :
  offscreenCanvas w <> None ->
  ctx w = true ->
  fst (setup st w) = Normal tt ->
  let s' := state (snd (setup st w)) in
  (filledPixels s', newPixelsSinceLastCheck s', iterations s', stabilityCounter s',
   maxValue s')
  = (0, 0, 0, 0, 1)
  /\ newPixelsEma s' = 0%R.
Proof.
  intros Hc Hctx. cbv zeta. rewrite setup_with_canvas by exact Hc.
  pose proof (preDraw_keeps_ctx (beforePreDraw st w)) as Hk.
  rewrite beforePreDraw_ctx in Hk.
  unfold bind.
  destruct (preDraw (beforePreDraw st w)) as [[[]|] w1]; [|discriminate].
  simpl in Hk. intros _. unfold erase. rewrite Hk, Hctx. cbn [negb]. cbv iota.
  unfold modify. cbn [snd state set_state].
  destruct (negb _); split; reflexivity.
Qed.

Lemma afterSteps_accounted (m : nat) :
  forall w : World,
    cellsInRange (state w) ->
    accounted (state w) ->
    cellsInRange (state (afterSteps m w))
    /\ accounted (state (afterSteps m w))
    /\ filledPixels (state (afterSteps m w)) = filledPixels (state w).
Proof.
  induction m as [|m IH]; intros w Hc Ha; cbn [afterSteps].
  - auto.
  - destruct (updateMatrix_monotone w Hc) as (Hc' & _).
    pose proof (updateMatrix_accounted w Hc Ha) as Ha'.
    pose proof (updateMatrix_keeps filledPixels
                  ltac:(reflexivity) ltac:(reflexivity) ltac:(reflexivity)
                  ltac:(reflexivity) ltac:(reflexivity) w) as Kf.
    destruct (IH _ Hc' Ha') as (I1 & I2 & I3).
    split; [exact I1|]. split; [exact I2|]. rewrite I3. exact Kf.
Qed.

(** X24.  The count of new pixels is the number of cells hit at least once.
    After a [setup] that got through (context held) both pixel counters are
    0, with an empty matrix; after any number of steps
    [newPixelsSinceLastCheck] is the number of non-empty cells of the
    matrix, and a stability check then moves it to [filledPixels], which
    from then on holds the number of non-empty cells. *)
Theorem new_pixels_counted (st : Settings.t) (w : World) (m : nat) :
  offscreenCanvas w <> None ->
  ctx w = true ->
  fst (setup st w) = Normal tt ->
  let s0 := state (snd (setup st w)) in
  let s := state (afterSteps m (snd (setup st w))) in
  let checked := snd (checkStability s) in
  filledPixels s0 = 0 /\ newPixelsSinceLastCheck s0 = 0
  /\ filledPixels s = 0
  /\ newPixelsSinceLastCheck s = countNonZero (imageMatrix s)
  /\ newPixelsSinceLastCheck checked = 0
  /\ filledPixels checked = countNonZero (imageMatrix checked).
Proof.
  intros Hc Hctx Hok. cbv zeta.
  destruct (setup_fresh st w Hc Hctx Hok) as [Hf _]. cbv zeta in Hf.
  injection Hf as Hf1 Hf2 _ _ _.
  pose proof (setup_matrix st w Hc Hctx Hok) as Hmat.
  set (w' := snd (setup st w)) in *. clearbody w'.
  assert (cellsInRange (state w')) as Hcells
    by (apply (cellsInRange_zeros _ _ Hmat)).
  assert (accounted (state w')) as Hacc.
  { unfold accounted. rewrite Hf1, Hf2, Hmat, countNonZero_replicate. reflexivity. }
  destruct (afterSteps_accounted m w' Hcells Hacc) as (_ & Ha & Hfm).
  unfold accounted in Ha. rewrite Hfm, Hf1 in Ha.
  split; [exact Hf1|]. split; [exact Hf2|].
  split; [rewrite Hfm; exact Hf1|]. split; [lia|].
  unfold checkStability. cbv zeta.
  destruct (Rlt_dec _ _); [destruct (STABILITY_WINDOW <=? _)|];
    cbn [snd newPixelsSinceLastCheck filledPixels imageMatrix set_iterations
         set_newPixelsEma set_filledPixels set_newPixelsSinceLastCheck
         set_stabilityCounter];
    (split; [reflexivity|]); rewrite Hfm, Hf1; lia.
Qed.

Lemma new_pixels_counted_witness :
  newPixelsSinceLastCheck (state (afterSteps 3 (snd (setup triangleSettings world0))))
  = countNonZero (imageMatrix (state (afterSteps 3 (snd (setup triangleSettings world0))))).
Proof.
  destruct (setup_ok triangleSettings world0) as (w' & E & _).
  - discriminate.
  - simpl. lia.
  - apply rowsNonEmpty_none; [reflexivity | simpl; lia].
  - intros e [].
  - destruct (new_pixels_counted triangleSettings world0 3) as (_ & _ & _ & H & _).
    + discriminate.
    + reflexivity.
    + rewrite E. reflexivity.
    + exact H.
Defined.

(** ** Play and stop *)

Lemma set_isRunning_same (s : State) : set_isRunning (isRunning s) s = s.
Proof. destruct s. reflexivity. Qed.

(** X25.  The controls: [play] on a running engine and [stop] on a stopped
    one change nothing (a second [stop] does not even render); [play]
    always returns with the engine running, [stop] with it stopped; and
    [play] followed by [stop] on a stopped engine is one [renderFrame]. *)
Theorem play_and_stop (w : World) :
  (isRunning (state w) = true -> play w = (Normal tt, w))
  /\ (isRunning (state w) = false -> stop w = (Normal tt, w))
  /\ fst (play w) = Normal tt /\ isRunning (state (snd (play w))) = true
  /\ isRunning (state (snd (stop w))) = false
  /\ (play ;; play) w = play w
  /\ (stop ;; stop) w = stop w
  /\ (isRunning (state w) = false -> (play ;; stop) w = renderFrame w).
Proof.
  assert (forall w0, isRunning (state w0) = true -> play w0 = (Normal tt, w0)) as Hplay.
  { intros w0 H. unfold play, bind, getState. rewrite H. reflexivity. }
  assert (forall w0, isRunning (state w0) = false -> stop w0 = (Normal tt, w0)) as Hstop.
  { intros w0 H. unfold stop, bind, getState. rewrite H. reflexivity. }
  assert (forall w0, isRunning (state w0) = false ->
            play w0 = (Normal tt, set_state (set_isRunning true (state w0)) w0)) as Hplay'.
  { intros w0 H. unfold play, bind, getState. rewrite H. reflexivity. }
  assert (forall w0, isRunning (state w0) = true ->
            stop w0
            = (Normal tt,
               set_state (updatePixelDataFromMatrix (set_isRunning false (state w0))) w0))
    as Hstop'.
  { intros w0 H. unfold stop. unfold bind at 1. unfold getState. cbv beta iota.
    rewrite H. unfold bind, modify. cbn [negb]. cbv beta iota.
    rewrite renderFrame_run. reflexivity. }
  split; [apply Hplay|]. split; [apply Hstop|].
  destruct (isRunning (state w)) eqn:Hrun.
  - rewrite (Hplay w Hrun), (Hstop' w Hrun). cbn [fst snd state set_state].
    split; [reflexivity|]. split; [exact Hrun|]. split; [reflexivity|].
    split; [unfold bind; rewrite (Hplay w Hrun); apply Hplay; exact Hrun|].
    split; [|discriminate].
    unfold bind. rewrite (Hstop' w Hrun). apply Hstop. reflexivity.
  - rewrite (Hplay' w Hrun), (Hstop w Hrun). cbn [fst snd state set_state].
    split; [reflexivity|]. split; [reflexivity|].
    split; [exact Hrun|].
    split; [unfold bind; rewrite (Hplay' w Hrun); apply Hplay; reflexivity|].
    split; [unfold bind; rewrite (Hstop w Hrun); apply Hstop; exact Hrun|].
    intros _. unfold bind. rewrite (Hplay' w Hrun), Hstop' by reflexivity.
    rewrite renderFrame_run. cbn [state set_state].
    replace (set_isRunning false (set_isRunning true (state w))) with (state w).
    + destruct w; reflexivity.
    + rewrite <- (set_isRunning_same (state w)) at 1. rewrite Hrun.
      destruct (state w); reflexivity.
Qed.

(** ** The canvas and the buffers after set-up *)





(** ** One step of the walk *)

Lemma updateCurrentPoint_state (w : World) (k : nat) (v : Point.t) :
  chooseIndex (state w) w = (Normal (Some k), set_random (rng_tail (random w)) w) ->
  vertices (state w) !! k = Some v ->
  let s := state w in
  let jump := Settings.jumpDistance (settings s) in
  let p := currentPoint s in
  updateCurrentPoint w
  = (Normal tt,
     set_state
       (set_currentPoint
          {| Point.x := (Point.x p + (Point.x v - Point.x p) * jump)%R;
             Point.y := (Point.y p + (Point.y v - Point.y p) * jump)%R |}
          (set_prevIndex (pushHistory (prevIndex s) (Some k)) s))
       (set_random (rng_tail (random w)) w)).
Proof.
  intros Hc Hv. cbv zeta. unfold updateCurrentPoint.
  unfold bind at 1. unfold getState at 1. cbv beta iota.
  unfold bind at 1. rewrite Hc. cbv beta iota.
  unfold bind at 1. unfold modify at 1. cbv beta iota.
  unfold bind at 1. unfold modify at 1. cbv beta iota.
  unfold bind at 1. simpl mbind. rewrite Hv. simpl defined.
  unfold ret at 1. cbv beta iota. unfold modify.
  cbn [state set_state set_random]. unfold pushHistory. cbv zeta.
  cbn [prevIndex set_prevIndex].
  destruct (10 <? length (prevIndex (state w) ++ [Some k]))%nat; reflexivity.
Qed.

(** X27.  One step of the walk, from a state in which the walk can step.  It
    takes exactly one random draw [u] and picks a vertex [k]: when the move
    is free, the vertex at [floor(u * vertices.length)]; otherwise the
    entry at [floor(u * allowed.length)] of the row the table holds for
    the history entry looked back at.  It appends [k] to the history,
    dropping the oldest entry beyond ten, and moves the current point the
    fraction [jumpDistance] of the way to vertex [k]; nothing else
    changes. *)
Theorem updateCurrentPoint_spec (w : World) :
  walkReady (state w) ->
  let s := state w in
  let u := random w 0%nat in
  let jump := Settings.jumpDistance (settings s) in
  let p := currentPoint s in
  exists k v,
    vertices s !! k = Some v
    /\ (movesFreely s = true -> k = randomBelow u (length (vertices s)))
    /\ (movesFreely s = false ->
        exists a allowed,
          at_back (prevIndex s) (lookback s) = Some (Some a)
          /\ allowedMoves s !! a = Some allowed
          /\ allowed !! randomBelow u (length allowed) = Some k)
    /\ updateCurrentPoint w
       = (Normal tt,
          set_state
            (set_currentPoint
               {| Point.x := (Point.x p + (Point.x v - Point.x p) * jump)%R;
                  Point.y := (Point.y p + (Point.y v - Point.y p) * jump)%R |}
               (set_prevIndex (pushHistory (prevIndex s) (Some k)) s))
            (set_random (rng_tail (random w)) w)).
Proof.
  intros Hready. cbv zeta.
  destruct (chooseIndex_ok (state w) w Hready) as (k & Hc & Hk).
  destruct (lookup_lt_is_Some_2 (vertices (state w)) k Hk) as [v Hv].
  exists k, v. split; [exact Hv|].
  split; [|split; [|apply updateCurrentPoint_state; assumption]].
  - intros Hfree. rewrite (chooseIndex_free (state w) w Hfree) in Hc.
    injection Hc as Hc. symmetry. exact Hc.
  - intros Hfree. destruct Hready as (Hn & Hlen & Hrows & Hhist).
    destruct (at_back_is_Some (prevIndex (state w)) (lookback (state w))
                (movesFreely_false_lookback (state w) Hfree)) as [e He].
    destruct (Hhist e (at_back_In _ _ _ He)) as (a & -> & Ha).
    destruct (lookup_lt_is_Some_2 (allowedMoves (state w)) a ltac:(lia)) as [allowed Hal].
    exists a, allowed. split; [exact He|]. split; [exact Hal|].
    rewrite (chooseIndex_restricted (state w) w a allowed Hfree He Hal) in Hc.
    injection Hc as Hc. exact Hc.
Qed.

Lemma updateCurrentPoint_spec_witness :
  exists k v,
    vertices (state loneVertexWorld) !! k = Some v
    /\ (movesFreely (state loneVertexWorld) = true ->
        k = randomBelow (random loneVertexWorld 0%nat)
              (length (vertices (state loneVertexWorld))))
    /\ (movesFreely (state loneVertexWorld) = false ->
        exists a allowed,
          at_back (prevIndex (state loneVertexWorld)) (lookback (state loneVertexWorld))
          = Some (Some a)
          /\ allowedMoves (state loneVertexWorld) !! a = Some allowed
          /\ allowed !! randomBelow (random loneVertexWorld 0%nat) (length allowed) = Some k)
    /\ updateCurrentPoint loneVertexWorld
       = (Normal tt,
          set_state
            (set_currentPoint
               {| Point.x :=
                    (Point.x (currentPoint (state loneVertexWorld))
                     + (Point.x v - Point.x (currentPoint (state loneVertexWorld)))
                       * Settings.jumpDistance (settings (state loneVertexWorld)))%R;
                  Point.y :=
                    (Point.y (currentPoint (state loneVertexWorld))
                     + (Point.y v - Point.y (currentPoint (state loneVertexWorld)))
                       * Settings.jumpDistance (settings (state loneVertexWorld)))%R |}
               (set_prevIndex
                  (pushHistory (prevIndex (state loneVertexWorld)) (Some k))
                  (state loneVertexWorld)))
            (set_random (rng_tail (random loneVertexWorld)) loneVertexWorld)).
Proof. apply (updateCurrentPoint_spec loneVertexWorld). exact loneVertexWorld_ready. Defined.

(** ** The symmetric mode *)


